(** * KillPhilosophy: the academics catalog, its merge engine, its search
      and the text extractor, embedded from
      [database-manager-compact.js] (class [DatabaseManager]) and from the
      DeepSearch module (class [DeepSearchAPI]).

    Modelling conventions.
    - Strings are ASCII strings; [toLowerCase], [\s], [\w], [\d], [.] and
      [trim] are the ASCII restrictions of the JavaScript builtins.  The
      bullet character of the list patterns has no ASCII form and is left
      out of the character classes.
    - JavaScript objects that the code shares by reference (academic
      records) live in an object store [heap]; a reference is an index.
      Arrays and nested objects are owned by the record that holds them.
    - [this.academics] is an association list in property enumeration
      order (integer-like keys first, in ascending order, then the other
      keys in insertion order), read as a plain dictionary of own
      properties; [inherited_key] marks the keys that a read would also
      find on the prototype.
    - [localStorage] is a type class: the operations of the Web Storage
      interface, with no law assumed.  The contract of a working storage
      (a completed [setItem] is read back by [getItem]) is the separate
      class [LawfulStorage].
    - A text kept in a storage slot is represented by the value
      [JSON.parse] yields for it, or as [Raw] when it is not JSON.  Of the
      objects, only a catalog is read from the academics slot and from
      its backup ([catalog_slot]).
    - The clock, [Date] parsing, [localeCompare] and the JSON parser applied
      to a fenced block are runtime services and are section variables. *)

From Stdlib Require Import ZArith Ascii String DecimalString List Bool Lia Permutation Sorted.
From stdpp Require Import base list strings.

Open Scope string_scope.
Open Scope list_scope.
Open Scope nat_scope.

(* ===================================================================== *)
(** ** JavaScript string builtins (ASCII) *)
(* ===================================================================== *)

Module JS.

Definition code (c : ascii) : nat := nat_of_ascii c.

Definition is_upper (c : ascii) : bool := (65 <=? code c) && (code c <=? 90).
Definition is_lower (c : ascii) : bool := (97 <=? code c) && (code c <=? 122).
Definition is_digit (c : ascii) : bool := (48 <=? code c) && (code c <=? 57).

(** [\s]: tab, line feed, vertical tab, form feed, carriage return, space. *)
Definition is_space (c : ascii) : bool :=
  ((9 <=? code c) && (code c <=? 13)) || (code c =? 32).

(** [\w]: letters, digits, underscore. *)
Definition is_word (c : ascii) : bool :=
  is_upper c || is_lower c || is_digit c || (code c =? 95).

(** Line terminators excluded by [.]: line feed and carriage return. *)
Definition is_line_terminator (c : ascii) : bool :=
  (code c =? 10) || (code c =? 13).

Definition lower_char (c : ascii) : ascii :=
  if is_upper c then ascii_of_nat (code c + 32) else c.

Definition upper_char (c : ascii) : ascii :=
  if is_lower c then ascii_of_nat (code c - 32) else c.

(** [s.toLowerCase()] *)
Fixpoint toLowerCase (s : string) : string :=
  match s with
  | EmptyString => EmptyString
  | String c s' => String (lower_char c) (toLowerCase s')
  end.

(** [s.startsWith(p)] *)
Fixpoint startsWith (s p : string) : bool :=
  match p, s with
  | EmptyString, _ => true
  | String _ _, EmptyString => false
  | String b p', String a s' => Ascii.eqb a b && startsWith s' p'
  end.

(** Position of the first occurrence of [q] in [s]: the search that both
    [indexOf] and [includes] perform. *)
Fixpoint find_sub (s q : string) : option nat :=
  if startsWith s q then Some 0
  else match s with
       | EmptyString => None
       | String _ s' => option_map S (find_sub s' q)
       end.

(** [s.indexOf(q)] *)
Definition indexOf (s q : string) : Z :=
  match find_sub s q with
  | Some i => Z.of_nat i
  | None => (-1)%Z
  end.

(** [s.includes(q)] *)
Definition includes (s q : string) : bool :=
  match find_sub s q with
  | Some _ => true
  | None => false
  end.

Fixpoint drop_space (l : list ascii) : list ascii :=
  match l with
  | a :: l' => if is_space a then drop_space l' else l
  | [] => []
  end.

(** [s.trim()] *)
Definition trim (s : string) : string :=
  string_of_list_ascii
    (rev (drop_space (rev (drop_space (list_ascii_of_string s))))).

(** Truthiness of a string: the empty string is falsy. *)
Definition truthy (s : string) : bool :=
  match s with
  | EmptyString => false
  | String _ _ => true
  end.

(** [s.split(c)] for a one-character separator. *)
Fixpoint split_char (c : ascii) (s : string) : list string :=
  match s with
  | EmptyString => [EmptyString]
  | String a s' =>
      if Ascii.eqb a c then EmptyString :: split_char c s'
      else match split_char c s' with
           | w :: ws => String a w :: ws
           | [] => [String a EmptyString]
           end
  end.

(** [parseInt] on a string of decimal digits. *)
Definition parseInt (s : string) : Z :=
  fold_left (fun acc c => (10 * acc + Z.of_nat (code c - 48))%Z)
            (list_ascii_of_string s) 0%Z.

(** Array-index keys ("0", "1", ... without leading zeros, below 2^32 - 1)
    are enumerated before the other keys of an object, in ascending
    order. *)
Definition array_index (k : string) : option Z :=
  match k with
  | EmptyString => None
  | String c rest =>
      if forallb is_digit (list_ascii_of_string k)
         && (negb (Ascii.eqb c "0") || String.eqb rest EmptyString)
         && (parseInt k <? 4294967295)%Z
      then Some (parseInt k) else None
  end.

Section Objects.
  Context {V : Type}.

  (** [obj[k]] on own properties *)
Fixpoint obj_get (k : string) (o : list (string * V)) : option V :=
    match o with
    | [] => None
    | (k', v) :: o' => if String.eqb k k' then Some v else obj_get k o'
    end.

  (** Position of a new key among the properties. *)
Fixpoint obj_add (k : string) (v : V) (o : list (string * V)) : list (string * V) :=
    match o with
    | [] => [(k, v)]
    | (k', v') :: o' =>
        match array_index k, array_index k' with
        | Some i, Some j => if (i <? j)%Z then (k, v) :: o else (k', v') :: obj_add k v o'
        | Some _, None => (k, v) :: o
        | None, _ => (k', v') :: obj_add k v o'
        end
    end.

Fixpoint obj_replace (k : string) (v : V) (o : list (string * V)) : list (string * V) :=
    match o with
    | [] => []
    | (k', v') :: o' =>
        if String.eqb k k' then (k', v) :: o' else (k', v') :: obj_replace k v o'
    end.

  (** [obj[k] = v] *)
Definition obj_set (k : string) (v : V) (o : list (string * V)) : list (string * V) :=
    match obj_get k o with
    | Some _ => obj_replace k v o
    | None => obj_add k v o
    end.

  (** [Object.keys(obj)], [Object.values(obj)] *)
Definition obj_keys (o : list (string * V)) : list string := map fst o.
Definition obj_values (o : list (string * V)) : list V := map snd o.
End Objects.

(** [xs.sort(cmp)]: a stable sort; [cmp x y > 0] means that [x] goes after
    [y].  A comparator that yields NaN counts as [0].  For a consistent
    comparator every stable sort returns this list. *)
Section Sort.
  Context {A : Type} (cmp : A -> A -> Z).

Fixpoint sort_insert (x : A) (l : list A) : list A :=
    match l with
    | [] => [x]
    | y :: l' => if (cmp x y <=? 0)%Z then x :: l else y :: sort_insert x l'
    end.

Definition sort (l : list A) : list A := fold_right sort_insert [] l.
End Sort.

End JS.

(* ===================================================================== *)
(** ** Regular expressions: a backtracking matcher in the order of the
       ECMAScript semantics (leftmost start, alternatives left to right,
       greedy or lazy repetition, lookahead, capture groups) *)
(* ===================================================================== *)

Module Regex.

Inductive citem : Type :=
| CChar (c : ascii)          (* a literal member of a class *)
| CRange (lo hi : ascii)     (* lo-hi *)
| CSpace                     (* \s *)
| CNotSpace                  (* \S *)
| CDigit                     (* \d *)
| CWord.                     (* \w *)

Inductive regex : Type :=
| Eps                                    (* empty pattern *)
| Chr (c : ascii)                        (* literal character *)
| Any                                    (* . *)
| Cls (neg : bool) (items : list citem)  (* [...] and [^...] *)
| Seq (r1 r2 : regex)
| Alt (r1 r2 : regex)                    (* r1|r2 *)
| Star (greedy : bool) (r : regex)       (* r* and r*? *)
| Group (n : nat) (r : regex)            (* n-th capture group *)
| Look (neg : bool) (r : regex)          (* (?=r) and (?!r) *)
| Bol                                    (* ^ *)
| Eol.                                   (* $ *)

Record flags : Type := { ignoreCase : bool; multiline : bool }.

Definition no_flags : flags := {| ignoreCase := false; multiline := false |}.
Definition flag_i : flags := {| ignoreCase := true; multiline := false |}.
Definition flag_m : flags := {| ignoreCase := false; multiline := true |}.
Definition flag_im : flags := {| ignoreCase := true; multiline := true |}.

Definition caps : Type := list (nat * list ascii).

Fixpoint get_cap (n : nat) (c : caps) : option (list ascii) :=
  match c with
  | [] => None
  | (m, v) :: c' => if n =? m then Some v else get_cap n c'
  end.

Definition set_cap (n : nat) (v : list ascii) (c : caps) : caps := (n, v) :: c.

Definition char_eq (fl : flags) (a d : ascii) : bool :=
  if ignoreCase fl then Ascii.eqb (JS.upper_char a) (JS.upper_char d)
  else Ascii.eqb a d.

Definition in_item (a : ascii) (it : citem) : bool :=
  match it with
  | CChar c => Ascii.eqb a c
  | CRange lo hi => (JS.code lo <=? JS.code a) && (JS.code a <=? JS.code hi)
  | CSpace => JS.is_space a
  | CNotSpace => negb (JS.is_space a)
  | CDigit => JS.is_digit a
  | CWord => JS.is_word a
  end.

Definition in_class (fl : flags) (items : list citem) (a : ascii) : bool :=
  if ignoreCase fl
  then existsb (in_item a) items || existsb (in_item (JS.lower_char a)) items
       || existsb (in_item (JS.upper_char a)) items
  else existsb (in_item a) items.

(** The result of a match: the input left after it, and the captures. *)
Definition result : Type := list ascii * caps.

(** [rmatch fl r p s c k]: match [r] at the input [s], whose previous
    character is [p]; [k] is the rest of the pattern.  An iteration of a
    repetition that consumes nothing is rejected, so the length of the
    input bounds the number of iterations. *)
Fixpoint rmatch (fl : flags) (r : regex) (p : option ascii) (s : list ascii) (c : caps)
    (k : option ascii -> list ascii -> caps -> option result) {struct r} : option result :=
  match r with
  | Eps => k p s c
  | Chr d =>
      match s with
      | a :: s' => if char_eq fl a d then k (Some a) s' c else None
      | [] => None
      end
  | Any =>
      match s with
      | a :: s' => if JS.is_line_terminator a then None else k (Some a) s' c
      | [] => None
      end
  | Cls neg items =>
      match s with
      | a :: s' => if xorb neg (in_class fl items a) then k (Some a) s' c else None
      | [] => None
      end
  | Seq r1 r2 => rmatch fl r1 p s c (fun p' s' c' => rmatch fl r2 p' s' c' k)
  | Alt r1 r2 =>
      match rmatch fl r1 p s c k with
      | Some x => Some x
      | None => rmatch fl r2 p s c k
      end
  | Star greedy r' =>
      (fix loop (n : nat) (p : option ascii) (s : list ascii) (c : caps) {struct n}
         : option result :=
         match n with
         | O => k p s c
         | S n' =>
             let again (_ : unit) :=
               rmatch fl r' p s c
                 (fun p' s' c' =>
                    if length s' <? length s then loop n' p' s' c' else None) in
             if greedy
             then match again tt with
                  | Some x => Some x
                  | None => k p s c
                  end
             else match k p s c with
                  | Some x => Some x
                  | None => again tt
                  end
         end) (length s) p s c
  | Group n r' =>
      rmatch fl r' p s c
        (fun p' s' c' => k p' s' (set_cap n (firstn (length s - length s') s) c'))
  | Look neg r' =>
      match rmatch fl r' p s c (fun _ s' c' => Some (s', c')) with
      | Some (_, c') => if neg then None else k p s c'
      | None => if neg then k p s c else None
      end
  | Bol =>
      match p with
      | None => k p s c
      | Some a => if multiline fl && JS.is_line_terminator a then k p s c else None
      end
  | Eol =>
      match s with
      | [] => k p s c
      | a :: _ => if multiline fl && JS.is_line_terminator a then k p s c else None
      end
  end.

(** A match found by a search: the text before it, the matched text, the
    text after it, and the captures. *)
Record found : Type :=
  { before : list ascii; matched : list ascii; after : list ascii; captures : caps }.

(** Match exactly at the current position. *)
Definition match_here (fl : flags) (r : regex) (p : option ascii) (s : list ascii)
  : option (list ascii * list ascii * caps) :=
  match rmatch fl r p s [] (fun _ s' c' => Some (s', c')) with
  | Some (rest, c) => Some (firstn (length s - length rest) s, rest, c)
  | None => None
  end.

(** Leftmost match at or after the current position. *)
Fixpoint search_from (fl : flags) (r : regex) (skipped : list ascii)
    (p : option ascii) (s : list ascii) : option found :=
  match match_here fl r p s with
  | Some (m, rest, c) =>
      Some {| before := rev skipped; matched := m; after := rest; captures := c |}
  | None =>
      match s with
      | [] => None
      | a :: s' => search_from fl r (a :: skipped) (Some a) s'
      end
  end.

Definition search (fl : flags) (r : regex) (s : string) : option found :=
  search_from fl r [] None (list_ascii_of_string s).

(** [m[n]] of a match array; a group that took no part reads as the
    empty string (in the patterns below the groups read always take
    part). *)
Definition group (n : nat) (f : found) : string :=
  match get_cap n (captures f) with
  | Some v => string_of_list_ascii v
  | None => EmptyString
  end.

(** [regex.test(s)] *)
Definition test (fl : flags) (r : regex) (s : string) : bool :=
  match search fl r s with Some _ => true | None => false end.

(** [s.replace(regex, by)] without the [g] flag: the first match only. *)
Definition replace (fl : flags) (r : regex) (by_ : string) (s : string) : string :=
  match search fl r s with
  | Some f =>
      string_of_list_ascii (before f ++ list_ascii_of_string by_ ++ after f)
  | None => s
  end.

Definition last_char (p : option ascii) (l : list ascii) : option ascii :=
  match rev l with
  | a :: _ => Some a
  | [] => p
  end.

(** [s.replace(regex, by)] with the [g] flag: every match, left to right;
    after an empty match the scan moves one character on. *)
Fixpoint replace_all_from (n : nat) (fl : flags) (r : regex) (by_ : list ascii)
    (p : option ascii) (s : list ascii) : list ascii :=
  match n with
  | O => s
  | S n' =>
      match search_from fl r [] p s with
      | None => s
      | Some f =>
          match matched f, after f with
          | [], a :: rest =>
              before f ++ by_ ++ a :: replace_all_from n' fl r by_ (Some a) rest
          | [], [] => before f ++ by_
          | _ :: _, rest =>
              before f ++ by_
                ++ replace_all_from n' fl r by_ (last_char p (before f ++ matched f)) rest
          end
      end
  end.

Definition replace_all (fl : flags) (r : regex) (by_ : string) (s : string) : string :=
  string_of_list_ascii
    (replace_all_from (S (String.length s)) fl r (list_ascii_of_string by_) None
       (list_ascii_of_string s)).

(** [s.split(regex)] for a pattern without capture groups: the separator
    is tried at each position in turn; a match that ends where the current
    piece starts is skipped. *)
Fixpoint split_from (n : nat) (fl : flags) (r : regex) (piece : list ascii)
    (p : option ascii) (s : list ascii) : list string :=
  match n, s with
  | O, _ | _, [] => [string_of_list_ascii (rev piece ++ s)]
  | S n', a :: s' =>
      match match_here fl r p s with
      | Some (m, rest, _) =>
          match m, piece with
          | [], [] => split_from n' fl r (a :: piece) (Some a) s'
          | [], _ :: _ =>
              string_of_list_ascii (rev piece) :: split_from n' fl r [a] (Some a) s'
          | _ :: _, _ =>
              string_of_list_ascii (rev piece)
                :: split_from n' fl r [] (last_char p m) rest
          end
      | None => split_from n' fl r (a :: piece) (Some a) s'
      end
  end.

Definition split (fl : flags) (r : regex) (s : string) : list string :=
  match s with
  | EmptyString =>
      match match_here fl r None [] with
      | Some _ => []
      | None => [EmptyString]
      end
  | _ => split_from (S (String.length s)) fl r [] None (list_ascii_of_string s)
  end.

(** Pattern combinators. *)
Fixpoint lit (s : string) : regex :=
  match s with
  | EmptyString => Eps
  | String c EmptyString => Chr c
  | String c s' => Seq (Chr c) (lit s')
  end.

Fixpoint seqs (rs : list regex) : regex :=
  match rs with
  | [] => Eps
  | [r] => r
  | r :: rs' => Seq r (seqs rs')
  end.

Fixpoint alts (rs : list regex) : regex :=
  match rs with
  | [] => Eps
  | [r] => r
  | r :: rs' => Alt r (alts rs')
  end.

Definition star (r : regex) : regex := Star true r.          (* r*  *)
Definition lazy_star (r : regex) : regex := Star false r.    (* r*? *)
Definition plus (r : regex) : regex := Seq r (Star true r).  (* r+  *)
Definition opt (r : regex) : regex := Alt r Eps.             (* r?  *)
Definition ws : regex := Cls false [CSpace].                 (* \s  *)
Definition digit : regex := Cls false [CDigit].              (* \d  *)
Definition digit4 : regex := seqs [digit; digit; digit; digit].  (* \d{4} *)
Definition anything : regex := Cls false [CSpace; CNotSpace].    (* [\s\S] *)
Definition newline : ascii := ascii_of_nat 10.

End Regex.

(* ===================================================================== *)
(** ** Data model *)
(* ===================================================================== *)

(** [{title, year, coauthors}]; an absent year is [None], and [Some 0] is
    the falsy year the extractor writes. *)
Module Paper.
Record t : Type := mk { title : string; year : option Z; coauthors : list string }.
End Paper.

(** [{title, year, location}] *)
Module Event.
Record t : Type := mk { title : string; year : option Z; location : string }.
End Event.

(** [{title, content, date, type}]; an absent date is [None]. *)
Module Tile.
Record t : Type :=
    mk { title : string; content : string; date : option string; type : string }.
End Tile.

(** An academic record.  The name is a string, empty when the property is
    absent or falsy; every other property may be absent. *)
Record Academic : Type := mkAcademic {
  name : string;
  bio : option string;
  taxonomies : option (list (string * list string));
  papers : option (list Paper.t);
  events : option (list Event.t);
  connections : option (list string)
}.

(** Truthiness of a year: absent and [0] are falsy. *)
Definition year_truthy (y : option Z) : bool :=
  match y with
  | Some z => negb (z =? 0)%Z
  | None => false
  end.

(** [y1 === y2] on years *)
Definition year_eqb (y1 y2 : option Z) : bool :=
  match y1, y2 with
  | Some a, Some b => (a =? b)%Z
  | None, None => true
  | _, _ => false
  end.

(** Truthiness of an optional string property. *)
Definition opt_truthy (s : option string) : bool :=
  match s with
  | Some v => JS.truthy v
  | None => false
  end.

(** [s1 !== s2] on optional string properties *)
Definition opt_string_eqb (s1 s2 : option string) : bool :=
  match s1, s2 with
  | Some a, Some b => String.eqb a b
  | None, None => true
  | _, _ => false
  end.

(* ===================================================================== *)
(** ** DeepSearchAPI.extractAcademicData *)
(* ===================================================================== *)

Module Extractor.
Import Regex.

(** [/```(?:json)?\s*([\s\S]*?)```/] *)
Definition jsonRegex : regex :=
  seqs [lit "```"; opt (lit "json"); star ws; Group 1 (lazy_star anything); lit "```"].

Definition not_newline : regex := Cls true [CChar newline].    (* [^\n] *)

(** [/Name:\s*([^\n]+)/i], [/\*\*Name:\*\*\s*([^\n]+)/i],
    [/^([^:\n]+)(?:\n|$)/m] *)
Definition namePatterns : list (flags * regex) :=
  [ (flag_i, seqs [lit "Name:"; star ws; Group 1 (plus not_newline)]);
    (flag_i, seqs [lit "**Name:**"; star ws; Group 1 (plus not_newline)]);
    (flag_m, seqs [Bol; Group 1 (plus (Cls true [CChar ":"; CChar newline]));
                   Alt (Chr newline) Eol]) ].

(** The capture of the biography patterns,
    [( [^\n]+ (?: \n (?!Papers|Events|Connections|Taxonomies) .+ )* )]. *)
Definition bioBody : regex :=
  Group 1
    (Seq (plus not_newline)
       (star (seqs [Chr newline;
                    Look true (alts [lit "Papers"; lit "Events"; lit "Connections";
                                     lit "Taxonomies"]);
                    plus Any]))).

(** [/Bio(?:graphy)?:\s*(...)/i], [/\*\*Bio(?:graphy)?:\*\*\s*(...)/i],
    [/^(?:About|Background):\s*(...)/im] *)
Definition bioPatterns : list (flags * regex) :=
  [ (flag_i, seqs [lit "Bio"; opt (lit "graphy"); lit ":"; star ws; bioBody]);
    (flag_i, seqs [lit "**Bio"; opt (lit "graphy"); lit ":**"; star ws; bioBody]);
    (flag_im, seqs [Bol; Alt (lit "About") (lit "Background"); lit ":"; star ws;
                    bioBody]) ].

(** [\s*([\s\S]*?)(?=(?:A|B|C):|\n\s*\n|$)]: the body of a section, up to
    the next heading among [stops], a blank line, or the end. *)
Definition sectionBody (stops : list string) : regex :=
  seqs [star ws; Group 1 (lazy_star anything);
        Look false (alts [Seq (alts (map lit stops)) (Chr ":");
                          seqs [Chr newline; star ws; Chr newline];
                          Eol])].

(** [/Papers(?:\s*\/\s*Publications)?:.../i], [/Publications:.../i],
    [/Major Works:.../i] *)
Definition papersPatterns : list (flags * regex) :=
  let body := sectionBody ["Events"; "Connections"; "Taxonomies"] in
  [ (flag_i, seqs [lit "Papers";
                   opt (seqs [star ws; Chr "/"; star ws; lit "Publications"]);
                   lit ":"; body]);
    (flag_i, seqs [lit "Publications:"; body]);
    (flag_i, seqs [lit "Major Works:"; body]) ].

(** [/Connections:.../i], [/Influences:.../i], [/Related Academics:.../i] *)
Definition connectionsPatterns : list (flags * regex) :=
  let body := sectionBody ["Events"; "Papers"; "Taxonomies"] in
  [ (flag_i, seqs [lit "Connections:"; body]);
    (flag_i, seqs [lit "Influences:"; body]);
    (flag_i, seqs [lit "Related Academics:"; body]) ].

(** [/Taxonomies:.../i], [/Categories:.../i], [/Classifications:.../i] *)
Definition taxonomyPatterns : list (flags * regex) :=
  let body := sectionBody ["Events"; "Papers"; "Connections"] in
  [ (flag_i, seqs [lit "Taxonomies:"; body]);
    (flag_i, seqs [lit "Categories:"; body]);
    (flag_i, seqs [lit "Classifications:"; body]) ].

(** [/Events:.../i], [/Key Dates:.../i], [/Timeline:.../i] *)
Definition eventsPatterns : list (flags * regex) :=
  let body := sectionBody ["Papers"; "Connections"; "Taxonomies"] in
  [ (flag_i, seqs [lit "Events:"; body]);
    (flag_i, seqs [lit "Key Dates:"; body]);
    (flag_i, seqs [lit "Timeline:"; body]) ].

(** [/\n\s*[-*•]\s*/] *)
Definition bulletRegex : regex :=
  seqs [Chr newline; star ws; Cls false [CChar "-"; CChar "*"]; star ws].

(** [/,\s*/] *)
Definition commaRegex : regex := Seq (Chr ",") (star ws).

(** [/\((\d{4})\)/] and [/,\s*(\d{4})/] *)
Definition yearParenRegex : regex := seqs [Chr "("; Group 1 digit4; Chr ")"].
Definition yearCommaRegex : regex := seqs [Chr ","; star ws; Group 1 digit4].

(** [/with\s+([^\.]+)/i] *)
Definition coauthorsRegex : regex :=
  seqs [lit "with"; plus ws; Group 1 (plus (Cls true [CChar "."]))].

(** [/(?:,|\sand\s)/g] *)
Definition coauthorSepRegex : regex := Alt (Chr ",") (seqs [ws; lit "and"; ws]).

(** [/^\d+\.\s*/] *)
Definition ordinalRegex : regex := seqs [Bol; plus digit; Chr "."; star ws].

(** [/[-*•]?\s*(discipline|tradition|era|methodology|theme)[s]?[:\s]+(.+)/i] *)
Definition categoryRegex : regex :=
  seqs [opt (Cls false [CChar "-"; CChar "*"]); star ws;
        Group 1 (alts [lit "discipline"; lit "tradition"; lit "era";
                       lit "methodology"; lit "theme"]);
        opt (Cls false [CChar "s"]);
        plus (Cls false [CChar ":"; CSpace]);
        Group 2 (plus Any)].

(** [/,\s*([^,\d]+)$/] *)
Definition locationRegex : regex :=
  seqs [Chr ","; star ws; Group 1 (plus (Cls true [CChar ","; CDigit])); Eol].

(** [new RegExp(`,\\s*${escaped location}$`)]: the escaping makes the
    location a literal. *)
Definition locationSuffixRegex (location : string) : regex :=
  seqs [Chr ","; star ws; lit location; Eol].

(** [/\n\s*/g] *)
Definition lineBreakRegex : regex := Seq (Chr newline) (star ws).

(** [for (const pattern of patterns) { const m = text.match(pattern);
    if (m && m[1].trim()) { ...; break; } }]: the first capture whose
    trimmed text is not empty. *)
Fixpoint first_capture (patterns : list (flags * regex)) (text : string) : option string :=
  match patterns with
  | [] => None
  | (fl, r) :: rest =>
      match search fl r text with
      | Some f =>
          if JS.truthy (JS.trim (group 1 f)) then Some (group 1 f)
          else first_capture rest text
      | None => first_capture rest text
      end
  end.

(** [item.match(/\((\d{4})\)/) || item.match(/,\s*(\d{4})/)], then
    [year || 0]. *)
Definition item_year (item : string) : Z :=
  match search no_flags yearParenRegex item with
  | Some f => JS.parseInt (group 1 f)
  | None =>
      match search no_flags yearCommaRegex item with
      | Some f => JS.parseInt (group 1 f)
      | None => 0%Z
      end
  end.

(** [item.replace(/\(\d{4}\)/, '').replace(/,\s*\d{4}/, '').trim()] *)
Definition strip_year (item : string) : string :=
  JS.trim (replace no_flags (seqs [Chr ","; star ws; digit4]) ""
             (replace no_flags (seqs [Chr "("; digit4; Chr ")"]) "" item)).

Definition paper_of_item (item : string) : Paper.t :=
  let title := strip_year item in
  match search flag_i coauthorsRegex title with
  | Some f =>
      Paper.mk (JS.trim (replace flag_i coauthorsRegex "" title))
        (Some (item_year item))
        (List.filter JS.truthy (map JS.trim (split no_flags coauthorSepRegex (group 1 f))))
  | None => Paper.mk title (Some (item_year item)) []
  end.

Definition event_of_item (item : string) : Event.t :=
  let location :=
    match search no_flags locationRegex item with
    | Some f => JS.trim (group 1 f)
    | None => EmptyString
    end in
  let title := strip_year item in
  let title :=
    if JS.truthy location
    then JS.trim (replace no_flags (locationSuffixRegex location) "" title)
    else title in
  Event.mk title (Some (item_year item)) location.

(** The items of a list section that are kept: not blank, and not the
    heading [skip]. *)
Definition kept_items (skip : string) (items : list string) : list string :=
  List.filter (fun item => JS.truthy (JS.trim item)
                           && negb (JS.startsWith (JS.trim item) skip)) items.

Definition extract_papers (text : string) : list Paper.t :=
  match first_capture papersPatterns text with
  | Some body =>
      map paper_of_item
        (kept_items "Publications:" (split no_flags bulletRegex (JS.trim body)))
  | None => []
  end.

Definition extract_events (text : string) : list Event.t :=
  match first_capture eventsPatterns text with
  | Some body =>
      map event_of_item
        (kept_items "Events:" (split no_flags bulletRegex (JS.trim body)))
  | None => []
  end.

Definition extract_connections (text : string) : list string :=
  match first_capture connectionsPatterns text with
  | Some body =>
      let connectionsText := JS.trim body in
      let connectionItems :=
        if JS.includes connectionsText "-" || JS.includes connectionsText "*"
        then split no_flags bulletRegex connectionsText
        else split no_flags commaRegex connectionsText in
      map (fun item => replace no_flags ordinalRegex "" (JS.trim item))
        (kept_items "Connections:" connectionItems)
  | None => []
  end.

(** [if (!t[category]) t[category] = []; t[category].push(...values)] *)
Definition push_values (category : string) (values : list string)
    (t : list (string * list string)) : list (string * list string) :=
  match JS.obj_get category t with
  | Some old => JS.obj_set category (old ++ values) t
  | None => JS.obj_set category ([] ++ values) t
  end.

Definition taxonomy_line (t : list (string * list string)) (line : string)
  : list (string * list string) :=
  match search flag_i categoryRegex line with
  | Some f =>
      push_values (JS.toLowerCase (group 1 f))
        (map JS.trim (split no_flags commaRegex (group 2 f))) t
  | None => t
  end.

Definition extract_taxonomies (text : string) : list (string * list string) :=
  match first_capture taxonomyPatterns text with
  | Some body => fold_left taxonomy_line (JS.split_char newline (JS.trim body)) []
  | None => []
  end.

Definition extract_name (text : string) : string :=
  match first_capture namePatterns text with
  | Some n => JS.trim n
  | None => EmptyString
  end.

Definition extract_bio (text : string) : string :=
  match first_capture bioPatterns text with
  | Some b => replace_all no_flags lineBreakRegex " " (JS.trim b)
  | None => EmptyString
  end.

(** The section-based parsing that follows the JSON attempt. *)
Definition extract_sections (text : string) : option Academic :=
  let n := extract_name text in
  if negb (JS.truthy n) then None
  else Some {| name := n;
               bio := Some (extract_bio text);
               taxonomies := Some (extract_taxonomies text);
               papers := Some (extract_papers text);
               events := Some (extract_events text);
               connections := Some (extract_connections text) |}.

Section Extract.
  (** [JSON.parse] on the trimmed content of a fenced block, read as a
      record: [Some a] when the text parses to a value whose [name] can be
      read ([name a] is empty when that property is absent or falsy),
      [None] when parsing throws or yields [null]. *)
  Variable JSON_parse : string -> option Academic.

  (** The fenced-block attempt: the parsed object when it has a name. *)
Definition extract_json (text : string) : option Academic :=
    match search no_flags jsonRegex text with
    | Some f =>
        if JS.truthy (group 1 f)
        then match JSON_parse (JS.trim (group 1 f)) with
             | Some jsonData => if JS.truthy (name jsonData) then Some jsonData else None
             | None => None
             end
        else None
    | None => None
    end.

  (** [extractAcademicData(text)]; [None] is [null]. *)
Definition extractAcademicData (text : string) : option Academic :=
    if negb (JS.truthy text) || negb (JS.includes text "name")
       || negb (JS.includes text "bio")
    then None
    else match extract_json text with
         | Some jsonData => Some jsonData
         | None => extract_sections text
         end.
End Extract.

End Extractor.

(* ===================================================================== *)
(** ** Persisted texts and the Web Storage interface *)
(* ===================================================================== *)

(** [{academicName, type, ...payload}] *)
Record Submission : Type :=
  mkSubmission { academicName : string; submissionType : string;
                 payload : list (string * string) }.

(** The values that the program serialises.  A catalog is an object whose
    values are academic records; the three auxiliary collections are
    arrays; an export document is [{academics, taxonomyCategories,
    exportDate}] with its first two properties possibly absent. *)
Inductive jvalue : Type :=
| JCatalog (c : list (string * Academic))
| JTiles (l : list Tile.t)
| JStrings (l : list string)
| JSubmissions (l : list Submission)
| JExport (academics : option (list (string * Academic)))
          (taxonomyCategories : option (list (string * list string)))
          (exportDate : string)
| JNull
| JNumber (z : Z)
| JString (s : string)
| JBool (b : bool).

(** A text: [Json v] is the text [JSON.stringify(v)] (with any
    indentation), [Raw s] is a string [s] that [JSON.parse] rejects. *)
Inductive text : Type :=
| Json (v : jvalue)
| Raw (s : string).

(** Truthiness of a text as a string. *)
Definition text_truthy (t : text) : bool :=
  match t with
  | Json _ => true
  | Raw s => JS.truthy s
  end.

(** [v && typeof v === 'object'] *)
Definition is_object (v : jvalue) : bool :=
  match v with
  | JCatalog _ | JTiles _ | JStrings _ | JSubmissions _ | JExport _ _ _ => true
  | JNull | JNumber _ | JString _ | JBool _ => false
  end.

Inductive exn : Type :=
| QuotaExceededError
| OtherError.

(** [localStorage]: [getItem] answers [None] for [null]; [setItem] yields
    the storage after the call and the exception it threw, if any. *)
Class WebStorage (S : Type) : Type := {
  getItem : string -> S -> option text;
  setItem : string -> text -> S -> S * option exn
}.

(** The contract of a working storage: a [setItem] that returns has
    stored its value and has touched no other key. *)
Class LawfulStorage (S : Type) `{WebStorage S} : Prop := {
  getItem_setItem :
    forall k v s s', setItem k v s = (s', None) ->
      forall k', getItem k' s' = if String.eqb k' k then Some v else getItem k' s
}.

Definition ACADEMICS : string := "killphilosophy_academics".
Definition ACADEMICS_BACKUP : string := "killphilosophy_academics_backup".
Definition NOVELTY_TILES : string := "killphilosophy_noveltyTiles".
Definition FAVORITES : string := "killphilosophy_favorites".
Definition PENDING_SUBMISSIONS : string := "killphilosophy_pendingSubmissions".

(* ===================================================================== *)
(** ** DatabaseManager *)
(* ===================================================================== *)

(** A reference to an academic record in the object store. *)
Abbreviation ref := nat (only parsing).

(** What property reads yield on a missing object. *)
Definition no_academic : Academic := mkAcademic EmptyString None None None None None.

Definition deref (h : list Academic) (r : ref) : Academic :=
  match h !! r with
  | Some a => a
  | None => no_academic
  end.

(** The manager's fields, the object store of the records they refer to,
    the storage, and the number of clock readings taken so far. *)
Record state (S : Type) : Type := mkState {
  heap : list Academic;
  academics : list (string * ref);
  noveltyTiles : list Tile.t;
  favorites : list string;
  pendingSubmissions : list Submission;
  taxonomyCategories : list (string * list string);
  localStorageSupported : bool;
  localStorage : S;
  ticks : nat
}.

Arguments mkState {S}.
Arguments heap {S}.
Arguments academics {S}.
Arguments noveltyTiles {S}.
Arguments favorites {S}.
Arguments pendingSubmissions {S}.
Arguments taxonomyCategories {S}.
Arguments localStorageSupported {S}.
Arguments localStorage {S}.
Arguments ticks {S}.

Section Setters.
  Context {S : Type}.
  Implicit Type st : state S.

Definition set_heap (h : list Academic) st : state S :=
    mkState h (academics st) (noveltyTiles st) (favorites st) (pendingSubmissions st)
      (taxonomyCategories st) (localStorageSupported st) (localStorage st) (ticks st).
Definition set_academics (c : list (string * ref)) st : state S :=
    mkState (heap st) c (noveltyTiles st) (favorites st) (pendingSubmissions st)
      (taxonomyCategories st) (localStorageSupported st) (localStorage st) (ticks st).
Definition set_noveltyTiles (l : list Tile.t) st : state S :=
    mkState (heap st) (academics st) l (favorites st) (pendingSubmissions st)
      (taxonomyCategories st) (localStorageSupported st) (localStorage st) (ticks st).
Definition set_taxonomyCategories (t : list (string * list string)) st : state S :=
    mkState (heap st) (academics st) (noveltyTiles st) (favorites st)
      (pendingSubmissions st) t (localStorageSupported st) (localStorage st) (ticks st).
Definition set_localStorage (ls : S) st : state S :=
    mkState (heap st) (academics st) (noveltyTiles st) (favorites st)
      (pendingSubmissions st) (taxonomyCategories st) (localStorageSupported st) ls
      (ticks st).
Definition set_ticks (n : nat) st : state S :=
    mkState (heap st) (academics st) (noveltyTiles st) (favorites st)
      (pendingSubmissions st) (taxonomyCategories st) (localStorageSupported st)
      (localStorage st) n.

  (** [JSON.stringify(this.academics)] serialises the records the catalog
      refers to. *)
Definition snapshot st : list (string * Academic) :=
    map (fun kr => (fst kr, deref (heap st) (snd kr))) (academics st).

  (** [this.academics = parsed]: the parsed object holds fresh records. *)
Definition assign_academics (c : list (string * Academic)) st : state S :=
    set_academics (combine (map fst c) (seq (length (heap st)) (length c)))
      (set_heap (heap st ++ map snd c) st).
End Setters.

(** [/\s+/g] and [/[^\w-]/g] *)
Definition spacesRegex : Regex.regex := Regex.plus Regex.ws.
Definition nonKeyRegex : Regex.regex :=
  Regex.Cls true [Regex.CWord; Regex.CChar "-"].

(** [_normalizeNameKey(name)] *)
Definition _normalizeNameKey (name : string) : string :=
  if negb (JS.truthy name) then EmptyString
  else Regex.replace_all Regex.no_flags nonKeyRegex ""
         (Regex.replace_all Regex.no_flags spacesRegex "-" (JS.toLowerCase name)).

(** Setters of the properties of a record. *)
Definition set_bio (b : option string) (x : Academic) : Academic :=
  mkAcademic (name x) b (taxonomies x) (papers x) (events x) (connections x).
Definition set_taxonomies (t : option (list (string * list string))) (x : Academic) : Academic :=
  mkAcademic (name x) (bio x) t (papers x) (events x) (connections x).
Definition set_papers (p : option (list Paper.t)) (x : Academic) : Academic :=
  mkAcademic (name x) (bio x) (taxonomies x) p (events x) (connections x).
Definition set_events (e : option (list Event.t)) (x : Academic) : Academic :=
  mkAcademic (name x) (bio x) (taxonomies x) (papers x) e (connections x).
Definition set_connections (c : option (list string)) (x : Academic) : Academic :=
  mkAcademic (name x) (bio x) (taxonomies x) (papers x) (events x) c.

Definition taxonomies_of (x : Academic) : list (string * list string) :=
  match taxonomies x with Some t => t | None => [] end.
Definition papers_of (x : Academic) : list Paper.t :=
  match papers x with Some l => l | None => [] end.
Definition events_of (x : Academic) : list Event.t :=
  match events x with Some l => l | None => [] end.
Definition connections_of (x : Academic) : list string :=
  match connections x with Some l => l | None => [] end.

(** [xs.includes(v)] on an array of strings *)
Definition array_includes (v : string) (xs : list string) : bool :=
  existsb (String.eqb v) xs.

(** [x.taxonomies[category] = values] *)
Definition set_category (category : string) (values : list string) (x : Academic) : Academic :=
  set_taxonomies (Some (JS.obj_set category values (taxonomies_of x))) x.

(** [x.taxonomies[category].push(value)] *)
Definition push_value (category value : string) (x : Academic) : Academic :=
  match JS.obj_get category (taxonomies_of x) with
  | Some values => set_category category (values ++ [value]) x
  | None => x
  end.

Definition push_paper (p : Paper.t) (x : Academic) : Academic :=
  set_papers (Some (papers_of x ++ [p])) x.
Definition push_event (e : Event.t) (x : Academic) : Academic :=
  set_events (Some (events_of x ++ [e])) x.
Definition push_connection (c : string) (x : Academic) : Academic :=
  set_connections (Some (connections_of x ++ [c])) x.

(** [p.title.toLowerCase() === paper.title.toLowerCase() &&
     (!p.year || !paper.year || p.year === paper.year)] *)
Definition same_paper (paper p : Paper.t) : bool :=
  String.eqb (JS.toLowerCase (Paper.title p)) (JS.toLowerCase (Paper.title paper))
  && (negb (year_truthy (Paper.year p)) || negb (year_truthy (Paper.year paper))
      || year_eqb (Paper.year p) (Paper.year paper)).

Definition same_event (event e : Event.t) : bool :=
  String.eqb (JS.toLowerCase (Event.title e)) (JS.toLowerCase (Event.title event))
  && (negb (year_truthy (Event.year e)) || negb (year_truthy (Event.year event))
      || year_eqb (Event.year e) (Event.year event)).

(** The merge of the candidate [r] into the stored record [e], property
    by property.  Every step reads the two objects in the store as it is
    then, so a candidate that is the stored record itself is read after
    each write.  A [forEach] runs over the elements its array had when the
    loop began, and [for ... in] over the keys its object had. *)
Section Merge.
  Variables (r e : ref).

Definition merge_bio (h : list Academic) : list Academic :=
    let academic := deref h r in
    let existing := deref h e in
    if opt_truthy (bio academic) && negb (opt_string_eqb (bio academic) (bio existing))
    then alter (set_bio (bio academic)) e h
    else h.

Definition merge_value (category : string) (h : list Academic) (value : string)
    : list Academic :=
    match JS.obj_get category (taxonomies_of (deref h e)) with
    | Some values =>
        if array_includes value values then h
        else alter (push_value category value) e h
    | None => h
    end.

Definition merge_category (h : list Academic) (category : string) : list Academic :=
    let h1 :=
      match JS.obj_get category (taxonomies_of (deref h e)) with
      | Some _ => h
      | None => alter (set_category category []) e h
      end in
    match JS.obj_get category (taxonomies_of (deref h1 r)) with
    | Some values => fold_left (merge_value category) values h1
    | None => h1
    end.

Definition merge_taxonomies (h : list Academic) : list Academic :=
    match taxonomies (deref h r) with
    | Some t =>
        let h1 :=
          match taxonomies (deref h e) with
          | Some _ => h
          | None => alter (set_taxonomies (Some [])) e h
          end in
        fold_left merge_category (JS.obj_keys t) h1
    | None => h
    end.

Definition merge_paper (h : list Academic) (paper : Paper.t) : list Academic :=
    if existsb (same_paper paper) (papers_of (deref h e)) then h
    else alter (push_paper paper) e h.

Definition merge_papers (h : list Academic) : list Academic :=
    match papers (deref h r) with
    | Some (_ :: _) =>
        let h1 :=
          match papers (deref h e) with
          | Some _ => h
          | None => alter (set_papers (Some [])) e h
          end in
        fold_left merge_paper (papers_of (deref h1 r)) h1
    | _ => h
    end.

Definition merge_event (h : list Academic) (event : Event.t) : list Academic :=
    if existsb (same_event event) (events_of (deref h e)) then h
    else alter (push_event event) e h.

Definition merge_events (h : list Academic) : list Academic :=
    match events (deref h r) with
    | Some (_ :: _) =>
        let h1 :=
          match events (deref h e) with
          | Some _ => h
          | None => alter (set_events (Some [])) e h
          end in
        fold_left merge_event (events_of (deref h1 r)) h1
    | _ => h
    end.

Definition merge_connection (h : list Academic) (connection : string) : list Academic :=
    if array_includes connection (connections_of (deref h e)) then h
    else alter (push_connection connection) e h.

Definition merge_connections (h : list Academic) : list Academic :=
    match connections (deref h r) with
    | Some (_ :: _) =>
        let h1 :=
          match connections (deref h e) with
          | Some _ => h
          | None => alter (set_connections (Some [])) e h
          end in
        fold_left merge_connection (connections_of (deref h1 r)) h1
    | _ => h
    end.

Definition merge_into (h : list Academic) : list Academic :=
    merge_connections (merge_events (merge_papers (merge_taxonomies (merge_bio h)))).
End Merge.

(** Decimal rendering of a count in a template string. *)
Definition string_of_nat (n : nat) : string :=
  NilEmpty.string_of_uint (Nat.to_uint n).

Section Manager.
  Context {S : Type} `{WebStorage S}.

  (** [new Date().toISOString()] at the n-th reading of the clock. *)
  Variable clock : nat -> string.
  (** [new Date(s)] as a number; [None] is NaN. *)
  Variable Date_parse : string -> option Z.
  (** [a.localeCompare(b)] *)
  Variable localeCompare : string -> string -> Z.

  Implicit Type st : state S.

Definition now st : string * state S :=
    (clock (ticks st), set_ticks (Datatypes.S (ticks st)) st).

  (** [localStorage.setItem(k, v)] on the storage of the state. *)
Definition write (k : string) (v : text) st : state S * option exn :=
    let (ls, thrown) := setItem k v (localStorage st) in
    (set_localStorage ls st, thrown).

Definition date_value (d : option string) : option Z :=
    match d with
    | Some s => Date_parse s
    | None => None
    end.

  (** [(a, b) => new Date(b.date) - new Date(a.date)] *)
Definition by_date_desc (a b : Tile.t) : Z :=
    match date_value (Tile.date b), date_value (Tile.date a) with
    | Some x, Some y => (x - y)%Z
    | _, _ => 0%Z
    end.

  (** [[...tiles].sort(...).slice(0, n)] *)
Definition most_recent (n : nat) (tiles : list Tile.t) : list Tile.t :=
    firstn n (JS.sort by_date_desc tiles).

  (** [_createBackup()] *)
Definition _createBackup st : state S :=
    if negb (localStorageSupported st) then st
    else match getItem ACADEMICS (localStorage st) with
         | Some currentData =>
             if text_truthy currentData
             then fst (write ACADEMICS_BACKUP currentData st)
             else st
         | None => st
         end.

  (** [_restoreFromBackup()].  The program writes nothing but catalogs under
    the two academics keys, and a catalog is the only object that this
    model reads there.  An array or an export document in the backup slot,
    which the program would assign to [this.academics], has no reading as
    a catalog of records and is left where it is; [catalog_slot] marks
    the slots where this reading is the program's. *)
Definition _restoreFromBackup st : bool * state S :=
    if negb (localStorageSupported st) then (false, st)
    else match getItem ACADEMICS_BACKUP (localStorage st) with
         | None => (false, st)
         | Some backup =>
             if negb (text_truthy backup) then (false, st)
             else match backup with
                  | Raw _ => (false, st)
                  | Json (JCatalog backupData) =>
                      let st1 := assign_academics backupData st in
                      match write ACADEMICS backup st1 with
                      | (st2, None) => (true, st2)
                      | (st2, Some _) => (false, st2)
                      end
                  | Json _ => (false, st)
                  end
         end.

  (** The four writes of [saveToLocalStorage], up to the first that
      throws. *)
Definition save_writes st : state S * option exn :=
    match write ACADEMICS (Json (JCatalog (snapshot st))) st with
    | (st1, Some x) => (st1, Some x)
    | (st1, None) =>
        let recentTiles := most_recent 50 (noveltyTiles st1) in
        match write NOVELTY_TILES (Json (JTiles recentTiles)) st1 with
        | (st2, Some x) => (st2, Some x)
        | (st2, None) =>
            match write FAVORITES (Json (JStrings (favorites st2))) st2 with
            | (st3, Some x) => (st3, Some x)
            | (st3, None) =>
                write PENDING_SUBMISSIONS
                  (Json (JSubmissions (pendingSubmissions st3))) st3
            end
        end
    end.

  (** The read-back of the academics slot: [JSON.parse] of the stored
      text is an object. *)
Definition verified st : bool :=
    match getItem ACADEMICS (localStorage st) with
    | Some (Json parsed) => is_object parsed
    | Some (Raw _) => false
    | None => false
    end.

  (** The handler of [QuotaExceededError]. *)
Definition free_space st : bool * state S :=
    let trimmed :=
      if 20 <? length (noveltyTiles st)
      then let st1 := set_noveltyTiles (most_recent 20 (noveltyTiles st)) st in
           write NOVELTY_TILES (Json (JTiles (noveltyTiles st1))) st1
      else (st, None) in
    match trimmed with
    | (st2, Some _) => (false, st2)
    | (st2, None) =>
        match write ACADEMICS (Json (JCatalog (snapshot st2))) st2 with
        | (st3, None) => (true, st3)
        | (st3, Some _) => (false, st3)
        end
    end.

  (** [saveToLocalStorage()] *)
Definition saveToLocalStorage st : bool * state S :=
    if negb (localStorageSupported st) then (false, st)
    else match save_writes (_createBackup st) with
         | (st1, None) =>
             if verified st1 then (true, st1)
             else (false, snd (_restoreFromBackup st1))
         | (st1, Some QuotaExceededError) => free_space st1
         | (st1, Some OtherError) => (false, st1)
         end.

  (** [addNoveltyTile(tile)] *)
Definition addNoveltyTile (tile : Tile.t) st : bool * state S :=
    if negb (JS.truthy (Tile.title tile)) then (false, st)
    else
      let (tile1, st1) :=
        if opt_truthy (Tile.date tile) then (tile, st)
        else let (d, st') := now st in
             (Tile.mk (Tile.title tile) (Tile.content tile) (Some d) (Tile.type tile), st') in
      let tiles := tile1 :: noveltyTiles st1 in
      let tiles := if 100 <? length tiles then firstn 100 tiles else tiles in
      (true, snd (saveToLocalStorage (set_noveltyTiles tiles st1))).

  (** [getAcademic(name)].  The catalog is read by its own properties; the
      two keys under which the program also finds a property of the
      prototype are those of [inherited_key]. *)
Definition getAcademic (name_ : string) st : option ref :=
    if negb (JS.truthy name_) then None
    else match JS.obj_get (_normalizeNameKey name_) (academics st) with
         | Some r => Some r
         | None =>
             let lowerName := JS.toLowerCase name_ in
             let lower r := JS.toLowerCase (name (deref (heap st) r)) in
             match find (fun r => String.eqb (lower r) lowerName)
                        (JS.obj_values (academics st)) with
             | Some r => Some r
             | None =>
                 find (fun r => JS.includes (lower r) lowerName
                                || JS.includes lowerName (lower r))
                      (JS.obj_values (academics st))
             end
         end.

  (** A supplied criterion: a property of [criteria] with a truthy value. *)
Definition criterion (criteria : list (string * string)) (field : string) : option string :=
    match JS.obj_get field criteria with
    | Some v => if JS.truthy v then Some v else None
    | None => None
    end.

Definition taxonomyFields : list string :=
    ["discipline"; "tradition"; "era"; "methodology"; "theme"].

  (** One round of the loop over [taxonomyFields]. *)
Definition field_matches (criteria : list (string * string)) (academic : Academic)
      (match_ : bool) (field : string) : bool :=
    match criterion criteria field with
    | Some v =>
        let criteriaValue := JS.toLowerCase v in
        match JS.obj_get field (taxonomies_of academic) with
        | None => false
        | Some values =>
            if existsb (fun value =>
                          JS.includes (JS.toLowerCase value) criteriaValue
                          || JS.includes criteriaValue (JS.toLowerCase value)) values
            then match_ else false
        end
    | None => match_
    end.

  (** The value of [match] at the end of the loop body of
      [searchAcademics]. *)
Definition matches (criteria : list (string * string)) (academic : Academic) : bool :=
    let nameMatch :=
      match criterion criteria "name" with
      | Some q => JS.includes (JS.toLowerCase (name academic)) (JS.toLowerCase q)
      | None => true
      end in
    fold_left (field_matches criteria academic) taxonomyFields nameMatch.

  (** The comparator of the relevance sort. *)
Definition by_relevance (nameQuery : string) (a b : Academic) : Z :=
    let aNameMatch := String.eqb (JS.toLowerCase (name a)) nameQuery in
    let bNameMatch := String.eqb (JS.toLowerCase (name b)) nameQuery in
    if aNameMatch && negb bNameMatch then (-1)%Z
    else if negb aNameMatch && bNameMatch then 1%Z
    else
      let aNameIndex := JS.indexOf (JS.toLowerCase (name a)) nameQuery in
      let bNameIndex := JS.indexOf (JS.toLowerCase (name b)) nameQuery in
      if negb (aNameIndex =? -1)%Z && negb (bNameIndex =? -1)%Z
      then (aNameIndex - bNameIndex)%Z
      else localeCompare (name a) (name b).

  (** [searchAcademics(criteria)]: the matching records, as references. *)
Definition searchAcademics (criteria : list (string * string)) st : list ref :=
    let results :=
      List.filter (fun r => matches criteria (deref (heap st) r))
        (JS.obj_values (academics st)) in
    match criterion criteria "name" with
    | Some q =>
        JS.sort (fun a b => by_relevance (JS.toLowerCase q)
                              (deref (heap st) a) (deref (heap st) b)) results
    | None => results
    end.

  (** [addOrUpdateAcademic(academic)], the candidate being the object
      [r]; a reference to no object stands for [null].  The catalog is read
      by its own properties, as in [getAcademic]. *)
Definition addOrUpdateAcademic (r : ref) st : bool * state S :=
    let academic := deref (heap st) r in
    if negb (JS.truthy (name academic)) then (false, st)
    else
      let key := _normalizeNameKey (name academic) in
      let st1 :=
        match JS.obj_get key (academics st) with
        | Some existing => set_heap (merge_into r existing (heap st)) st
        | None =>
            let st' := set_academics (JS.obj_set key r (academics st)) st in
            let (d, st'') := now st' in
            snd (addNoveltyTile
                   (Tile.mk ("New Academic: " ++ name academic)
                      (name academic ++ " has been added to the database.")
                      (Some d) "academic") st'')
        end in
      (true, snd (saveToLocalStorage st1)).

  (** [exportToJSON()] *)
Definition exportToJSON st : text * state S :=
    let (d, st1) := now st in
    (Json (JExport (Some (snapshot st1)) (Some (taxonomyCategories st1)) d), st1).

  (** [importFromJSON(jsonData)].  Among the values of this model only an
      export document has an [academics] property. *)
Definition importFromJSON (jsonData : text) st : bool * state S :=
    match jsonData with
    | Json (JExport (Some imported) importedCategories _) =>
        let backupAcademics := academics st in
        let st1 := assign_academics imported st in
        let st2 :=
          match importedCategories with
          | Some t => set_taxonomyCategories t st1
          | None => st1
          end in
        let (saveSuccess, st3) := saveToLocalStorage st2 in
        if negb saveSuccess then (false, set_academics backupAcademics st3)
        else
          let (d, st4) := now st3 in
          (true,
           snd (addNoveltyTile
                  (Tile.mk "Database Import"
                     ("Database imported with " ++ string_of_nat (length imported)
                        ++ " academics.")
                     (Some d) "system") st4))
    | _ => (false, st)
    end.

  (** One round of the loop over the connections in
      [DeepSearchAPI.enrichDatabase]: [academicData] is the object [r]. *)
Definition enrich_connection (r : ref) st (connection : string) : state S :=
    match getAcademic connection st with
    | Some connected =>
        let st1 :=
          match connections (deref (heap st) connected) with
          | Some _ => st
          | None => set_heap (alter (set_connections (Some [])) connected (heap st)) st
          end in
        let academicName := name (deref (heap st1) r) in
        if array_includes academicName (connections_of (deref (heap st1) connected))
        then st1
        else
          let st2 :=
            set_heap (alter (push_connection academicName) connected (heap st1)) st1 in
          let st3 := snd (addOrUpdateAcademic connected st2) in
          let connectedName := name (deref (heap st3) connected) in
          let (d, st4) := now st3 in
          snd (addNoveltyTile
                 (Tile.mk ("New Connection: " ++ connectedName ++ " → "
                             ++ name (deref (heap st4) r))
                    ("A connection between " ++ connectedName ++ " and "
                       ++ name (deref (heap st4) r) ++ " has been established.")
                    (Some d) "connection") st4)
    | None => st
    end.

  (** [DeepSearchAPI.enrichDatabase(academicData)], with the database
      manager available; the messages shown in the page are left out. *)
Definition enrichDatabase (r : ref) st : bool * state S :=
    if negb (JS.truthy (name (deref (heap st) r))) then (false, st)
    else
      let (success, st1) := addOrUpdateAcademic r st in
      if success then
        let academicName := name (deref (heap st1) r) in
        let (d, st2) := now st1 in
        let st3 :=
          snd (addNoveltyTile
                 (Tile.mk ("Database Enriched: " ++ academicName)
                    ("New information about " ++ academicName
                       ++ " has been added to the database from DeepSearch.")
                    (Some d) "academic") st2) in
        match connections (deref (heap st3) r) with
        | Some (c :: cs) => (true, fold_left (enrich_connection r) (c :: cs) st3)
        | _ => (true, st3)
        end
      else (false, st1).
End Manager.

(* ===================================================================== *)
(** ** Instances of the runtime services, for running the model *)
(* ===================================================================== *)

(** A measure of the length of a serialised value. *)
Module Size.
Definition str (s : string) : nat := 2 + String.length s.
Definition strs (l : list string) : nat := fold_right (fun s n => 1 + str s + n) 2 l.
Definition opt {A : Type} (f : A -> nat) (o : option A) : nat :=
    match o with Some a => f a | None => 0 end.
Definition year (y : option Z) : nat := opt (fun _ => 4) y.
Definition paper (p : Paper.t) : nat :=
    30 + str (Paper.title p) + year (Paper.year p) + strs (Paper.coauthors p).
Definition event (e : Event.t) : nat :=
    30 + str (Event.title e) + year (Event.year e) + str (Event.location e).
Definition tile (t : Tile.t) : nat :=
    35 + str (Tile.title t) + str (Tile.content t) + opt str (Tile.date t)
    + str (Tile.type t).
Definition list_of {A : Type} (f : A -> nat) (l : list A) : nat :=
    fold_right (fun a n => 1 + f a + n) 2 l.
Definition object {A : Type} (f : A -> nat) (o : list (string * A)) : nat :=
    list_of (fun kv => str (fst kv) + 1 + f (snd kv)) o.
Definition academic (a : Academic) : nat :=
    70 + str (name a) + opt str (bio a) + opt (object strs) (taxonomies a)
    + opt (list_of paper) (papers a) + opt (list_of event) (events a)
    + opt strs (connections a).
Definition submission (s : Submission) : nat :=
    30 + str (academicName s) + str (submissionType s) + object str (payload s).
Definition value (v : jvalue) : nat :=
    match v with
    | JCatalog c => object academic c
    | JTiles l => list_of tile l
    | JStrings l => strs l
    | JSubmissions l => list_of submission l
    | JExport a t d => 50 + opt (object academic) a + opt (object strs) t + str d
    | JNull => 4
    | JNumber _ => 8
    | JString s => str s
    | JBool _ => 5
    end.
Definition of_text (t : text) : nat :=
    match t with
    | Json v => value v
    | Raw s => String.length s
    end.
End Size.

(** A storage of bounded capacity: [setItem] throws [QuotaExceededError],
    and stores nothing, when the keys and values would exceed the
    capacity. *)
Module QuotaStorage.
Record t : Type := mk { slots : list (string * text); capacity : nat }.

Definition used (o : list (string * text)) : nat :=
    fold_right (fun kv n => String.length (fst kv) + Size.of_text (snd kv) + n) 0 o.

Definition get (k : string) (s : t) : option text := JS.obj_get k (slots s).

Definition set (k : string) (v : text) (s : t) : t * option exn :=
    let slots' := JS.obj_set k v (slots s) in
    if used slots' <=? capacity s then (mk slots' (capacity s), None)
    else (s, Some QuotaExceededError).

#[global] Instance storage : WebStorage t := {| getItem := get; setItem := set |}.
End QuotaStorage.

(** A storage that silently cuts a value longer than [limit] down to its
    first character, which is not a JSON text; it never throws. *)
Module LossyStorage.
Record t : Type := mk { slots : list (string * text); limit : nat }.

Definition cut (v : text) : text :=
    match v with
    | Json (JCatalog _) | Json (JExport _ _ _) => Raw "{"
    | Json (JTiles _) | Json (JStrings _) | Json (JSubmissions _) => Raw "["
    | Json (JString _) => Raw (String (ascii_of_nat 34) EmptyString)
    | Json JNull => Raw "n"
    | Json (JNumber _) => Raw "-"
    | Json (JBool _) => Raw "t"
    | Raw s => Raw (String.substring 0 1 s)
    end.

Definition get (k : string) (s : t) : option text := JS.obj_get k (slots s).

Definition set (k : string) (v : text) (s : t) : t * option exn :=
    let stored := if Size.of_text v <=? limit s then v else cut v in
    (mk (JS.obj_set k stored (slots s)) (limit s), None).

#[global] Instance storage : WebStorage t := {| getItem := get; setItem := set |}.
End LossyStorage.

(** A storage without a bound: [setItem] never throws. *)
Module PlainStorage.
Definition t : Type := list (string * text).

Definition get (k : string) (s : t) : option text := JS.obj_get k s.

Definition set (k : string) (v : text) (s : t) : t * option exn :=
    (JS.obj_set k v s, None).

#[global] Instance storage : WebStorage t := {| getItem := get; setItem := set |}.
End PlainStorage.

(** [Date] on the timestamps that [toISOString] writes,
    [YYYY-MM-DDTHH:mm:ss.sssZ]: milliseconds since the epoch; any other
    string is read as an invalid date. *)
Module IsoDate.
Definition digits (s : string) (from len : nat) : option Z :=
    let d := String.substring from len s in
    if (String.length d =? len) && forallb JS.is_digit (list_ascii_of_string d)
    then Some (JS.parseInt d) else None.

Definition sep (s : string) (at_ : nat) (c : string) : bool :=
    String.eqb (String.substring at_ 1 s) c.

Definition days_from_civil (y m d : Z) : Z :=
    let y := if (m <=? 2)%Z then (y - 1)%Z else y in
    let era := (y / 400)%Z in
    let yoe := (y - era * 400)%Z in
    let doy := ((153 * (if (2 <? m)%Z then m - 3 else m + 9) + 2) / 5 + d - 1)%Z in
    let doe := (yoe * 365 + yoe / 4 - yoe / 100 + doy)%Z in
    (era * 146097 + doe - 719468)%Z.

Definition parse (s : string) : option Z :=
    if (String.length s =? 24) && sep s 4 "-" && sep s 7 "-" && sep s 10 "T"
       && sep s 13 ":" && sep s 16 ":" && sep s 19 "." && sep s 23 "Z"
    then
      match digits s 0 4, digits s 5 2, digits s 8 2,
            digits s 11 2, digits s 14 2, digits s 17 2, digits s 20 3 with
      | Some y, Some mo, Some d, Some h, Some mi, Some se, Some ms =>
          if (1 <=? mo)%Z && (mo <=? 12)%Z && (1 <=? d)%Z && (d <=? 31)%Z
             && (h <=? 23)%Z && (mi <=? 59)%Z && (se <=? 59)%Z
          then Some ((((days_from_civil y mo d * 24 + h) * 60 + mi) * 60 + se) * 1000
                     + ms)%Z
          else None
      | _, _, _, _, _, _, _ => None
      end
    else None.
End IsoDate.

(** Comparison of ASCII strings by character codes, as a
    [localeCompare]. *)
Definition ascii_compare (a b : string) : Z :=
  match String.compare a b with
  | Lt => (-1)%Z
  | Eq => 0%Z
  | Gt => 1%Z
  end.

(** A clock that stands still. *)
Definition frozen_clock (n : nat) : string := "2025-01-01T00:00:00.000Z".

(* ===================================================================== *)
(** ** Vocabulary of the statements *)
(* ===================================================================== *)

(** Two states that differ at most in the storage. *)
Definition only_storage {S : Type} (st st' : state S) : Prop :=
  heap st' = heap st /\ academics st' = academics st
  /\ noveltyTiles st' = noveltyTiles st /\ favorites st' = favorites st
  /\ pendingSubmissions st' = pendingSubmissions st
  /\ taxonomyCategories st' = taxonomyCategories st
  /\ localStorageSupported st' = localStorageSupported st
  /\ ticks st' = ticks st.

(** The tile as [addNoveltyTile] stores it: a missing date is the reading
    of the clock at the call. *)
Definition dated (clock : nat -> string) {S : Type} (st : state S) (tile : Tile.t) : Tile.t :=
  if opt_truthy (Tile.date tile) then tile
  else Tile.mk (Tile.title tile) (Tile.content tile) (Some (clock (ticks st)))
         (Tile.type tile).

(** The manager as [addNoveltyTile] hands it to the save: the tile is at
    the front of the list, the list is cut to 100 tiles, and the clock has
    been read when the tile carried no date. *)
Definition with_tile (clock : nat -> string) {S : Type} (st : state S) (tile : Tile.t)
  : state S :=
  set_noveltyTiles (dated clock st tile :: firstn 99 (noveltyTiles st))
    (if opt_truthy (Tile.date tile) then st
     else set_ticks (Datatypes.S (ticks st)) st).

(** The save of [st] runs its handler of [QuotaExceededError]: the storage
    is supported and one of the four writes threw that error. *)
Definition meets_quota {S : Type} `{WebStorage S} (Date_parse : string -> option Z)
    (st : state S) : bool :=
  localStorageSupported st
  && match snd (save_writes Date_parse (_createBackup st)) with
     | Some QuotaExceededError => true
     | Some OtherError | None => false
     end.

(** The names of the properties that every object inherits from
    [Object.prototype].  A read [o[k]] with one of them yields the
    inherited value when [o] has no property of that name, where
    [JS.obj_get] finds nothing; [inherited_key] marks the keys for which
    the two readings can differ.  Of these names [_normalizeNameKey] can
    return the first two only, the others having an upper-case letter. *)
Definition prototype_properties : list string :=
  ["constructor"; "__proto__"; "hasOwnProperty"; "isPrototypeOf";
   "propertyIsEnumerable"; "toLocaleString"; "toString"; "valueOf";
   "__defineGetter__"; "__defineSetter__"; "__lookupGetter__"; "__lookupSetter__"].

Definition inherited_key (k : string) : bool :=
  existsb (String.eqb k) prototype_properties.

(** No taxonomy category of the record is the name of an inherited
    property. *)
Definition plain_categories (a : Academic) : Prop :=
  Forall (fun kv => inherited_key (fst kv) = false) (taxonomies_of a).

(** A slot that holds a catalog, or no object at all: no text, a text
    that [JSON.parse] rejects, or the text of a value that is not an
    object.  The arrays and the export documents are objects too, and the
    program would take one of them for a catalog, which the typed readers
    of the slots do not. *)
Definition catalog_slot (slot : option text) : bool :=
  match slot with
  | Some (Json (JCatalog _)) => true
  | Some (Json v) => negb (is_object v)
  | Some (Raw _) | None => true
  end.

(** A save whose writes all return and whose read-back of the academics
    slot is then missing, unparsable, or not an object; [st1] is the state
    at the read-back. *)
Definition verification_fails {S : Type} `{WebStorage S} (Date_parse : string -> option Z)
    (st st1 : state S) : Prop :=
  localStorageSupported st = true
  /\ save_writes Date_parse (_createBackup st) = (st1, None)
  /\ verified st1 = false.

(** The catalog that the backup slot holds, if it holds one. *)
Definition backup_catalog {S : Type} `{WebStorage S} (st : state S)
  : option (list (string * Academic)) :=
  match getItem ACADEMICS_BACKUP (localStorage st) with
  | Some (Json (JCatalog c)) => Some c
  | _ => None
  end.

(** The merge as a function of values: what [merge_into r e] makes of the
    stored record [x] when the candidate is another object, of value [a].
    Each property of the result depends on that property of [a] and of
    [x] alone. *)
Section AddIfAbsent.
  Context {A : Type} (same : A -> A -> bool).

  (** [if (!xs.some(y => same(x, y))) xs.push(x)] *)
Definition add_if_absent (xs : list A) (x : A) : list A :=
    if existsb (same x) xs then xs else xs ++ [x].

  (** [candidates.forEach(x => ...)] *)
Definition add_all (candidates xs : list A) : list A :=
    fold_left add_if_absent candidates xs.
End AddIfAbsent.

Definition merged_bio (a x : option string) : option string :=
  if opt_truthy a && negb (opt_string_eqb a x) then a else x.

(** The union of a non-empty array of the candidate into the array of the
    stored record, created empty when it is absent. *)
Definition merged_list {A : Type} (same : A -> A -> bool) (a x : option (list A))
  : option (list A) :=
  match a with
  | Some ((_ :: _) as candidates) =>
      Some (add_all same candidates (match x with Some xs => xs | None => [] end))
  | _ => x
  end.

Definition add_value (category : string) (o : list (string * list string)) (value : string)
  : list (string * list string) :=
  match JS.obj_get category o with
  | Some values =>
      if array_includes value values then o
      else JS.obj_set category (values ++ [value]) o
  | None => o
  end.

Definition add_category (t o : list (string * list string)) (category : string)
  : list (string * list string) :=
  let o1 :=
    match JS.obj_get category o with
    | Some _ => o
    | None => JS.obj_set category [] o
    end in
  match JS.obj_get category t with
  | Some values => fold_left (add_value category) values o1
  | None => o1
  end.

Definition merged_taxonomies (a x : option (list (string * list string)))
  : option (list (string * list string)) :=
  match a with
  | Some t =>
      Some (fold_left (add_category t) (JS.obj_keys t)
              (match x with Some o => o | None => [] end))
  | None => x
  end.

(** The values of a category, none when the category is absent. *)
Definition values_in (t : list (string * list string)) (category : string) : list string :=
  match JS.obj_get category t with
  | Some values => values
  | None => []
  end.

(** The category is present in [o] with all of [values]. *)
Definition covers (o : list (string * list string)) (category : string)
    (values : list string) : Prop :=
  exists vs, JS.obj_get category o = Some vs
             /\ forall v, In v values -> array_includes v vs = true.

Definition merged (a x : Academic) : Academic :=
  {| name := name x;
     bio := merged_bio (bio a) (bio x);
     taxonomies := merged_taxonomies (taxonomies a) (taxonomies x);
     papers := merged_list (fun paper p => same_paper paper p) (papers a) (papers x);
     events := merged_list (fun event e => same_event event e) (events a) (events x);
     connections := merged_list String.eqb (connections a) (connections x) |}.

(** The supplied criteria, in the words of the spec: the name filter is a
    case-insensitive substring of the name, and each supplied taxonomy
    filter agrees with some value of that taxonomy field, one containing
    the other without regard to case. *)
Definition satisfies (criteria : list (string * string)) (a : Academic) : Prop :=
  (forall q, criterion criteria "name" = Some q ->
     JS.includes (JS.toLowerCase (name a)) (JS.toLowerCase q) = true)
  /\ (forall field v, In field taxonomyFields -> criterion criteria field = Some v ->
        exists values, JS.obj_get field (taxonomies_of a) = Some values
          /\ exists value, In value values
               /\ (JS.includes (JS.toLowerCase value) (JS.toLowerCase v) = true
                   \/ JS.includes (JS.toLowerCase v) (JS.toLowerCase value) = true)).

(** The name is the query, without regard to case. *)
Definition exact_match (q : string) (a : Academic) : bool :=
  String.eqb (JS.toLowerCase (name a)) (JS.toLowerCase q).

(** Index of the first occurrence of the query in the name. *)
Definition match_index (q : string) (a : Academic) : Z :=
  JS.indexOf (JS.toLowerCase (name a)) (JS.toLowerCase q).

(** [a] may stand before [b]: exact matches first, then ascending index
    of the match. *)
Definition ranked_before (q : string) (a b : Academic) : Prop :=
  exact_match q a = true
  \/ (exact_match q b = false /\ (match_index q a <= match_index q b)%Z).

(** [a] and [b] tie on both keys. *)
Definition same_rank (q : string) (a b : Academic) : bool :=
  Bool.eqb (exact_match q a) (exact_match q b)
  && (match_index q a =? match_index q b)%Z.

(** The order of the spec, with names in alphabetical order as the last
    tie-break. *)
Definition alphabetical_before (alphabetical : string -> string -> Z) (q : string)
    (a b : Academic) : Prop :=
  exact_match q a = true
  \/ (exact_match q b = false
      /\ ((match_index q a < match_index q b)%Z
          \/ (match_index q a = match_index q b
              /\ (alphabetical (name a) (name b) <= 0)%Z))).

(** The record [c] lists the name [n] among its connections. *)
Definition has_connection (n : string) (h : list Academic) (c : ref) : Prop :=
  array_includes n (connections_of (deref h c)) = true.

(** From [h] to [h'] no object is added or renamed, and no connection is
    lost. *)
Definition grows (h h' : list Academic) : Prop :=
  length h' = length h
  /\ forall x, name (deref h' x) = name (deref h x)
               /\ forall n, has_connection n h x -> has_connection n h' x.

(** A storage whose [setItem] never throws. *)
Definition never_throws (S : Type) `{WebStorage S} : Prop :=
  forall k v s, snd (setItem k v s) = None.

(** Every reference of the catalog is an object of the store. *)
Definition wf {S : Type} (st : state S) : Prop :=
  Forall (fun kr => snd kr < length (heap st)) (academics st).

(** A step of the enrichment as the catalog sees it: the store grows, the
    references stay valid, and the catalog is as before or has one more
    key, for a record that lists the name [n]. *)
Definition links {S : Type} (n : string) (st st' : state S) : Prop :=
  grows (heap st) (heap st')
  /\ wf st'
  /\ (academics st' = academics st
      \/ exists k c, JS.obj_get k (academics st) = None
                     /\ academics st' = JS.obj_add k c (academics st)
                     /\ has_connection n (heap st') c).


(* ===================================================================== *)
(** ** Sample records and states *)
(* ===================================================================== *)

Module Example.
  (** The placeholder record of [_initializeDefaultData]. *)
Definition sample : Academic :=
    {| name := "Sample Academic";
       bio := Some "This is a sample academic entry.";
       taxonomies := Some [("discipline", ["Philosophy"]);
                           ("tradition", ["Critical Theory"]);
                           ("era", ["Contemporary"]);
                           ("methodology", ["Textual Analysis"]);
                           ("theme", ["Power"])];
       papers := Some [Paper.mk "Sample Paper" (Some 2020%Z) []];
       events := Some [Event.mk "Sample Event" (Some 2021%Z) "Virtual Conference"];
       connections := Some ["Jacques Derrida"; "Michel Foucault"] |}.

Definition foucault : Academic :=
    {| name := "Michel Foucault";
       bio := Some "French philosopher and historian of ideas.";
       taxonomies := Some [("discipline", ["Philosophy"; "History"]);
                           ("theme", ["Power"])];
       papers := Some [Paper.mk "Discipline and Punish" (Some 1975%Z) []];
       events := Some [];
       connections := Some ["Jacques Derrida"] |}.

Definition henry : Academic :=
    {| name := "Michel Henry";
       bio := Some "French phenomenologist.";
       taxonomies := Some [("tradition", ["Phenomenology"])];
       papers := Some [];
       events := Some [];
       connections := Some [] |}.

Definition derrida : Academic :=
    {| name := "Jacques Derrida";
       bio := Some "French philosopher known for deconstruction.";
       taxonomies := Some [("tradition", ["Post-structuralism"])];
       papers := Some [Paper.mk "of grammatology" (Some 1967%Z) []];
       events := Some [];
       connections := Some ["Michel Foucault"] |}.

  (** A candidate carrying the paper of the deduplication scenario. *)
Definition derrida_update : Academic :=
    {| name := "Jacques Derrida";
       bio := None;
       taxonomies := None;
       papers := Some [Paper.mk "Of Grammatology" (Some 1967%Z) []];
       events := None;
       connections := None |}.

  (** The text of the extraction scenario, line by line. *)
Definition lines (ls : list string) : string :=
    String.concat (String Regex.newline EmptyString) ls.

Definition scenario : string :=
    lines ["Name: Jacques Derrida";
           "Bio: French philosopher known for deconstruction.";
           "Papers:";
           "- Of Grammatology (1967)";
           "- Writing and Difference, 1967";
           "Connections:";
           "- Michel Foucault";
           "- Emmanuel Levinas"].

  (** A fenced JSON block that gives a name and a bio and nothing else,
      and a parser that knows this one object. *)
Definition quoted (s : string) : string :=
    String (ascii_of_nat 34) s ++ String (ascii_of_nat 34) EmptyString.

Definition json_object : string :=
    "{" ++ quoted "name" ++ ": " ++ quoted "Jacques Derrida" ++ ", "
        ++ quoted "bio" ++ ": " ++ quoted "French philosopher" ++ "}".

Definition json_block : string := lines ["```json"; json_object; "```"].

Definition parse_block (s : string) : option Academic :=
    if String.eqb s json_object
    then Some {| name := "Jacques Derrida"; bio := Some "French philosopher";
                 taxonomies := None; papers := None; events := None;
                 connections := None |}
    else None.

  (** A text whose prose has the words that the pre-check looks for. *)
Definition prose : string :=
    lines ["Name: Jacques Derrida";
           "Bio: French philosopher whose name is tied to deconstruction.";
           "No biography of his fits in a line."].

  (** A manager over an object store and a catalog, with nothing else in
      memory. *)
Definition manager {S : Type} (h : list Academic) (c : list (string * ref))
      (supported : bool) (ls : S) : state S :=
    mkState h c [] [] [] [] supported ls 0.

  (** The sample record was persisted; a second record has since been put
      in memory; the storage cuts what is longer than 450 characters. *)
Definition lossy : state LossyStorage.t :=
    manager [sample; foucault] [("sample-academic", 0); ("michel-foucault", 1)] true
      (LossyStorage.mk [(ACADEMICS, Json (JCatalog [("sample-academic", sample)]))] 450).

  (** Jacques Derrida as he is in memory, with two events that the
      persisted record does not have, and a candidate that carries one
      more paper of his. *)
Definition derrida_lectures : Academic :=
    {| name := "Jacques Derrida";
       bio := Some "French philosopher known for deconstruction.";
       taxonomies := Some [("tradition", ["Post-structuralism"])];
       papers := Some [Paper.mk "of grammatology" (Some 1967%Z) []];
       events := Some [Event.mk "Structure, Sign, and Play" (Some 1966%Z)
                         "Johns Hopkins University";
                       Event.mk "Force of Law" (Some 1989%Z) "Cardozo Law School"];
       connections := Some ["Michel Foucault"] |}.

Definition difference : Academic :=
    {| name := "Jacques Derrida";
       bio := None;
       taxonomies := None;
       papers := Some [Paper.mk "Writing and Difference" (Some 1967%Z) []];
       events := None;
       connections := None |}.

  (** The record without the events was persisted; the storage cuts what
      is longer than 350 characters. *)
Definition lossy_derrida : state LossyStorage.t :=
    manager [derrida_lectures; difference] [("jacques-derrida", 0)] true
      (LossyStorage.mk [(ACADEMICS, Json (JCatalog [("jacques-derrida", derrida)]))] 350).

  (** Nothing is in the academics slot, and the backup slot holds a
      catalog of an earlier session; the storage cuts what is longer than
      250 characters. *)
Definition stale : state LossyStorage.t :=
    manager [sample] [("sample-academic", 0)] true
      (LossyStorage.mk [(ACADEMICS_BACKUP, Json (JCatalog [("michel-henry", henry)]))] 250).

  (** Twenty tiles of the first of January 2025, and a manager that holds
      them over a storage that is full. *)
Definition recent_tiles : list Tile.t :=
    map (fun n => Tile.mk ("Tile " ++ string_of_nat n) "" (Some "2025-01-01T00:00:00.000Z")
                    "system")
        (seq 0 20).

  (** A tile that carries a date of 2020. *)
Definition old_news : Tile.t :=
    Tile.mk "Old news" "" (Some "2020-01-01T00:00:00.000Z") "system".

  (** A tile without a date. *)
Definition undated : Tile.t := Tile.mk "Undated" "" None "system".

  (** The placeholder record alone, over a storage without a bound but
      with [localStorage] found to be unsupported, or supported. *)
Definition unsupported : state PlainStorage.t :=
    manager [sample] [("sample-academic", 0)] false [].
Definition fresh : state PlainStorage.t :=
    manager [sample] [("sample-academic", 0)] true [].

  (** Michel Henry was inserted first, Michel Foucault second. *)
Definition michels : state PlainStorage.t :=
    manager [henry; foucault] [("michel-henry", 0); ("michel-foucault", 1)] true [].

  (** A candidate that names Michel Foucault as a connection. *)
Definition deleuze : Academic :=
    {| name := "Gilles Deleuze";
       bio := Some "French philosopher.";
       taxonomies := None;
       papers := Some [Paper.mk "Difference and Repetition" (Some 1968%Z) []];
       events := None;
       connections := Some ["Michel Foucault"] |}.

  (** Michel Foucault is stored; the candidate is an object of its own. *)
Definition with_candidate : state PlainStorage.t :=
    manager [foucault; deleuze] [("michel-foucault", 0)] true [].

  (** Michel Foucault is stored; the candidate has his name in capitals
      and brings a theme, a paper and a connection that are new. *)
Definition foucault_notes : Academic :=
    {| name := "MICHEL FOUCAULT";
       bio := None;
       taxonomies := Some [("theme", ["Power"; "Knowledge"])];
       papers := Some [Paper.mk "The Order of Things" (Some 1966%Z) []];
       events := None;
       connections := Some ["Gilles Deleuze"] |}.

Definition revisit : state PlainStorage.t :=
    manager [foucault; foucault_notes] [("michel-foucault", 0)] true [].

  (** Jacques Derrida is stored with the paper "of grammatology"; the
      candidate of the deduplication scenario is the object 1. *)
Definition dedup : state PlainStorage.t :=
    manager [derrida; derrida_update] [("jacques-derrida", 0)] true [].

  (** The placeholder record and a tile without a date to add. *)
Definition roomy_manager : state QuotaStorage.t :=
    manager [sample] [("sample-academic", 0)] true (QuotaStorage.mk [] 5000).

  (** A storage with room for everything, holding nothing yet. *)
Definition roomy : QuotaStorage.t := QuotaStorage.mk [] 5000.

  (** A storage that is full. *)
Definition full : QuotaStorage.t := QuotaStorage.mk [] 0.

Definition crowded : state QuotaStorage.t :=
    set_noveltyTiles recent_tiles
      (manager [sample] [("sample-academic", 0)] true full).
End Example.

(* ===================================================================== *)
(** ** DatabaseManager: start-up *)
(* ===================================================================== *)

(** [localStorage.removeItem]: the storage after the call and the
    exception it threw, if any. *)
Class StorageRemoval (S : Type) `{WebStorage S} : Type := {
  removeItem : string -> S -> S * option exn
}.

(** The contract of [removeItem]: no other key is touched. *)
Class LawfulRemoval (S : Type) `{StorageRemoval S} : Prop := {
  getItem_removeItem :
    forall k s s' thrown, removeItem k s = (s', thrown) ->
      forall k', String.eqb k' k = false -> getItem k' s' = getItem k' s
}.

Definition TEST_KEY : string := "killphilosophy_test".
Definition BACKUP_BEFORE_CLEAR : string := "killphilosophy_academics_backup_before_clear".

Section MoreSetters.
  Context {S : Type}.
  Implicit Type st : state S.

Definition set_favorites (l : list string) st : state S :=
    mkState (heap st) (academics st) (noveltyTiles st) l (pendingSubmissions st)
      (taxonomyCategories st) (localStorageSupported st) (localStorage st) (ticks st).
Definition set_pendingSubmissions (l : list Submission) st : state S :=
    mkState (heap st) (academics st) (noveltyTiles st) (favorites st) l
      (taxonomyCategories st) (localStorageSupported st) (localStorage st) (ticks st).
End MoreSetters.

(** The taxonomy vocabulary that the constructor installs. *)
Definition default_taxonomyCategories : list (string * list string) :=
  [ ("discipline", ["Philosophy"; "Sociology"; "Literary Theory"; "Political Science";
                    "History"; "Gender Studies"; "Anthropology"; "Psychology"]);
    ("tradition", ["Existentialism"; "Post-structuralism"; "Phenomenology";
                   "Critical Theory"; "Marxism"; "Hermeneutics"; "Pragmatism"]);
    ("era", ["20th Century"; "21st Century"; "Contemporary"; "Modern"; "Ancient";
             "Medieval"]);
    ("methodology", ["Textual Analysis"; "Dialectical Method"; "Genealogy";
                     "Deconstruction"; "Ethnography"; "Discourse Analysis"]);
    ("theme", ["Power"; "Identity"; "Language"; "Justice"; "Ethics"; "Consciousness";
               "Embodiment"; "Capitalism"; "Democracy"; "Technology"]) ].

(** The catalog that [_initializeDefaultData] installs. *)
Definition default_academics : list (string * Academic) :=
  [("sample-academic", Example.sample)].

(** The readings of the four slots in [_loadFromLocalStorage].  The
    academics slot is read as a catalog with at least one key; the other
    slots as arrays of their element type, the empty array being the same
    text whatever its element type.  An object or array of another shape
    has no typed reading and is not loaded; in the academics slot the
    program would load it, and [catalog_slot] marks the slots where the
    typed reading is the program's. *)
Definition as_catalog (saved : option text) : option (list (string * Academic)) :=
  match saved with
  | Some (Json (JCatalog ((_ :: _) as parsed))) => Some parsed
  | _ => None
  end.

Definition as_tiles (saved : option text) : option (list Tile.t) :=
  match saved with
  | Some (Json (JTiles parsed)) => Some parsed
  | Some (Json (JStrings [])) | Some (Json (JSubmissions [])) => Some []
  | _ => None
  end.

Definition as_strings (saved : option text) : option (list string) :=
  match saved with
  | Some (Json (JStrings parsed)) => Some parsed
  | Some (Json (JTiles [])) | Some (Json (JSubmissions [])) => Some []
  | _ => None
  end.

Definition as_submissions (saved : option text) : option (list Submission) :=
  match saved with
  | Some (Json (JSubmissions parsed)) => Some parsed
  | Some (Json (JTiles [])) | Some (Json (JStrings [])) => Some []
  | _ => None
  end.

Section Startup.
  Context {S : Type} `{StorageRemoval S}.
  Variable Date_parse : string -> option Z.
  Implicit Type st : state S.

  (** [_checkLocalStorageSupport()] *)
Definition _checkLocalStorageSupport (ls : S) : bool * S :=
    match setItem TEST_KEY (Raw TEST_KEY) ls with
    | (ls1, Some _) => (false, ls1)
    | (ls1, None) =>
        match removeItem TEST_KEY ls1 with
        | (ls2, Some _) => (false, ls2)
        | (ls2, None) => (true, ls2)
        end
    end.

  (** [_loadFromLocalStorage()] *)
Definition _loadFromLocalStorage st : bool * state S :=
    if negb (localStorageSupported st) then (false, st)
    else
      let savedAcademics := getItem ACADEMICS (localStorage st) in
      let savedNoveltyTiles := getItem NOVELTY_TILES (localStorage st) in
      let savedFavorites := getItem FAVORITES (localStorage st) in
      let savedSubmissions := getItem PENDING_SUBMISSIONS (localStorage st) in
      let (loadedData, st1) :=
        match as_catalog savedAcademics with
        | Some parsed => (true, assign_academics parsed st)
        | None => (false, st)
        end in
      let st2 :=
        match as_tiles savedNoveltyTiles with
        | Some parsed => set_noveltyTiles parsed st1
        | None => st1
        end in
      let st3 :=
        match as_strings savedFavorites with
        | Some parsed => set_favorites parsed st2
        | None => st2
        end in
      let st4 :=
        match as_submissions savedSubmissions with
        | Some parsed => set_pendingSubmissions parsed st3
        | None => st3
        end in
      (loadedData, st4).

  (** [_initializeDefaultData()], up to its return: the request for
      [academics.json] is answered later, by [academics_json_loaded]. *)
Definition _initializeDefaultData st : state S :=
    assign_academics default_academics st.

  (** The handler of the answer to the request for [academics.json];
      [None] is [null]. *)
Definition academics_json_loaded (data : option (list (string * Academic))) st : state S :=
    match data with
    | Some ((_ :: _) as catalog) =>
        snd (saveToLocalStorage Date_parse (assign_academics catalog st))
    | _ => st
    end.

  (** [_initializeData()] *)
Definition _initializeData st : state S :=
    if localStorageSupported st then
      let (loadSuccessful, st1) := _loadFromLocalStorage st in
      if negb loadSuccessful || (length (academics st1) =? 0)
      then snd (saveToLocalStorage Date_parse (_initializeDefaultData st1))
      else st1
    else _initializeDefaultData st.

  (** [new DatabaseManager()] over the storage [ls], up to its return.
      The timer that [_setupAutoSave] starts only calls
      [saveToLocalStorage] later on. *)
Definition constructor (ls : S) : state S :=
    let (supported, ls1) := _checkLocalStorageSupport ls in
    _initializeData
      (mkState [] [] [] [] [] default_taxonomyCategories supported ls1 0).
End Startup.

(* ===================================================================== *)
(** ** DatabaseManager: favorites, submissions, clearing *)
(* ===================================================================== *)

(** [xs.indexOf(v)] on an array of strings *)
Fixpoint array_find (v : string) (xs : list string) : option nat :=
  match xs with
  | [] => None
  | x :: xs' => if String.eqb v x then Some 0 else option_map Datatypes.S (array_find v xs')
  end.

Definition array_indexOf (v : string) (xs : list string) : Z :=
  match array_find v xs with
  | Some i => Z.of_nat i
  | None => (-1)%Z
  end.

(** [xs.splice(index, 1)] for an index that is not negative *)
Definition splice1 {A : Type} (index : nat) (xs : list A) : list A :=
  firstn index xs ++ skipn (Datatypes.S index) xs.

Section Editing.
  Context {S : Type} `{WebStorage S}.
  Variable Date_parse : string -> option Z.
  Implicit Type st : state S.

  (** [addToFavorites(academicName)] *)
Definition addToFavorites (academicName : string) st : bool * state S :=
    if negb (JS.truthy academicName) then (false, st)
    else if negb (array_includes academicName (favorites st))
    then (true, snd (saveToLocalStorage Date_parse
                       (set_favorites (favorites st ++ [academicName]) st)))
    else (true, st).

  (** [removeFromFavorites(academicName)] *)
Definition removeFromFavorites (academicName : string) st : bool * state S :=
    if negb (JS.truthy academicName) then (false, st)
    else
      let index := array_indexOf academicName (favorites st) in
      if negb (index =? -1)%Z
      then (true, snd (saveToLocalStorage Date_parse
                         (set_favorites (splice1 (Z.to_nat index) (favorites st)) st)))
      else (true, st).

  (** [getFavorites()] *)
Definition getFavorites st : list string := favorites st.

  (** [addPendingSubmission(submission)] *)
Definition addPendingSubmission (submission : Submission) st : bool * state S :=
    if negb (JS.truthy (academicName submission))
       || negb (JS.truthy (submissionType submission))
    then (false, st)
    else (true, snd (saveToLocalStorage Date_parse
                       (set_pendingSubmissions (pendingSubmissions st ++ [submission]) st))).

  (** [getPendingSubmissions()] *)
Definition getPendingSubmissions st : list Submission := pendingSubmissions st.

  (** [removePendingSubmission(index)], the index being an integer *)
Definition removePendingSubmission (index : Z) st : bool * state S :=
    if (index <? 0)%Z || (Z.of_nat (length (pendingSubmissions st)) <=? index)%Z
    then (false, st)
    else (true, snd (saveToLocalStorage Date_parse
                       (set_pendingSubmissions
                          (splice1 (Z.to_nat index) (pendingSubmissions st)) st))).

  (** [clearDatabase()]: the write of the backup is the one step that can
      throw. *)
Definition clearDatabase st : bool * state S :=
    let backupAcademics := Json (JCatalog (snapshot st)) in
    let (st1, thrown) :=
      if localStorageSupported st then write BACKUP_BEFORE_CLEAR backupAcademics st
      else (st, None) in
    match thrown with
    | Some _ => (false, st1)
    | None =>
        (true,
         snd (saveToLocalStorage Date_parse
                (set_pendingSubmissions []
                   (set_favorites [] (set_noveltyTiles [] (set_academics [] st1))))))
    end.
End Editing.

(* ===================================================================== *)
(** ** DatabaseManager: the views *)
(* ===================================================================== *)

(** [xs.slice(0, end)]: a negative [end] counts from the end of the
    array. *)
Definition slice_to {A : Type} (end_ : Z) (xs : list A) : list A :=
  if (end_ <? 0)%Z then firstn (length xs - Z.to_nat (- end_)) xs
  else firstn (Z.to_nat end_) xs.

(** A node and a link of the network view. *)
Module Node.
Record t : Type := mk { id : string; group : string }.
End Node.

Module Link.
Record t : Type := mk { source : string; target : string; value : Z }.
End Link.

Section Views.
  Context {S : Type}.
  Variable Date_parse : string -> option Z.
  Implicit Type st : state S.

  (** [getAllAcademics()] *)
Definition getAllAcademics st : list ref := JS.obj_values (academics st).

  (** [getRecentNoveltyTiles(limit = 10)]; [None] is a call without the
      argument. *)
Definition getRecentNoveltyTiles (limit : option Z) st : list Tile.t :=
    slice_to (match limit with Some n => n | None => 10%Z end)
      (JS.sort (by_date_desc Date_parse) (noveltyTiles st)).

  (** [getTaxonomyCategory(category)] *)
Definition getTaxonomyCategory (category : string) st : list string :=
    match JS.obj_get category (taxonomyCategories st) with
    | Some values => values
    | None => []
    end.

  (** [getAllTaxonomyCategories()] *)
Definition getAllTaxonomyCategories st : list (string * list string) :=
    taxonomyCategories st.

  (** [academic.connections && academic.connections.includes(name)] *)
Definition lists_connection (academicName : string) (academic : Academic) : bool :=
    match connections academic with
    | Some cs => array_includes academicName cs
    | None => false
    end.

  (** [getAcademicsByConnection(academicName)] *)
Definition getAcademicsByConnection (academicName : string) st : list ref :=
    if negb (JS.truthy academicName) then []
    else List.filter (fun r => lists_connection academicName (deref (heap st) r))
           (getAllAcademics st).

  (** [academic.taxonomies?.discipline?.[0] || 'Unknown'] *)
Definition discipline_of (academic : Academic) : string :=
    match taxonomies academic with
    | Some t =>
        match JS.obj_get "discipline" t with
        | Some (first :: _) => if JS.truthy first then first else "Unknown"
        | _ => "Unknown"
        end
    | None => "Unknown"
    end.

  (** The nodes of [getNetworkData()]: one for each record with a name. *)
Definition network_nodes st : list Node.t :=
    flat_map (fun r => let academic := deref (heap st) r in
                       if JS.truthy (name academic)
                       then [Node.mk (name academic) (discipline_of academic)]
                       else [])
      (JS.obj_values (academics st)).

  (** [academicMap.has(connection)]: the keys of the map are the ids of
      the nodes. *)
Definition academicMap_has (nodes : list Node.t) (connection : string) : bool :=
    existsb (fun n => String.eqb (Node.id n) connection) nodes.

  (** The links of [getNetworkData()]. *)
Definition network_links st : list Link.t :=
    let nodes := network_nodes st in
    flat_map (fun r => let academic := deref (heap st) r in
                       match connections academic with
                       | Some cs =>
                           flat_map (fun connection =>
                                       if academicMap_has nodes connection
                                       then [Link.mk (name academic) connection 1%Z]
                                       else [])
                             cs
                       | None => []
                       end)
      (JS.obj_values (academics st)).

  (** [getNetworkData()] *)
Definition getNetworkData st : list Node.t * list Link.t :=
    (network_nodes st, network_links st).
End Views.

(* ===================================================================== *)
(** ** DeepSearchAPI: the API key and the response stream *)
(* ===================================================================== *)

Definition API_KEY : string := "killphilosophy_deepsearch_api_key".

Section ApiKey.
  Context {S : Type} `{WebStorage S}.

  (** [saveApiKey(apiKey)] on the key in memory and the storage: the
      result, the key in memory afterwards, the storage afterwards. *)
Definition saveApiKey (apiKey : text) (current : text) (ls : S) : bool * text * S :=
    if negb (text_truthy apiKey) then (false, current, ls)
    else match setItem API_KEY apiKey ls with
         | (ls1, None) => (true, apiKey, ls1)
         | (ls1, Some _) => (false, apiKey, ls1)
         end.

  (** [_loadApiKey()]: the key in memory afterwards. *)
Definition _loadApiKey (current : text) (ls : S) : text :=
    match getItem API_KEY ls with
    | Some storedApiKey => if text_truthy storedApiKey then storedApiKey else current
    | None => current
    end.
End ApiKey.

Module Stream.

(** What [handleStream] reads of a parsed event: the three places where
    the first choice may carry its content. *)
Record choice : Type := mkChoice {
  delta_content : option string;
  message_content : option string;
  direct_content : option string
}.

(** The calls that [handleStream] makes. *)
Inductive call : Type :=
| OnChunk (content : string)
| OnComplete (resultText : string)
| OnError
| ShowErrorMessage.

(** The end of a stream: [reader.read()] reports [done], or rejects. *)
Inductive ending : Type :=
| Done
| Failed.

(** The promise that [handleStream] returns. *)
Inductive outcome : Type :=
| Resolved (resultText : string)
| Rejected.

(** The callbacks.  [onChunk] and [onError] tell whether the argument is
    a function; a call of [onChunk] that throws is caught where it is
    made, like a parse error.  [onComplete] is [None] for an argument that
    is not a function, and a function is given by whether its call returns
    ([true]) or throws. *)
Record callbacks : Type := mkCallbacks {
  onChunk : bool;
  onComplete : option (string -> bool);
  onError : bool
}.

Section HandleStream.
  (** [JSON.parse(data).choices[0]], when the text parses and that first
      choice is there and truthy; [None] otherwise. *)
  Variable first_choice : string -> option choice.
  Variable cb : callbacks.

  (** The content of an event, empty when none of the three places has
      one. *)
Definition content_of (c : choice) : string :=
    if opt_truthy (delta_content c) then default EmptyString (delta_content c)
    else if opt_truthy (message_content c) then default EmptyString (message_content c)
    else if opt_truthy (direct_content c) then default EmptyString (direct_content c)
    else EmptyString.

  (** The content that a line of the stream carries, if any. *)
Definition line_content (line : string) : option string :=
    if JS.startsWith line "data: " then
      let data := String.substring 6 (String.length line - 6) line in
      if String.eqb data "[DONE]" then None
      else match first_choice data with
           | Some c => if JS.truthy (content_of c) then Some (content_of c) else None
           | None => None
           end
    else None.

  (** The body of the loop over the lines: the text so far and the calls
      made so far, latest first. *)
Definition process_line (acc : string * list call) (line : string) : string * list call :=
    match line_content line with
    | Some content =>
        ((fst acc ++ content)%string,
         if onChunk cb then OnChunk content :: snd acc else snd acc)
    | None => acc
    end.

  (** The loop over the reads: the buffer, the text and the calls. *)
Fixpoint read_all (chunks : list string) (buffer : string) (acc : string * list call)
    : string * (string * list call) :=
    match chunks with
    | [] => (buffer, acc)
    | chunk :: rest =>
        let lines := JS.split_char Regex.newline (buffer ++ chunk) in
        read_all rest (List.last lines EmptyString)
          (fold_left process_line (removelast lines) acc)
    end.

  (** The handler of a failure. *)
Definition failed (calls : list call) : outcome * list call :=
    (Rejected, rev ((if onError cb then OnError else ShowErrorMessage) :: calls)).

  (** [handleStream(stream, onChunk, onComplete, onError)]: the outcome
      and the calls made, in order. *)
Definition handleStream (chunks : list string) (e : ending) : outcome * list call :=
    let '(buffer, acc) := read_all chunks EmptyString (EmptyString, []) in
    match e with
    | Failed => failed (snd acc)
    | Done =>
        let '(resultText, calls) := process_line acc buffer in
        match onComplete cb with
        | Some returns =>
            if returns resultText
            then (Resolved resultText, rev (OnComplete resultText :: calls))
            else failed (OnComplete resultText :: calls)
        | None => (Resolved resultText, rev calls)
        end
    end.
End HandleStream.

(** The contents that the lines of a text carry, in order. *)
Definition contents (first_choice : string -> option choice) (text : string)
    : list string :=
  omap (line_content first_choice) (JS.split_char Regex.newline text).

(** The calls of [onChunk] for these contents, when it is a function. *)
Definition chunk_calls (cb : callbacks) (cs : list string) : list call :=
  if onChunk cb then map OnChunk cs else [].

End Stream.

(* ===================================================================== *)
(** ** Vocabulary of the further statements *)
(* ===================================================================== *)

(** The characters of a key: lower-case letters, digits, underscore and
    dash. *)
Definition key_char (c : ascii) : bool :=
  JS.is_lower c || JS.is_digit c || (JS.code c =? 95) || (JS.code c =? 45).

(** Every run of white space replaced by one dash; [in_run] tells that
    the character before was white space. *)
Fixpoint dashes (in_run : bool) (l : list ascii) : list ascii :=
  match l with
  | [] => []
  | a :: l' =>
      if JS.is_space a
      then if in_run then dashes true l' else "-"%char :: dashes true l'
      else a :: dashes false l'
  end.

(** The characters that [/[^\w-]/] does not match. *)
Definition kept_char (c : ascii) : bool := JS.is_word c || Ascii.eqb c "-".

(** The longest prefix whose elements satisfy [P], and what follows it. *)
Fixpoint while_ {A : Type} (P : A -> bool) (l : list A) : list A :=
  match l with
  | a :: l' => if P a then a :: while_ P l' else []
  | [] => []
  end.

Fixpoint after_ {A : Type} (P : A -> bool) (l : list A) : list A :=
  match l with
  | a :: l' => if P a then after_ P l' else l
  | [] => []
  end.

Definition not_space (a : ascii) : bool := negb (JS.is_space a).

(** The key of a name, in words: the name in lower case, every run of
    white space replaced by one dash, and of the result the letters,
    digits, underscores and dashes. *)
Definition key_of (l : list ascii) : list ascii :=
  List.filter kept_char (dashes false (map JS.lower_char l)).

(** A string without white space at either end. *)
Definition trimmed (s : string) : Prop := JS.trim s = s.

(** A string of four decimal digits. *)
Definition four_digits (s : string) : Prop :=
  exists d1 d2 d3 d4,
    s = string_of_list_ascii [d1; d2; d3; d4]
    /\ JS.is_digit d1 = true /\ JS.is_digit d2 = true
    /\ JS.is_digit d3 = true /\ JS.is_digit d4 = true.

(** A year as the extractor writes it: present, and a number of at most
    four digits. *)
Definition extracted_year (y : option Z) : Prop :=
  exists z, y = Some z /\ (0 <= z <= 9999)%Z.

(** The shape of an extracted paper and of an extracted event. *)
Definition extracted_paper (p : Paper.t) : Prop :=
  trimmed (Paper.title p) /\ extracted_year (Paper.year p)
  /\ Forall (fun c => JS.truthy c = true /\ trimmed c) (Paper.coauthors p).

Definition extracted_event (e : Event.t) : Prop :=
  trimmed (Event.title e) /\ extracted_year (Event.year e)
  /\ trimmed (Event.location e).

(** Every record of the catalog has a name. *)
Definition named {S : Type} (st : state S) : Prop :=
  Forall (fun r => JS.truthy (name (deref (heap st) r)) = true)
    (JS.obj_values (academics st)).

(** The name of the record is the query, or contains it, or is contained
    in it, without regard to case. *)
Definition same_name (query : string) (a : Academic) : bool :=
  String.eqb (JS.toLowerCase (name a)) (JS.toLowerCase query).

Definition similar_name (query : string) (a : Academic) : bool :=
  JS.includes (JS.toLowerCase (name a)) (JS.toLowerCase query)
  || JS.includes (JS.toLowerCase query) (JS.toLowerCase (name a)).

(** [l] keeps the order of [k] and leaves some of its elements out. *)
Inductive subsequence {A : Type} : list A -> list A -> Prop :=
| subsequence_nil : subsequence [] []
| subsequence_keep x l k : subsequence l k -> subsequence (x :: l) (x :: k)
| subsequence_skip x l k : subsequence l k -> subsequence l (x :: k).

(** The time of a tile whose date is read by [Date]; [0] otherwise. *)
Definition tile_time (Date_parse : string -> option Z) (t : Tile.t) : Z :=
  match Tile.date t with
  | Some d => default 0%Z (Date_parse d)
  | None => 0%Z
  end.

(** The date of the tile is one that [Date] reads. *)
Definition has_valid_date (Date_parse : string -> option Z) (t : Tile.t) : Prop :=
  exists d z, Tile.date t = Some d /\ Date_parse d = Some z.


(** Removal for the storages used to run the model. *)
Section ObjectRemoval.
  Context {V : Type}.

  (** [delete obj[k]] *)
Fixpoint obj_delete (k : string) (o : list (string * V)) : list (string * V) :=
    match o with
    | [] => []
    | (k', v) :: o' => if String.eqb k k' then o' else (k', v) :: obj_delete k o'
    end.
End ObjectRemoval.

#[global] Instance PlainStorage_removal : StorageRemoval PlainStorage.t :=
  {| removeItem := fun k s => (obj_delete k s, None) |}.

#[global] Instance QuotaStorage_removal : StorageRemoval QuotaStorage.t :=
  {| removeItem := fun k s =>
       (QuotaStorage.mk (obj_delete k (QuotaStorage.slots s)) (QuotaStorage.capacity s),
        None) |}.

(** Further sample states. *)
Module Session.
  (** A manager in mid-session: two records, three tiles, two favorites
      and one submission in memory, nothing persisted yet. *)
Definition tiles : list Tile.t :=
    [ Tile.mk "First" "" (Some "2025-01-01T00:00:00.000Z") "system";
      Tile.mk "Third" "" (Some "2025-03-01T00:00:00.000Z") "system";
      Tile.mk "Second" "" (Some "2025-02-01T00:00:00.000Z") "system" ].

Definition submission : Submission :=
    mkSubmission "Michel Foucault" "paper" [("title", "The Order of Things")].

Definition busy : state PlainStorage.t :=
    mkState [Example.henry; Example.foucault; Example.derrida]
      [("michel-henry", 0); ("michel-foucault", 1); ("jacques-derrida", 2)]
      tiles ["Michel Foucault"; "Jacques Derrida"] [submission]
      default_taxonomyCategories true [] 0.

  (** The same over a storage that is full. *)
Definition stuck : state QuotaStorage.t :=
    mkState [Example.henry; Example.foucault]
      [("michel-henry", 0); ("michel-foucault", 1)]
      tiles ["Michel Foucault"] [submission]
      default_taxonomyCategories true Example.full 0.

  (** A stream of three events cut into four chunks in the middle of
      its lines, and a parser that knows the data of these events. *)
Definition chunks : list string :=
    [ Example.lines ["data: one"; "da"];
      Example.lines ["ta: two"; ""];
      "";
      Example.lines ["data: [DONE]"; "data: three"] ].

Definition parser (data : string) : option Stream.choice :=
    if String.eqb data "one" then Some (Stream.mkChoice (Some "Hello") None None)
    else if String.eqb data "two" then Some (Stream.mkChoice None (Some ", ") None)
    else if String.eqb data "three" then Some (Stream.mkChoice None None (Some "world"))
    else None.

Definition listening : Stream.callbacks :=
    Stream.mkCallbacks true (Some (fun _ => true)) true.
End Session.

(* ===================================================================== *)
(** ** Facts about the builtins *)
(* ===================================================================== *)

Section ObjectFacts.
  Context {V : Type}.
  Implicit Type o : list (string * V).

Lemma obj_get_add k v o k' :
    JS.obj_get k o = None ->
    JS.obj_get k' (JS.obj_add k v o) =
    if String.eqb k' k then Some v else JS.obj_get k' o.
  Proof.
    induction o as [|[k0 v0] o IH]; simpl; [reflexivity|].
    destruct (String.eqb k k0) eqn:E0; [discriminate|]. intros Hk.
    assert (Hne : String.eqb k' k && String.eqb k' k0 = false).
    { destruct (String.eqb k' k) eqn:E1, (String.eqb k' k0) eqn:E2; try reflexivity.
      apply String.eqb_eq in E1, E2. subst. rewrite String.eqb_refl in E0.
      discriminate. }
    destruct (JS.array_index k) as [i|], (JS.array_index k0) as [j|]; simpl;
      try destruct (i <? j)%Z; simpl; try rewrite (IH Hk);
      destruct (String.eqb k' k), (String.eqb k' k0); try reflexivity;
      discriminate.
  Qed.

Lemma obj_get_replace k v o k' :
    JS.obj_get k' (JS.obj_replace k v o) =
    if String.eqb k' k then
      match JS.obj_get k' o with Some _ => Some v | None => None end
    else JS.obj_get k' o.
  Proof.
    induction o as [|[k0 v0] o IH]; simpl.
    - destruct (String.eqb k' k); reflexivity.
    - destruct (String.eqb k k0) eqn:E0; simpl.
      + apply String.eqb_eq in E0; subst k0.
        destruct (String.eqb k' k); reflexivity.
      + rewrite IH. destruct (String.eqb k' k0) eqn:E1; [|reflexivity].
        apply String.eqb_eq in E1; subst k0.
        rewrite String.eqb_sym, E0. reflexivity.
  Qed.

Lemma obj_get_set k v o k' :
    JS.obj_get k' (JS.obj_set k v o) =
    if String.eqb k' k then Some v else JS.obj_get k' o.
  Proof.
    unfold JS.obj_set. destruct (JS.obj_get k o) eqn:E.
    - rewrite obj_get_replace. destruct (String.eqb k' k) eqn:E1; [|reflexivity].
      apply String.eqb_eq in E1; subst k'. rewrite E. reflexivity.
    - apply obj_get_add, E.
  Qed.

Lemma obj_get_set_eq k v o : JS.obj_get k (JS.obj_set k v o) = Some v.
  Proof. rewrite obj_get_set, String.eqb_refl. reflexivity. Qed.

Lemma obj_get_In k v o : JS.obj_get k o = Some v -> In (k, v) o.
  Proof.
    induction o as [|[k0 v0] o IH]; simpl; [discriminate|].
    destruct (String.eqb k k0) eqn:E.
    - apply String.eqb_eq in E. intros [= ->]. left. congruence.
    - auto.
  Qed.

Lemma obj_get_keys k o : In k (JS.obj_keys o) -> exists v, JS.obj_get k o = Some v.
  Proof.
    induction o as [|[k0 v0] o IH]; simpl; [tauto|].
    intros [->|Hin].
    - rewrite String.eqb_refl. eauto.
    - destruct (String.eqb k k0); eauto.
  Qed.
End ObjectFacts.

Lemma deref_app_l h h' r : r < length h -> deref (h ++ h') r = deref h r.
Proof. intros Hr. unfold deref. rewrite lookup_app_l by assumption. reflexivity. Qed.

Lemma alter_ge {A : Type} (f : A -> A) e (h : list A) : length h <= e -> alter f e h = h.
Proof.
  revert e. induction h as [|a h IH]; intros e He; [reflexivity|].
  destruct e as [|e]; simpl in *; [lia|]. f_equal. apply IH. lia.
Qed.

(* ===================================================================== *)
(** ** The persistence layer *)
(* ===================================================================== *)

Section StorageFacts.
  Context {S : Type} `{WebStorage S}.
  Variable Date_parse : string -> option Z.
  Implicit Type st : state S.

Lemma only_storage_refl st : only_storage st st.
  Proof. repeat split. Qed.

Lemma only_storage_trans st1 st2 st3 :
    only_storage st1 st2 -> only_storage st2 st3 -> only_storage st1 st3.
  Proof.
    unfold only_storage. intros (?&?&?&?&?&?&?&?) (?&?&?&?&?&?&?&?).
    repeat split; congruence.
  Qed.

Lemma write_only_storage k v st st' thrown :
    write k v st = (st', thrown) -> only_storage st st'.
  Proof.
    unfold write. destruct (setItem k v (localStorage st)) as [ls x].
    intros [= <- _]. repeat split.
  Qed.

Ltac chain_writes :=
    repeat (eapply only_storage_trans;
            [eapply write_only_storage; eassumption|]);
    apply only_storage_refl.

Lemma createBackup_only_storage st : only_storage st (_createBackup st).
  Proof.
    unfold _createBackup.
    destruct (negb (localStorageSupported st)); [apply only_storage_refl|].
    destruct (getItem ACADEMICS (localStorage st)) as [t|]; [|apply only_storage_refl].
    destruct (text_truthy t); [|apply only_storage_refl].
    destruct (write ACADEMICS_BACKUP t st) as [st' x] eqn:E.
    apply (write_only_storage _ _ _ _ _ E).
  Qed.

Lemma save_writes_only_storage st st' thrown :
    save_writes Date_parse st = (st', thrown) -> only_storage st st'.
  Proof.
    unfold save_writes.
    destruct (write ACADEMICS _ st) as [st1 [x|]] eqn:E1.
    { intros [= <- _]. eapply write_only_storage, E1. }
    destruct (write NOVELTY_TILES _ st1) as [st2 [x|]] eqn:E2.
    { intros [= <- _]. chain_writes. }
    destruct (write FAVORITES _ st2) as [st3 [x|]] eqn:E3.
    { intros [= <- _]. chain_writes. }
    intros E4. chain_writes.
  Qed.

Lemma snapshot_only_storage st st' : only_storage st st' -> snapshot st' = snapshot st.
  Proof. intros (Hh & Ha & _). unfold snapshot. rewrite Hh, Ha. reflexivity. Qed.

Lemma snapshot_fresh (c : list (string * Academic)) : forall pre,
    map (fun kr => (fst kr, deref (pre ++ map snd c) (snd kr)))
        (combine (map fst c) (seq (length pre) (length c))) = c.
  Proof.
    induction c as [|[k a] c IH]; intros pre; [reflexivity|]. simpl. f_equal.
    - f_equal. unfold deref. rewrite list_lookup_middle by reflexivity. reflexivity.
    - specialize (IH (pre ++ [a])). rewrite length_app in IH. simpl in IH.
      rewrite Nat.add_1_r, <- app_assoc in IH. exact IH.
  Qed.

Lemma snapshot_assign c st : snapshot (assign_academics c st) = c.
  Proof. unfold snapshot, assign_academics. simpl. apply snapshot_fresh. Qed.

  (** What [_restoreFromBackup] leaves in memory. *)
Lemma restoreFromBackup_snapshot st :
    localStorageSupported st = true ->
    snapshot (snd (_restoreFromBackup st)) =
    match backup_catalog st with
    | Some c => c
    | None => snapshot st
    end.
  Proof.
    intros Hs. unfold _restoreFromBackup, backup_catalog. rewrite Hs. simpl.
    destruct (getItem ACADEMICS_BACKUP (localStorage st)) as [[v|s]|]; simpl;
      try reflexivity.
    - destruct v; simpl; try reflexivity.
      destruct (write ACADEMICS _ (assign_academics c st)) as [st2 [x|]] eqn:E;
        simpl; rewrite (snapshot_only_storage _ _ (write_only_storage _ _ _ _ _ E));
        apply snapshot_assign.
    - destruct (negb (JS.truthy s)); reflexivity.
  Qed.

  (** What [_createBackup] writes: a copy of the text of the academics
      slot under the backup key when that text is not empty, and nothing
      otherwise. *)
Lemma createBackup_copy st :
    localStorageSupported st = true ->
    _createBackup st =
    match getItem ACADEMICS (localStorage st) with
    | Some currentData =>
        if text_truthy currentData
        then fst (write ACADEMICS_BACKUP currentData st) else st
    | None => st
    end.
  Proof. intros Hs. unfold _createBackup. rewrite Hs. reflexivity. Qed.

  (** C1, as the code has it: a save that fails its write-back
      verification returns failure and restores the backup slot as it
      reads at that moment.  When that slot holds a catalog, this becomes
      the catalog in memory; when it holds no text, a text that is not
      JSON or a value that is not an object, the catalog in memory stays
      the one of before the call.  The save began with [_createBackup],
      which copies the text of the academics slot to the backup slot when
      that text is not empty and writes nothing otherwise: so when the
      backup slot still reads as the academics slot did before the save,
      the catalog restored is the one persisted before this save, and
      when the academics slot was empty it is whatever an earlier save
      left as a backup.  In neither case need it be the catalog that was
      in memory before the call. *)
Theorem saveToLocalStorage_failed_verification st st1 :
    verification_fails Date_parse st st1 ->
    catalog_slot (getItem ACADEMICS_BACKUP (localStorage st1)) = true ->
    let persisted := getItem ACADEMICS (localStorage st) in
    let after := snd (saveToLocalStorage Date_parse st) in
    fst (saveToLocalStorage Date_parse st) = false
    /\ snapshot after =
       match backup_catalog st1 with
       | Some c => c
       | None => snapshot st
       end
    /\ _createBackup st =
       match persisted with
       | Some currentData =>
           if text_truthy currentData
           then fst (write ACADEMICS_BACKUP currentData st) else st
       | None => st
       end
    /\ (forall c, persisted = Some (Json (JCatalog c)) ->
          getItem ACADEMICS_BACKUP (localStorage st1) = persisted ->
          snapshot after = c).
  Proof.
    intros (Hs & Hw & Hv) _ persisted after.
    assert (Hafter : snapshot after =
                     match backup_catalog st1 with
                     | Some c => c
                     | None => snapshot st
                     end).
    { unfold after, saveToLocalStorage. rewrite Hs, Hw, Hv. simpl.
      assert (Hos : only_storage st st1).
      { eapply only_storage_trans;
          [apply createBackup_only_storage | eapply save_writes_only_storage, Hw]. }
      rewrite restoreFromBackup_snapshot.
      - destruct (backup_catalog st1); [reflexivity|].
        apply snapshot_only_storage, Hos.
      - destruct Hos as (_&_&_&_&_&_&Hsup&_). congruence. }
    split.
    { unfold saveToLocalStorage. rewrite Hs, Hw, Hv. reflexivity. }
    split; [exact Hafter|]. split; [apply createBackup_copy, Hs|].
    intros c Hc Hkept. rewrite Hafter. unfold backup_catalog.
    rewrite Hkept, Hc. reflexivity.
  Qed.
End StorageFacts.

(** C1 as stated fails: on a storage that cuts long values, the save of a
    catalog of two records fails its verification and leaves in memory the
    one-record catalog that was persisted before. *)
Lemma saveToLocalStorage_restores_persisted_catalog :
  verification_fails IsoDate.parse Example.lossy
    (fst (save_writes IsoDate.parse (_createBackup Example.lossy)))
  /\ snapshot (snd (saveToLocalStorage IsoDate.parse Example.lossy))
     <> snapshot Example.lossy.
Proof.
  split.
  - vm_compute. repeat split.
  - vm_compute. intros Heq. congruence.
Qed.

(** The two origins of the catalog restored: the copy that this save made
    of the academics slot, and, when that slot was empty, the backup of an
    earlier session. *)
Lemma saveToLocalStorage_failed_verification_witness :
  (verification_fails IsoDate.parse Example.lossy
     (fst (save_writes IsoDate.parse (_createBackup Example.lossy)))
   /\ getItem ACADEMICS (localStorage Example.lossy)
      = Some (Json (JCatalog [("sample-academic", Example.sample)]))
   /\ fst (saveToLocalStorage IsoDate.parse Example.lossy) = false
   /\ snapshot (snd (saveToLocalStorage IsoDate.parse Example.lossy))
      = [("sample-academic", Example.sample)])
  /\ (verification_fails IsoDate.parse Example.stale
        (fst (save_writes IsoDate.parse (_createBackup Example.stale)))
      /\ getItem ACADEMICS (localStorage Example.stale) = None
      /\ _createBackup Example.stale = Example.stale
      /\ snapshot (snd (saveToLocalStorage IsoDate.parse Example.stale))
         = [("michel-henry", Example.henry)]).
Proof.
  assert (Hlossy : verification_fails IsoDate.parse Example.lossy
            (fst (save_writes IsoDate.parse (_createBackup Example.lossy))))
    by (vm_compute; repeat split).
  assert (Hstale : verification_fails IsoDate.parse Example.stale
            (fst (save_writes IsoDate.parse (_createBackup Example.stale))))
    by (vm_compute; repeat split).
  split.
  - split; [exact Hlossy|]. split; [reflexivity|].
    destruct (saveToLocalStorage_failed_verification IsoDate.parse Example.lossy
                (fst (save_writes IsoDate.parse (_createBackup Example.lossy)))
                Hlossy eq_refl) as (Hfalse & _ & _ & Hkept).
    split; [exact Hfalse|]. apply Hkept; reflexivity.
  - split; [exact Hstale|]. split; [reflexivity|].
    destruct (saveToLocalStorage_failed_verification IsoDate.parse Example.stale
                (fst (save_writes IsoDate.parse (_createBackup Example.stale)))
                Hstale eq_refl) as (_ & Hafter & Hcopy & _).
    split; [exact Hcopy|]. rewrite Hafter. reflexivity.
Defined.

(* ===================================================================== *)
(** ** The stable sort *)
(* ===================================================================== *)

Section SortFacts.
  Context {A : Type} (cmp : A -> A -> Z).

Lemma sort_insert_perm x l : Permutation (JS.sort_insert cmp x l) (x :: l).
Proof.
  induction l as [|y l IH]; simpl; [reflexivity|].
  destruct (cmp x y <=? 0)%Z; [reflexivity|].
  rewrite IH. apply perm_swap.
Qed.

Lemma sort_perm l : Permutation (JS.sort cmp l) l.
Proof.
  induction l as [|x l IH]; simpl; [reflexivity|].
  rewrite sort_insert_perm. constructor. exact IH.
Qed.

  (** A relation that the comparator decides on the elements that satisfy
      [P], and that is transitive. *)
  Variables (P : A -> Prop) (R : A -> A -> Prop).
  Hypothesis R_le : forall x y, P x -> P y -> (cmp x y <= 0)%Z -> R x y.
  Hypothesis R_gt : forall x y, P x -> P y -> (cmp x y > 0)%Z -> R y x.
  Hypothesis R_trans : forall x y z, R x y -> R y z -> R x z.

Lemma sort_insert_sorted x l :
  P x -> List.Forall P l -> StronglySorted R l ->
  StronglySorted R (JS.sort_insert cmp x l).
Proof.
  intros Px Pl Hs. induction Hs as [|y l Hs IH Hy]; simpl.
  - repeat constructor.
  - inversion Pl as [|? ? Py Pl']; subst.
    destruct (cmp x y <=? 0)%Z eqn:E.
    + apply Z.leb_le in E. constructor; [constructor; assumption|].
      constructor; [apply R_le; assumption|].
      eapply List.Forall_impl; [|exact Hy]. intros z Hz.
      eapply R_trans; [apply R_le; eassumption | exact Hz].
    + apply Z.leb_gt in E. constructor; [apply IH; assumption|].
      eapply Permutation_Forall; [symmetry; apply sort_insert_perm|].
      constructor; [apply R_gt; [assumption..|lia] | exact Hy].
Qed.

Lemma sort_sorted l : List.Forall P l -> StronglySorted R (JS.sort cmp l).
Proof.
  induction 1 as [|x l Px Pl IH]; simpl; [constructor|].
  apply sort_insert_sorted; [assumption| |assumption].
  eapply Permutation_Forall; [symmetry; apply sort_perm | exact Pl].
Qed.

  (** Stability: the elements of a class that the comparator does not
      separate keep their order. *)
  Variable same : A -> bool.
  Hypothesis same_tie :
    forall x y, P x -> P y -> same x = true -> same y = true -> (cmp x y <= 0)%Z.

Lemma sort_insert_stable x l :
  P x -> List.Forall P l ->
  List.filter same (JS.sort_insert cmp x l) = List.filter same (x :: l).
Proof.
  intros Px Pl. induction Pl as [|y l Py Pl IH]; simpl; [reflexivity|].
  destruct (cmp x y <=? 0)%Z eqn:E; [reflexivity|].
  apply Z.leb_gt in E. simpl. rewrite IH. simpl.
  destruct (same x) eqn:Sx, (same y) eqn:Sy; try reflexivity.
  specialize (same_tie x y Px Py Sx Sy). lia.
Qed.

Lemma sort_stable l :
  List.Forall P l -> List.filter same (JS.sort cmp l) = List.filter same l.
Proof.
  induction 1 as [|x l Px Pl IH]; simpl; [reflexivity|].
  rewrite sort_insert_stable; [simpl; rewrite IH; reflexivity | assumption |].
  eapply Permutation_Forall; [symmetry; apply sort_perm | exact Pl].
Qed.
End SortFacts.

(* ===================================================================== *)
(** ** Novelty tiles *)
(* ===================================================================== *)

Section TileFacts.
  Context {S : Type} `{WebStorage S}.
  Variable clock : nat -> string.
  Variable Date_parse : string -> option Z.
  Implicit Type st : state S.

Lemma restoreFromBackup_tiles st :
    noveltyTiles (snd (_restoreFromBackup st)) = noveltyTiles st.
  Proof.
    unfold _restoreFromBackup.
    destruct (negb (localStorageSupported st)); [reflexivity|].
    destruct (getItem ACADEMICS_BACKUP (localStorage st)) as [t|]; [|reflexivity].
    destruct (negb (text_truthy t)); [reflexivity|].
    destruct t as [v|s]; [|reflexivity].
    destruct v; try reflexivity.
    destruct (write ACADEMICS _ _) as [st2 [x|]] eqn:E; simpl;
      apply write_only_storage in E; destruct E as (_&_&->&_); reflexivity.
  Qed.

Lemma free_space_tiles st :
    noveltyTiles (snd (free_space Date_parse st)) = noveltyTiles st
    \/ (20 < length (noveltyTiles st)
        /\ noveltyTiles (snd (free_space Date_parse st))
           = most_recent Date_parse 20 (noveltyTiles st)).
  Proof.
    unfold free_space.
    destruct (20 <? length (noveltyTiles st)) eqn:E20.
    - right. split; [apply Nat.ltb_lt, E20|].
      destruct (write NOVELTY_TILES _ _) as [st2 [x|]] eqn:E2;
        apply write_only_storage in E2; destruct E2 as (_&_&E2&_); [exact E2|].
      destruct (write ACADEMICS _ st2) as [st3 [x|]] eqn:E3;
        apply write_only_storage in E3; destruct E3 as (_&_&E3&_);
        simpl in *; congruence.
    - left.
      destruct (write ACADEMICS _ st) as [st3 [x|]] eqn:E3;
        apply write_only_storage in E3; destruct E3 as (_&_&E3&_); exact E3.
  Qed.

  (** What a save leaves of the tiles in memory: all of them, or, after a
      [QuotaExceededError], the 20 most recent by date. *)
Lemma saveToLocalStorage_tiles st :
    noveltyTiles (snd (saveToLocalStorage Date_parse st)) = noveltyTiles st
    \/ (20 < length (noveltyTiles st)
        /\ noveltyTiles (snd (saveToLocalStorage Date_parse st))
           = most_recent Date_parse 20 (noveltyTiles st)).
  Proof.
    unfold saveToLocalStorage.
    destruct (negb (localStorageSupported st)); [left; reflexivity|].
    destruct (save_writes Date_parse (_createBackup st)) as [st1 thrown] eqn:Ew.
    assert (Ht : noveltyTiles st1 = noveltyTiles st).
    { apply save_writes_only_storage in Ew. destruct Ew as (_&_&Ew&_).
      destruct (createBackup_only_storage st) as (_&_&Eb&_). congruence. }
    destruct thrown as [[|]|].
    - rewrite <- Ht. apply free_space_tiles.
    - left. exact Ht.
    - left. destruct (verified st1); simpl; [exact Ht|].
      rewrite restoreFromBackup_tiles. exact Ht.
  Qed.

  (** The handler of [QuotaExceededError] cuts the list in memory to the
      20 most recent tiles exactly when it has more than 20. *)
Lemma free_space_trims st :
    noveltyTiles (snd (free_space Date_parse st))
    = if 20 <? length (noveltyTiles st)
      then most_recent Date_parse 20 (noveltyTiles st)
      else noveltyTiles st.
  Proof.
    unfold free_space.
    destruct (20 <? length (noveltyTiles st)).
    - destruct (write NOVELTY_TILES _ _) as [st2 [x|]] eqn:E2;
        apply write_only_storage in E2; destruct E2 as (_&_&E2&_); [exact E2|].
      destruct (write ACADEMICS _ st2) as [st3 [x|]] eqn:E3;
        apply write_only_storage in E3; destruct E3 as (_&_&E3&_);
        simpl in *; congruence.
    - destruct (write ACADEMICS _ st) as [st3 [x|]] eqn:E3;
        apply write_only_storage in E3; destruct E3 as (_&_&E3&_); exact E3.
  Qed.

  (** A save changes the tiles in memory in its handler of
      [QuotaExceededError] and nowhere else. *)
Lemma saveToLocalStorage_trims st :
    noveltyTiles (snd (saveToLocalStorage Date_parse st))
    = if meets_quota Date_parse st && (20 <? length (noveltyTiles st))
      then most_recent Date_parse 20 (noveltyTiles st)
      else noveltyTiles st.
  Proof.
    unfold saveToLocalStorage, meets_quota.
    destruct (localStorageSupported st); [|reflexivity]. simpl.
    destruct (save_writes Date_parse (_createBackup st)) as [st1 thrown] eqn:Ew.
    assert (Ht : noveltyTiles st1 = noveltyTiles st).
    { apply save_writes_only_storage in Ew. destruct Ew as (_&_&Ew&_).
      destruct (createBackup_only_storage st) as (_&_&Eb&_). congruence. }
    destruct thrown as [[|]|]; simpl.
    - rewrite free_space_trims, Ht. reflexivity.
    - exact Ht.
    - destruct (verified st1); simpl; [exact Ht|].
      rewrite restoreFromBackup_tiles. exact Ht.
  Qed.

Lemma most_recent_incl n tiles : incl (most_recent Date_parse n tiles) tiles.
  Proof.
    intros t Ht. unfold most_recent in Ht.
    apply (Permutation_in _ (sort_perm (by_date_desc Date_parse) tiles)).
    rewrite <- (firstn_skipn n (JS.sort _ tiles)). apply in_or_app. left. exact Ht.
  Qed.

Lemma most_recent_full n tiles :
    n <= length tiles -> length (most_recent Date_parse n tiles) = n.
  Proof.
    intros Hn. unfold most_recent. rewrite length_firstn.
    rewrite (Permutation_length (sort_perm (by_date_desc Date_parse) tiles)). lia.
  Qed.

  (** C9, as the code has it: after a successful [addNoveltyTile] the
      list in memory has at most 100 tiles.  It is the added tile (dated by
      the clock when it carried no date) followed by the 99 tiles that
      were at the front before, in every call but one whose save meets a
      [QuotaExceededError] with more than 20 tiles in memory; in such a
      call, and in no other, the list is cut down to 20 of these tiles,
      which are the 20 most recent by date when every date is one that
      [Date] reads. *)
Theorem addNoveltyTile_bounded tile st st' :
    addNoveltyTile clock Date_parse tile st = (true, st') ->
    let kept := dated clock st tile :: firstn 99 (noveltyTiles st) in
    let cut := meets_quota Date_parse (with_tile clock st tile)
               && (20 <? length kept) in
    length (noveltyTiles st') <= 100
    /\ (cut = false -> noveltyTiles st' = kept)
    /\ (cut = true ->
          length (noveltyTiles st') = 20
          /\ incl (noveltyTiles st') kept
          /\ (List.Forall (has_valid_date Date_parse) kept ->
                noveltyTiles st' = most_recent Date_parse 20 kept)).
  Proof.
    intros Hadd kept cut. revert Hadd. unfold addNoveltyTile.
    destruct (negb (JS.truthy (Tile.title tile))); [discriminate|].
    set (p := if opt_truthy (Tile.date tile) then (tile, st) else _).
    assert (Hp : fst p = dated clock st tile
                 /\ set_noveltyTiles kept (snd p) = with_tile clock st tile
                 /\ noveltyTiles (snd p) = noveltyTiles st).
    { unfold p, dated, with_tile, now. fold kept.
      destruct (opt_truthy (Tile.date tile)); repeat split; reflexivity. }
    destruct p as [tile1 st1]. simpl in Hp. destruct Hp as (-> & Hst1 & Ht1).
    rewrite Ht1.
    set (tiles := dated clock st tile :: noveltyTiles st).
    assert (Hk : (if 100 <? length tiles then firstn 100 tiles else tiles) = kept).
    { destruct (100 <? length tiles) eqn:E; [reflexivity|].
      apply Nat.ltb_ge in E. unfold tiles, kept in *. simpl in E.
      rewrite firstn_all2 by lia. reflexivity. }
    rewrite Hk, Hst1. intros [= <-].
    assert (Hlen : length kept <= 100).
    { unfold kept. simpl. rewrite length_firstn. lia. }
    rewrite saveToLocalStorage_trims.
    change (noveltyTiles (with_tile clock st tile)) with kept. fold cut.
    destruct cut eqn:Ecut.
    - assert (H20 : 20 < length kept).
      { unfold cut in Ecut. apply andb_prop in Ecut. apply Nat.ltb_lt, Ecut. }
      split; [rewrite most_recent_full; lia|]. split; [discriminate|].
      intros _. split; [apply most_recent_full; lia|].
      split; [apply most_recent_incl | reflexivity].
    - split; [exact Hlen|]. split; [reflexivity | discriminate].
  Qed.
End TileFacts.

(** C9 as stated fails: with 20 tiles of 2025 in memory and a full
    storage, a tile dated 2020 is added with success and is not the first
    tile afterwards (it is not kept at all). *)
Lemma addNoveltyTile_old_tile_dropped :
  fst (addNoveltyTile frozen_clock IsoDate.parse Example.old_news Example.crowded) = true
  /\ hd_error (noveltyTiles
                 (snd (addNoveltyTile frozen_clock IsoDate.parse Example.old_news
Example.crowded)))
     <> Some (dated frozen_clock Example.crowded Example.old_news)
  /\ ~ In Example.old_news
         (noveltyTiles
            (snd (addNoveltyTile frozen_clock IsoDate.parse Example.old_news
Example.crowded))).
Proof.
  vm_compute. repeat split; [congruence|].
  intros Hin. repeat (destruct Hin as [Heq|Hin]; [discriminate Heq|]). exact Hin.
Qed.

(** A tile without a date over a storage with room, and a tile of 2020
    over a storage that is full. *)
Lemma addNoveltyTile_bounded_witness :
  (addNoveltyTile frozen_clock IsoDate.parse Example.undated Example.roomy_manager
   = (true, snd (addNoveltyTile frozen_clock IsoDate.parse Example.undated
                   Example.roomy_manager))
   /\ meets_quota IsoDate.parse
        (with_tile frozen_clock Example.roomy_manager Example.undated) = false
   /\ noveltyTiles (snd (addNoveltyTile frozen_clock IsoDate.parse Example.undated
                           Example.roomy_manager))
      = [Tile.mk "Undated" "" (Some "2025-01-01T00:00:00.000Z") "system"])
  /\ (addNoveltyTile frozen_clock IsoDate.parse Example.old_news Example.crowded
      = (true, snd (addNoveltyTile frozen_clock IsoDate.parse Example.old_news
                      Example.crowded))
      /\ meets_quota IsoDate.parse
           (with_tile frozen_clock Example.crowded Example.old_news) = true
      /\ noveltyTiles (snd (addNoveltyTile frozen_clock IsoDate.parse Example.old_news
                              Example.crowded))
         = Example.recent_tiles).
Proof.
  split.
  - assert (Hadd : addNoveltyTile frozen_clock IsoDate.parse Example.undated
                     Example.roomy_manager
                   = (true, snd (addNoveltyTile frozen_clock IsoDate.parse Example.undated
                                   Example.roomy_manager))) by reflexivity.
    assert (Hroom : meets_quota IsoDate.parse
                      (with_tile frozen_clock Example.roomy_manager Example.undated)
                    = false) by (vm_compute; reflexivity).
    split; [exact Hadd|]. split; [exact Hroom|].
    destruct (addNoveltyTile_bounded frozen_clock IsoDate.parse Example.undated
                Example.roomy_manager _ Hadd) as (_ & Hkept & _).
    rewrite Hkept; [reflexivity|]. rewrite Hroom. reflexivity.
  - assert (Hadd : addNoveltyTile frozen_clock IsoDate.parse Example.old_news
                     Example.crowded
                   = (true, snd (addNoveltyTile frozen_clock IsoDate.parse Example.old_news
                                   Example.crowded))) by reflexivity.
    assert (Hfull : meets_quota IsoDate.parse
                      (with_tile frozen_clock Example.crowded Example.old_news)
                    = true) by (vm_compute; reflexivity).
    split; [exact Hadd|]. split; [exact Hfull|].
    destruct (addNoveltyTile_bounded frozen_clock IsoDate.parse Example.old_news
                Example.crowded _ Hadd) as (_ & _ & Hcut).
    destruct Hcut as (_ & _ & Hrecent).
    + rewrite Hfull. reflexivity.
    + rewrite Hrecent; [vm_compute; reflexivity|].
      repeat constructor; eexists; eexists; (split; [reflexivity | vm_compute; reflexivity]).
Defined.

(* ===================================================================== *)
(** ** Saving over a storage that honours its contract *)
(* ===================================================================== *)

Section LawfulFacts.
  Context {S : Type} `{LawfulStorage S}.
  Variable clock : nat -> string.
  Variable Date_parse : string -> option Z.
  Implicit Type st : state S.

Lemma write_read k v st st' k' :
    write k v st = (st', None) ->
    getItem k' (localStorage st') =
    if String.eqb k' k then Some v else getItem k' (localStorage st).
  Proof.
    unfold write. destruct (setItem k v (localStorage st)) as [ls x] eqn:E.
    intros [= <- ->]. simpl. apply (getItem_setItem _ _ _ _ E).
  Qed.

Lemma save_writes_read st st1 :
    save_writes Date_parse st = (st1, None) ->
    getItem ACADEMICS (localStorage st1) = Some (Json (JCatalog (snapshot st))).
  Proof.
    unfold save_writes.
    destruct (write ACADEMICS _ st) as [s1 [x|]] eqn:E1; [discriminate|].
    destruct (write NOVELTY_TILES _ s1) as [s2 [x|]] eqn:E2; [discriminate|].
    destruct (write FAVORITES _ s2) as [s3 [x|]] eqn:E3; [discriminate|].
    intros E4.
    rewrite (write_read _ _ _ _ ACADEMICS E4), (write_read _ _ _ _ ACADEMICS E3),
      (write_read _ _ _ _ ACADEMICS E2), (write_read _ _ _ _ ACADEMICS E1).
    reflexivity.
  Qed.

Lemma save_writes_verified st st1 :
    save_writes Date_parse st = (st1, None) -> verified st1 = true.
  Proof. intros E. unfold verified. rewrite (save_writes_read _ _ E). reflexivity. Qed.

Lemma free_space_catalog st :
    heap (snd (free_space Date_parse st)) = heap st
    /\ academics (snd (free_space Date_parse st)) = academics st
    /\ localStorageSupported (snd (free_space Date_parse st)) = localStorageSupported st.
  Proof.
    unfold free_space.
    destruct (20 <? length (noveltyTiles st)).
    - destruct (write NOVELTY_TILES _ _) as [st2 [x|]] eqn:E2;
        apply write_only_storage in E2; destruct E2 as (E2h&E2a&_&_&_&_&E2s&_);
        [simpl; auto|].
      destruct (write ACADEMICS _ st2) as [st3 [x|]] eqn:E3;
        apply write_only_storage in E3; destruct E3 as (E3h&E3a&_&_&_&_&E3s&_);
        simpl in *; repeat split; congruence.
    - destruct (write ACADEMICS _ st) as [st3 [x|]] eqn:E3;
        apply write_only_storage in E3; destruct E3 as (E3h&E3a&_&_&_&_&E3s&_);
        simpl in *; auto.
  Qed.

  (** Over such a storage a save never restores the backup: the object
      store and the catalog are as they were. *)
Lemma saveToLocalStorage_catalog st :
    heap (snd (saveToLocalStorage Date_parse st)) = heap st
    /\ academics (snd (saveToLocalStorage Date_parse st)) = academics st
    /\ localStorageSupported (snd (saveToLocalStorage Date_parse st))
       = localStorageSupported st.
  Proof.
    unfold saveToLocalStorage.
    destruct (negb (localStorageSupported st)); [auto|].
    destruct (save_writes Date_parse (_createBackup st)) as [st1 thrown] eqn:Ew.
    assert (Hos : only_storage st st1).
    { eapply only_storage_trans;
        [apply createBackup_only_storage | eapply save_writes_only_storage, Ew]. }
    destruct Hos as (Hh&Ha&_&_&_&_&Hs&_).
    destruct thrown as [[|]|].
    - destruct (free_space_catalog st1) as (Fh&Fa&Fs). repeat split; congruence.
    - auto.
    - rewrite (save_writes_verified _ _ Ew). auto.
  Qed.

Lemma addNoveltyTile_catalog tile st :
    heap (snd (addNoveltyTile clock Date_parse tile st)) = heap st
    /\ academics (snd (addNoveltyTile clock Date_parse tile st)) = academics st
    /\ localStorageSupported (snd (addNoveltyTile clock Date_parse tile st))
       = localStorageSupported st.
  Proof.
    unfold addNoveltyTile.
    destruct (negb (JS.truthy (Tile.title tile))); [auto|].
    destruct (opt_truthy (Tile.date tile)); simpl;
      match goal with
      | |- context [saveToLocalStorage Date_parse ?s] =>
          destruct (saveToLocalStorage_catalog s) as (Eh&Ea&Es)
      end; rewrite Eh, Ea, Es; auto.
  Qed.
End LawfulFacts.

(** The two bounded-capacity and unbounded storages honour the contract. *)
#[global] Instance QuotaStorage_lawful : LawfulStorage QuotaStorage.t.
Proof.
  constructor. intros k v s s'. simpl. unfold QuotaStorage.set.
  destruct (_ <=? _); [|discriminate].
  intros [= <-] k'. unfold QuotaStorage.get. simpl. apply obj_get_set.
Qed.

#[global] Instance PlainStorage_lawful : LawfulStorage PlainStorage.t.
Proof.
  constructor. intros k v s s'. simpl. unfold PlainStorage.set.
  intros [= <-] k'. apply obj_get_set.
Qed.

Lemma PlainStorage_never_throws : never_throws PlainStorage.t.
Proof. intros k v s. reflexivity. Qed.

(* ===================================================================== *)
(** ** Export and import *)
(* ===================================================================== *)

Section RoundTrip.
  Context {S : Type} `{LawfulStorage S}.
  Variable clock : nat -> string.
  Variable Date_parse : string -> option Z.
  Implicit Type st : state S.

Lemma write_no_throw k v st :
    never_throws S -> snd (write k v st) = None.
  Proof.
    intros Hn. unfold write. specialize (Hn k v (localStorage st)).
    destruct (setItem k v (localStorage st)). exact Hn.
  Qed.

Lemma save_writes_no_throw st :
    never_throws S -> snd (save_writes Date_parse st) = None.
  Proof.
    intros Hn. unfold save_writes.
    repeat match goal with
           | |- context [write ?k ?v ?s] =>
               let E := fresh "E" in
               pose proof (write_no_throw k v s Hn) as E;
               destruct (write k v s) as [? [?|]]; simpl in E; [discriminate E|];
               clear E
           end.
    reflexivity.
  Qed.

Lemma saveToLocalStorage_succeeds st :
    localStorageSupported st = true -> never_throws S ->
    fst (saveToLocalStorage Date_parse st) = true.
  Proof.
    intros Hs Hn. unfold saveToLocalStorage. rewrite Hs. simpl.
    pose proof (save_writes_no_throw (_createBackup st) Hn) as E.
    destruct (save_writes Date_parse (_createBackup st)) as [st1 thrown] eqn:Ew.
    simpl in E. subst thrown. rewrite (save_writes_verified _ _ _ Ew). reflexivity.
  Qed.

Lemma snapshot_grown (c : list (string * ref)) h extra :
    Forall (fun kr => snd kr < length h) c ->
    map (fun kr => (fst kr, deref (h ++ extra) (snd kr))) c
    = map (fun kr => (fst kr, deref h (snd kr))) c.
  Proof.
    intros Hwf. apply map_ext_in. intros [k r] Hin.
    rewrite List.Forall_forall in Hwf. specialize (Hwf _ Hin). simpl in *.
    rewrite deref_app_l by assumption. reflexivity.
  Qed.

  (** C7, as the code has it: over a storage that honours its contract,
      an import of the exported text leaves a catalog equal to the one
      exported; it reports failure when [localStorage] is not supported
      (the catalog put back is that of before), and success when it is
      supported and no write throws. *)
Theorem importFromJSON_exportToJSON st :
    wf st ->
    let exported := exportToJSON clock st in
    let imported := importFromJSON clock Date_parse (fst exported) (snd exported) in
    snapshot (snd imported) = snapshot st
    /\ (localStorageSupported st = false -> fst imported = false)
    /\ (localStorageSupported st = true -> never_throws S -> fst imported = true).
  Proof.
    intros Hwf. unfold exportToJSON, now. simpl. unfold importFromJSON.
    set (st1 := set_ticks (Datatypes.S (ticks st)) st).
    set (st2 := set_taxonomyCategories _ (assign_academics (snapshot st1) st1)).
    destruct (saveToLocalStorage_catalog Date_parse st2) as (Eh & Ea & Es).
    pose proof (saveToLocalStorage_succeeds st2) as Hok.
    assert (Hno : localStorageSupported st = false ->
                  fst (saveToLocalStorage Date_parse st2) = false).
    { intros Hs. unfold saveToLocalStorage.
      replace (localStorageSupported st2) with (localStorageSupported st) by reflexivity.
      rewrite Hs. reflexivity. }
    destruct (saveToLocalStorage Date_parse st2) as [saveSuccess st3].
    simpl in *. destruct saveSuccess; simpl.
    - split; [|split; [intros Hs; specialize (Hno Hs); discriminate | reflexivity]].
      unfold now. simpl.
      match goal with
      | |- context [addNoveltyTile clock Date_parse ?t ?s] =>
          destruct (addNoveltyTile_catalog clock Date_parse t s) as (Th & Ta & _)
      end.
      unfold snapshot at 1. rewrite Th, Ta. simpl. rewrite Eh, Ea.
      apply snapshot_fresh.
    - split; [|split; [reflexivity | intros Hs Hn; apply Hok; assumption]].
      unfold snapshot at 1. simpl. rewrite Eh. simpl.
      apply snapshot_grown. exact Hwf.
  Qed.
End RoundTrip.

(** C7 as stated fails: where [localStorage] is not supported, the import
    of the text just exported from a store of one record reports
    failure. *)
Lemma importFromJSON_fails_without_storage :
  academics Example.unsupported <> []
  /\ fst (importFromJSON frozen_clock IsoDate.parse
            (fst (exportToJSON frozen_clock Example.unsupported))
            (snd (exportToJSON frozen_clock Example.unsupported))) = false.
Proof. split; [discriminate | reflexivity]. Qed.

Lemma importFromJSON_exportToJSON_witness :
  wf Example.fresh
  /\ snapshot (snd (importFromJSON frozen_clock IsoDate.parse
                      (fst (exportToJSON frozen_clock Example.fresh))
                      (snd (exportToJSON frozen_clock Example.fresh))))
     = snapshot Example.fresh
  /\ fst (importFromJSON frozen_clock IsoDate.parse
            (fst (exportToJSON frozen_clock Example.fresh))
            (snd (exportToJSON frozen_clock Example.fresh))) = true.
Proof.
  assert (Hwf : wf Example.fresh) by (repeat constructor).
  split; [exact Hwf|].
  destruct (importFromJSON_exportToJSON frozen_clock IsoDate.parse Example.fresh Hwf)
    as (Hsame & _ & Hok).
  split; [exact Hsame|].
  apply Hok; [reflexivity | exact PlainStorage_never_throws].
Defined.

(* ===================================================================== *)
(** ** Search *)
(* ===================================================================== *)

Lemma includes_indexOf s q : JS.includes s q = true -> (0 <= JS.indexOf s q)%Z.
Proof.
  unfold JS.includes, JS.indexOf. destruct (JS.find_sub s q); [lia|discriminate].
Qed.

Lemma startsWith_refl s : JS.startsWith s s = true.
Proof.
  induction s as [|c s IH]; simpl; [reflexivity|].
  rewrite Ascii.eqb_refl. exact IH.
Qed.

Lemma indexOf_refl s : JS.indexOf s s = 0%Z.
Proof.
  unfold JS.indexOf. destruct s; simpl; [reflexivity|].
  rewrite Ascii.eqb_refl, startsWith_refl. reflexivity.
Qed.

Section SearchFacts.
  Context {S : Type}.
  Variable localeCompare : string -> string -> Z.
  Implicit Type st : state S.

Lemma field_matches_fold criteria a fields init :
  fold_left (field_matches criteria a) fields init
  = init && forallb (field_matches criteria a true) fields.
Proof.
  revert init. induction fields as [|f fields IH]; intros init; simpl.
  - rewrite andb_true_r. reflexivity.
  - rewrite IH. unfold field_matches.
    destruct (criterion criteria f) as [v|]; [|destruct init; reflexivity].
    destruct (JS.obj_get f (taxonomies_of a)) as [values|];
      [|rewrite andb_false_r; reflexivity].
    destruct (existsb _ values); [destruct init; reflexivity|].
    rewrite andb_false_r. reflexivity.
Qed.

Lemma field_matches_spec criteria a field :
  field_matches criteria a true field = true <->
  (forall v, criterion criteria field = Some v ->
     exists values, JS.obj_get field (taxonomies_of a) = Some values
       /\ exists value, In value values
            /\ (JS.includes (JS.toLowerCase value) (JS.toLowerCase v) = true
                \/ JS.includes (JS.toLowerCase v) (JS.toLowerCase value) = true)).
Proof.
  unfold field_matches. destruct (criterion criteria field) as [v|].
  - destruct (JS.obj_get field (taxonomies_of a)) as [values|].
    + destruct (existsb _ values) eqn:E.
      * split; [|reflexivity]. intros _ v' [= <-]. exists values. split; [reflexivity|].
        apply List.existsb_exists in E. destruct E as (value & Hin & Hv).
        exists value. split; [exact Hin|]. apply orb_true_iff in Hv. exact Hv.
      * split; [discriminate|]. intros Hs.
        destruct (Hs v eq_refl) as (values' & [= <-] & value & Hin & Hv).
        assert (existsb (fun value =>
                   JS.includes (JS.toLowerCase value) (JS.toLowerCase v)
                   || JS.includes (JS.toLowerCase v) (JS.toLowerCase value)) values
                = true) as E'.
        { apply List.existsb_exists. exists value. split; [exact Hin|].
          apply orb_true_iff. exact Hv. }
        congruence.
    + split; [discriminate|]. intros Hs.
      destruct (Hs v eq_refl) as (values' & Hg & _). discriminate.
  - split; [|reflexivity]. intros _ v'. discriminate.
Qed.

  (** The test of the loop body is the conjunction of the criteria. *)
Lemma matches_satisfies criteria a : matches criteria a = true <-> satisfies criteria a.
Proof.
  unfold matches, satisfies. rewrite field_matches_fold, andb_true_iff.
  rewrite List.forallb_forall.
  split; intros [Hn Hf]; split.
  - intros q Hq. rewrite Hq in Hn. exact Hn.
  - intros field v Hin Hc.
    exact (proj1 (field_matches_spec criteria a field) (Hf field Hin) v Hc).
  - destruct (criterion criteria "name") as [q|]; [apply Hn|]; reflexivity.
  - intros field Hin. apply (proj2 (field_matches_spec criteria a field)).
    intros v Hc. eapply Hf; eassumption.
Qed.

Lemma criterion_nil field : criterion [] field = None.
Proof. reflexivity. Qed.

  (** C10: with the empty criteria object, [searchAcademics] returns the
      records of the catalog, each once and in the order of
      [Object.values]. *)
Theorem searchAcademics_empty_criteria st :
  searchAcademics localeCompare [] st = JS.obj_values (academics st).
Proof.
  unfold searchAcademics. rewrite criterion_nil.
  induction (JS.obj_values (academics st)) as [|r l IH]; simpl; [reflexivity|].
  f_equal. exact IH.
Qed.

Lemma by_relevance_le q a b :
  JS.includes (JS.toLowerCase (name a)) (JS.toLowerCase q) = true ->
  JS.includes (JS.toLowerCase (name b)) (JS.toLowerCase q) = true ->
  (by_relevance localeCompare (JS.toLowerCase q) a b <= 0)%Z <-> ranked_before q a b.
Proof.
  intros Ha Hb. apply includes_indexOf in Ha, Hb.
  unfold by_relevance, ranked_before, exact_match, match_index.
  set (ea := String.eqb (JS.toLowerCase (name a)) (JS.toLowerCase q)).
  set (eb := String.eqb (JS.toLowerCase (name b)) (JS.toLowerCase q)).
  set (ia := JS.indexOf (JS.toLowerCase (name a)) (JS.toLowerCase q)) in *.
  set (ib := JS.indexOf (JS.toLowerCase (name b)) (JS.toLowerCase q)) in *.
  assert (Hia : (ia =? -1)%Z = false) by (apply Z.eqb_neq; lia).
  assert (Hib : (ib =? -1)%Z = false) by (apply Z.eqb_neq; lia).
  assert (Hea : ea = true -> ia = 0%Z).
  { unfold ea, ia. intros E. apply String.eqb_eq in E. rewrite E. apply indexOf_refl. }
  assert (Heb : eb = true -> ib = 0%Z).
  { unfold eb, ib. intros E. apply String.eqb_eq in E. rewrite E. apply indexOf_refl. }
  rewrite Hia, Hib. destruct ea, eb; simpl; split; intros Hc.
  - left; reflexivity.
  - rewrite Hea, Heb by reflexivity. lia.
  - left; reflexivity.
  - lia.
  - lia.
  - destruct Hc as [Hc|[Hc _]]; discriminate.
  - right. split; [reflexivity | lia].
  - destruct Hc as [Hc|[_ Hc]]; [discriminate | lia].
Qed.

Lemma ranked_before_total q a b : ranked_before q a b \/ ranked_before q b a.
Proof.
  unfold ranked_before. destruct (exact_match q a), (exact_match q b); auto.
  destruct (Z.le_ge_cases (match_index q a) (match_index q b)); auto.
Qed.

Lemma ranked_before_trans q a b c :
  ranked_before q a b -> ranked_before q b c -> ranked_before q a c.
Proof.
  unfold ranked_before. intros [Ha|[Hb Hab]] [Hb'|[Hc Hbc]]; auto.
  - congruence.
  - right. split; [assumption | lia].
Qed.

Lemma same_rank_tie q x a b :
  JS.includes (JS.toLowerCase (name a)) (JS.toLowerCase q) = true ->
  JS.includes (JS.toLowerCase (name b)) (JS.toLowerCase q) = true ->
  same_rank q x a = true -> same_rank q x b = true ->
  (by_relevance localeCompare (JS.toLowerCase q) a b <= 0)%Z.
Proof.
  intros Ha Hb Sa Sb. apply by_relevance_le; [assumption..|].
  unfold same_rank in *. apply andb_true_iff in Sa, Sb.
  destruct Sa as [Ea Ia], Sb as [Eb Ib].
  apply Bool.eqb_prop in Ea, Eb. apply Z.eqb_eq in Ia, Ib.
  unfold ranked_before. destruct (exact_match q a) eqn:E; [left; reflexivity|].
  right. split; [congruence | lia].
Qed.

  (** C8, as the code has it: with a name filter, [searchAcademics]
      returns exactly the records that satisfy every supplied criterion,
      exact name matches first, then by ascending index of the first
      occurrence of the query in the name; records that tie on both keep
      the order of [Object.values].  Hence an exact match, when there is
      one, is ranked first. *)
Theorem searchAcademics_by_name criteria q st :
  criterion criteria "name" = Some q ->
  let results := searchAcademics localeCompare criteria st in
  let record r := deref (heap st) r in
  let found :=
    List.filter (fun r => matches criteria (record r)) (JS.obj_values (academics st)) in
  Permutation results found
  /\ (forall r, In r results <->
        In r (JS.obj_values (academics st)) /\ satisfies criteria (record r))
  /\ StronglySorted (fun a b => ranked_before q (record a) (record b)) results
  /\ (forall x, List.filter (fun r => same_rank q x (record r)) results
                = List.filter (fun r => same_rank q x (record r)) found)
  /\ (forall r, In r results -> exact_match q (record r) = true ->
        exists first, hd_error results = Some first
                      /\ exact_match q (record first) = true).
Proof.
  intros Hq results record found.
  assert (Hres : results
                 = JS.sort (fun a b => by_relevance localeCompare (JS.toLowerCase q)
                                         (record a) (record b)) found).
  { unfold results, searchAcademics. rewrite Hq. reflexivity. }
  assert (Hperm : Permutation results found) by (rewrite Hres; apply sort_perm).
  set (P := fun r : nat =>
              JS.includes (JS.toLowerCase (name (record r))) (JS.toLowerCase q) = true).
  assert (HP : List.Forall P found).
  { apply List.Forall_forall. intros r Hin. apply List.filter_In in Hin.
    destruct Hin as [_ Hm]. apply matches_satisfies in Hm. destruct Hm as [Hn _].
    apply Hn, Hq. }
  assert (Hsorted : StronglySorted (fun a b => ranked_before q (record a) (record b))
                      results).
  { rewrite Hres. apply (sort_sorted _ P); [| |intros x y z; apply ranked_before_trans|exact HP].
    - intros x y Px Py Hc. apply by_relevance_le in Hc; assumption.
    - intros x y Px Py Hc.
      destruct (ranked_before_total q (record x) (record y)) as [Hxy|Hyx]; [|exact Hyx].
      apply by_relevance_le in Hxy; [lia|assumption..]. }
  split; [|split; [|split; [|split]]].
  - exact Hperm.
  - intros r. split.
    + intros Hin. apply (Permutation_in _ Hperm), List.filter_In in Hin.
      destruct Hin as [Hin Hm]. split; [exact Hin | apply matches_satisfies, Hm].
    + intros [Hin Hs]. apply (Permutation_in _ (Permutation_sym Hperm)).
      apply List.filter_In. split; [exact Hin | apply matches_satisfies, Hs].
  - exact Hsorted.
  - intros x. rewrite Hres. apply (sort_stable _ P); [|exact HP].
    intros a b Pa Pb. apply same_rank_tie; assumption.
  - intros r Hin Hex. destruct results as [|first rest]; [destruct Hin|].
    exists first. split; [reflexivity|].
    destruct Hin as [->|Hin]; [exact Hex|].
    inversion Hsorted as [|? ? _ Hfirst]; subst.
    rewrite List.Forall_forall in Hfirst. specialize (Hfirst r Hin).
    destruct Hfirst as [Hf|[Hf _]]; [exact Hf | congruence].
Qed.
End SearchFacts.

(** C8 as stated fails on the last tie-break: "Michel Henry", inserted
    before "Michel Foucault", stays before it in a search for "Michel",
    where both match at index 0 and neither is exact. *)
Lemma searchAcademics_ties_keep_insertion_order :
  criterion [("name", "Michel")] "name" = Some "Michel"
  /\ searchAcademics ascii_compare [("name", "Michel")] Example.michels = [0; 1]
  /\ ~ StronglySorted
         (fun a b => alphabetical_before ascii_compare "Michel"
                       (deref (heap Example.michels) a) (deref (heap Example.michels) b))
         (searchAcademics ascii_compare [("name", "Michel")] Example.michels).
Proof.
  split; [reflexivity|]. split; [reflexivity|].
  change (searchAcademics ascii_compare [("name", "Michel")] Example.michels)
    with [0; 1].
  intros Hs. inversion Hs as [|? ? _ Hfirst]; subst.
  inversion Hfirst as [|? ? Hbefore _]; subst.
  destruct Hbefore as [Hex|[_ [Hlt|[_ Hle]]]].
  - discriminate Hex.
  - vm_compute in Hlt. discriminate Hlt.
  - vm_compute in Hle. apply Hle. reflexivity.
Qed.

Lemma searchAcademics_by_name_witness :
  criterion [("name", "Michel Foucault")] "name" = Some "Michel Foucault"
  /\ searchAcademics ascii_compare [("name", "Michel Foucault")] Example.michels = [1]
  /\ (exists first,
        hd_error (searchAcademics ascii_compare [("name", "Michel Foucault")]
                    Example.michels) = Some first
        /\ exact_match "Michel Foucault" (deref (heap Example.michels) first) = true).
Proof.
  split; [reflexivity|]. split; [reflexivity|].
  destruct (searchAcademics_by_name ascii_compare [("name", "Michel Foucault")]
              "Michel Foucault" Example.michels eq_refl)
    as (_ & _ & _ & _ & Hfirst).
  apply (Hfirst 1); [left|]; reflexivity.
Defined.

(* ===================================================================== *)
(** ** The merge on values *)
(* ===================================================================== *)

Lemma fold_left_fixed {A B : Type} (step : A -> B -> A) (l : list B) (a : A) :
  (forall b, In b l -> step a b = a) -> fold_left step l a = a.
Proof.
  induction l as [|b l IH]; intros Hfix; simpl; [reflexivity|].
  rewrite (Hfix b) by (left; reflexivity). apply IH.
  intros b' Hin. apply Hfix. right. exact Hin.
Qed.

Section AddFacts.
  Context {A : Type} (same : A -> A -> bool).
  Implicit Types xs candidates : list A.

Lemma add_if_absent_keeps xs x : exists extra, add_if_absent same xs x = xs ++ extra.
Proof.
  unfold add_if_absent. destruct (existsb (same x) xs).
  - exists []. rewrite app_nil_r. reflexivity.
  - exists [x]. reflexivity.
Qed.

Lemma add_all_keeps candidates xs : exists extra, add_all same candidates xs = xs ++ extra.
Proof.
  unfold add_all. revert xs. induction candidates as [|c cs IH]; intros xs; simpl.
  - exists []. rewrite app_nil_r. reflexivity.
  - destruct (add_if_absent_keeps xs c) as [e1 ->].
    destruct (IH (xs ++ e1)) as [e2 ->]. exists (e1 ++ e2).
    rewrite app_assoc. reflexivity.
Qed.

Lemma existsb_add_all f candidates xs :
  existsb f xs = true -> existsb f (add_all same candidates xs) = true.
Proof.
  intros Hf. destruct (add_all_keeps candidates xs) as [extra ->].
  rewrite existsb_app, Hf. reflexivity.
Qed.

Lemma add_all_fixed candidates xs :
  (forall c, In c candidates -> existsb (same c) xs = true) ->
  add_all same candidates xs = xs.
Proof.
  intros Hall. apply fold_left_fixed. intros c Hin.
  unfold add_if_absent. rewrite (Hall c Hin). reflexivity.
Qed.

  Hypothesis same_refl : forall x, same x x = true.

Lemma add_if_absent_covers xs x : existsb (same x) (add_if_absent same xs x) = true.
Proof.
  unfold add_if_absent. destruct (existsb (same x) xs) eqn:E; [exact E|].
  rewrite existsb_app. simpl. rewrite same_refl, orb_true_r. reflexivity.
Qed.

Lemma add_all_covers candidates xs c :
  In c candidates -> existsb (same c) (add_all same candidates xs) = true.
Proof.
  unfold add_all. revert xs. induction candidates as [|c' cs IH]; intros xs; simpl;
    [tauto|].
  intros [->|Hin]; [|apply IH, Hin].
  apply (existsb_add_all _ cs), add_if_absent_covers.
Qed.

Lemma add_all_idempotent candidates xs :
  add_all same candidates (add_all same candidates xs) = add_all same candidates xs.
Proof. apply add_all_fixed. intros c Hin. apply add_all_covers, Hin. Qed.

Lemma add_all_self xs : add_all same xs xs = xs.
Proof.
  apply add_all_fixed. intros c Hin. apply List.existsb_exists.
  exists c. split; [exact Hin | apply same_refl].
Qed.

Lemma merged_list_idempotent a x :
  merged_list same a (merged_list same a x) = merged_list same a x.
Proof.
  unfold merged_list. destruct a as [[|c cs]|]; try reflexivity.
  cbv beta iota. rewrite add_all_idempotent. reflexivity.
Qed.

Lemma merged_list_self x : merged_list same x x = x.
Proof.
  unfold merged_list. destruct x as [[|c cs]|]; try reflexivity.
  cbv beta iota. rewrite (add_all_self (c :: cs)). reflexivity.
Qed.
End AddFacts.

Lemma same_paper_refl p : same_paper p p = true.
Proof.
  unfold same_paper. rewrite String.eqb_refl. simpl.
  destruct (Paper.year p) as [y|]; simpl; [|reflexivity].
  rewrite Z.eqb_refl, orb_true_r. reflexivity.
Qed.

Lemma same_event_refl e : same_event e e = true.
Proof.
  unfold same_event. rewrite String.eqb_refl. simpl.
  destruct (Event.year e) as [y|]; simpl; [|reflexivity].
  rewrite Z.eqb_refl, orb_true_r. reflexivity.
Qed.

Lemma opt_string_eqb_refl s : opt_string_eqb s s = true.
Proof. destruct s; simpl; [apply String.eqb_refl | reflexivity]. Qed.

Lemma merged_bio_idempotent a x : merged_bio a (merged_bio a x) = merged_bio a x.
Proof.
  unfold merged_bio. destruct (opt_truthy a) eqn:Ta; simpl; [|reflexivity].
  destruct (opt_string_eqb a x) eqn:E; simpl.
  - rewrite E. reflexivity.
  - rewrite opt_string_eqb_refl. reflexivity.
Qed.

Lemma merged_bio_self x : merged_bio x x = x.
Proof.
  unfold merged_bio. rewrite opt_string_eqb_refl, andb_false_r. reflexivity.
Qed.

Section ObjectSetFacts.
  Context {V : Type}.
  Implicit Type o : list (string * V).

Lemma obj_replace_id k v o : JS.obj_get k o = Some v -> JS.obj_replace k v o = o.
Proof.
  induction o as [|[k0 v0] o IH]; simpl; [reflexivity|].
  destruct (String.eqb k k0) eqn:E.
  - intros [= ->]. reflexivity.
  - intros Hg. rewrite (IH Hg). reflexivity.
Qed.

Lemma obj_set_id k v o : JS.obj_get k o = Some v -> JS.obj_set k v o = o.
Proof. intros Hg. unfold JS.obj_set. rewrite Hg. apply obj_replace_id, Hg. Qed.

Lemma obj_replace_replace k v w o :
  JS.obj_replace k w (JS.obj_replace k v o) = JS.obj_replace k w o.
Proof.
  induction o as [|[k0 v0] o IH]; simpl; [reflexivity|].
  destruct (String.eqb k k0) eqn:E; simpl; rewrite E; [reflexivity|].
  rewrite IH. reflexivity.
Qed.

Lemma obj_replace_add k v w o :
  JS.obj_get k o = None -> JS.obj_replace k w (JS.obj_add k v o) = JS.obj_add k w o.
Proof.
  induction o as [|[k0 v0] o IH]; simpl.
  - rewrite String.eqb_refl. reflexivity.
  - destruct (String.eqb k k0) eqn:E; [discriminate|]. intros Hg.
    destruct (JS.array_index k) as [i|], (JS.array_index k0) as [j|]; simpl;
      try destruct (i <? j)%Z; simpl;
      rewrite ?String.eqb_refl, ?E, ?(IH Hg); reflexivity.
Qed.

Lemma obj_set_set k v w o : JS.obj_set k w (JS.obj_set k v o) = JS.obj_set k w o.
Proof.
  unfold JS.obj_set at 1. rewrite obj_get_set_eq. unfold JS.obj_set.
  destruct (JS.obj_get k o) eqn:E.
  - apply obj_replace_replace.
  - apply obj_replace_add, E.
Qed.
End ObjectSetFacts.

Section TaxonomyFacts.
  Implicit Types t o : list (string * list string).

Lemma add_value_set category o vs value :
  JS.obj_get category o = Some vs ->
  add_value category o value
  = JS.obj_set category (add_if_absent String.eqb vs value) o.
Proof.
  intros Hg. unfold add_value, add_if_absent, array_includes. rewrite Hg.
  destruct (existsb (String.eqb value) vs); [|reflexivity].
  symmetry. apply obj_set_id, Hg.
Qed.

Lemma add_values_set category values : forall o vs,
  JS.obj_get category o = Some vs ->
  fold_left (add_value category) values o
  = JS.obj_set category (add_all String.eqb values vs) o.
Proof.
  induction values as [|v values IH]; intros o vs Hg; simpl.
  - symmetry. apply obj_set_id, Hg.
  - rewrite (add_value_set _ _ _ _ Hg).
    rewrite (IH _ (add_if_absent String.eqb vs v)) by apply obj_get_set_eq.
    apply obj_set_set.
Qed.

  (** A round of the loop over the categories sets one property. *)
Lemma add_category_set t o category :
  add_category t o category
  = JS.obj_set category
      (add_all String.eqb (values_in t category) (values_in o category)) o.
Proof.
  unfold add_category, values_in.
  destruct (JS.obj_get category o) as [vs|] eqn:Ho.
  - destruct (JS.obj_get category t) as [values|].
    + apply add_values_set, Ho.
    + symmetry. apply obj_set_id, Ho.
  - destruct (JS.obj_get category t) as [values|]; [|reflexivity].
    rewrite (add_values_set _ _ _ []) by apply obj_get_set_eq.
    apply obj_set_set.
Qed.

Lemma covers_values_in o category values :
  covers o category values ->
  JS.obj_get category o = Some (values_in o category)
  /\ forall v, In v values -> array_includes v (values_in o category) = true.
Proof. intros (vs & Hg & Hin). unfold values_in. rewrite Hg. auto. Qed.

Lemma add_category_covers t o category :
  covers (add_category t o category) category (values_in t category).
Proof.
  rewrite add_category_set. eexists. split; [apply obj_get_set_eq|].
  intros v Hin. apply (add_all_covers String.eqb String.eqb_refl), Hin.
Qed.

Lemma add_category_keeps t o category category' values :
  covers o category' values -> covers (add_category t o category) category' values.
Proof.
  intros Hc. destruct (covers_values_in _ _ _ Hc) as [Hg Hin].
  rewrite add_category_set. unfold covers. rewrite obj_get_set.
  destruct (String.eqb category' category) eqn:E.
  - apply String.eqb_eq in E. subst category'. eexists. split; [reflexivity|].
    intros v Hv. apply existsb_add_all, Hin, Hv.
  - eexists. split; [exact Hg | exact Hin].
Qed.

Lemma add_category_fixed t o category :
  covers o category (values_in t category) -> add_category t o category = o.
Proof.
  intros Hc. destruct (covers_values_in _ _ _ Hc) as [Hg Hin].
  rewrite add_category_set, add_all_fixed by exact Hin.
  apply obj_set_id, Hg.
Qed.

Lemma add_categories_cover t categories : forall o category,
  In category categories \/ covers o category (values_in t category) ->
  covers (fold_left (add_category t) categories o) category (values_in t category).
Proof.
  induction categories as [|c cs IH]; intros o category Hc; simpl.
  - destruct Hc as [[]|Hc]. exact Hc.
  - apply IH. destruct (String.eqb category c) eqn:E.
    + apply String.eqb_eq in E. subst c. right. apply add_category_covers.
    + destruct Hc as [[->|Hin]|Hc].
      * rewrite String.eqb_refl in E. discriminate.
      * left. exact Hin.
      * right. apply add_category_keeps, Hc.
Qed.

Lemma merged_taxonomies_idempotent a x :
  merged_taxonomies a (merged_taxonomies a x) = merged_taxonomies a x.
Proof.
  unfold merged_taxonomies. destruct a as [t|]; [|reflexivity]. f_equal.
  apply fold_left_fixed. intros c Hin.
  apply add_category_fixed, add_categories_cover. left. exact Hin.
Qed.

Lemma merged_taxonomies_self x : merged_taxonomies x x = x.
Proof.
  unfold merged_taxonomies. destruct x as [t|]; [|reflexivity]. f_equal.
  apply fold_left_fixed. intros c Hin. apply add_category_fixed.
  destruct (obj_get_keys _ _ Hin) as [vs Hg]. exists vs. split; [exact Hg|].
  unfold values_in. rewrite Hg. intros v Hv. apply List.existsb_exists.
  exists v. split; [exact Hv | apply String.eqb_refl].
Qed.
End TaxonomyFacts.

(** Merging the same candidate value twice is merging it once, and a
    record merged into itself is unchanged. *)
Lemma merged_idempotent a x : merged a (merged a x) = merged a x.
Proof.
  unfold merged. simpl.
  rewrite merged_bio_idempotent, merged_taxonomies_idempotent.
  rewrite (merged_list_idempotent _ same_paper_refl),
    (merged_list_idempotent _ same_event_refl),
    (merged_list_idempotent _ String.eqb_refl).
  reflexivity.
Qed.

Lemma merged_self x : merged x x = x.
Proof.
  unfold merged.
  rewrite merged_bio_self, merged_taxonomies_self.
  rewrite (merged_list_self _ same_paper_refl), (merged_list_self _ same_event_refl),
    (merged_list_self _ String.eqb_refl).
  destruct x. reflexivity.
Qed.

(* ===================================================================== *)
(** ** The merge in the object store *)
(* ===================================================================== *)

Lemma lookup_deref h e x : h !! e = Some x -> deref h e = x.
Proof. intros Hx. unfold deref. rewrite Hx. reflexivity. Qed.

Lemma deref_lookup h e : e < length h -> h !! e = Some (deref h e).
Proof.
  intros He. unfold deref. destruct (h !! e) as [x|] eqn:Hx; [reflexivity|].
  apply lookup_ge_None in Hx. lia.
Qed.

Lemma alter_insert (f : Academic -> Academic) (e : nat) (h : list Academic) x :
  h !! e = Some x -> alter f e h = <[e := f x]> h.
Proof.
  revert e. induction h as [|y h IH]; intros [|e] Hx; simpl in *; try discriminate.
  - injection Hx as ->. reflexivity.
  - f_equal. apply IH, Hx.
Qed.

Lemma deref_insert_eq h e x y : h !! e = Some x -> deref (<[e := y]> h) e = y.
Proof.
  intros Hx. unfold deref. rewrite list_lookup_insert_eq; [reflexivity|].
  eapply lookup_lt_Some, Hx.
Qed.

Lemma lookup_insert_same (h : list Academic) (e : nat) (x y : Academic) :
  h !! e = Some x -> <[e := y]> h !! e = Some y.
Proof. intros Hx. apply list_lookup_insert_eq. eapply lookup_lt_Some, Hx. Qed.

Lemma deref_insert_ne h e r (y : Academic) : e <> r -> deref (<[e := y]> h) r = deref h r.
Proof. intros Hne. unfold deref. rewrite list_lookup_insert_ne by exact Hne. reflexivity. Qed.

Section ListField.
  Context {A : Type}.
  Variable get : Academic -> option (list A).
  Variable set : option (list A) -> Academic -> Academic.
  Variable same : A -> A -> bool.
  Variable merge_item : ref -> list Academic -> A -> list Academic.
  Variable merge_field : ref -> ref -> list Academic -> list Academic.

  (** The shape shared by the merges of papers, events and connections. *)
  Hypothesis merge_item_def : forall e h v,
    merge_item e h v =
    if existsb (same v) (match get (deref h e) with Some l => l | None => [] end)
    then h
    else alter (fun x => set (Some ((match get x with Some l => l | None => [] end)
                                      ++ [v])) x) e h.
  Hypothesis merge_field_def : forall r e h,
    merge_field r e h =
    match get (deref h r) with
    | Some (_ :: _) =>
        let h1 :=
          match get (deref h e) with
          | Some _ => h
          | None => alter (set (Some [])) e h
          end in
        fold_left (merge_item e) (match get (deref h1 r) with Some l => l | None => [] end)
          h1
    | _ => h
    end.
  Hypothesis get_set : forall v x, get (set v x) = v.
  Hypothesis set_get : forall x, set (get x) x = x.
  Hypothesis set_set : forall v w x, set v (set w x) = set v x.

Lemma merge_item_insert e h v x xs :
  h !! e = Some x -> get x = Some xs ->
  merge_item e h v = <[e := set (Some (add_if_absent same xs v)) x]> h.
Proof.
  intros Hx Hg. rewrite merge_item_def, (lookup_deref _ _ _ Hx), Hg.
  unfold add_if_absent. destruct (existsb (same v) xs).
  - rewrite <- Hg, set_get. symmetry. apply list_insert_id, Hx.
  - rewrite (alter_insert _ _ _ _ Hx), Hg. reflexivity.
Qed.

Lemma merge_items_insert e vs : forall h x xs,
  h !! e = Some x -> get x = Some xs ->
  fold_left (merge_item e) vs h = <[e := set (Some (add_all same vs xs)) x]> h.
Proof.
  induction vs as [|v vs IH]; intros h x xs Hx Hg; simpl.
  - rewrite <- Hg, set_get. symmetry. apply list_insert_id, Hx.
  - rewrite (merge_item_insert _ _ _ _ _ Hx Hg).
    rewrite (IH _ _ (add_if_absent same xs v) (lookup_insert_same _ _ _ _ Hx)
               (get_set _ _)).
    rewrite list_insert_insert_eq, set_set. reflexivity.
Qed.

Lemma merge_field_ne r e h x :
  r <> e -> h !! e = Some x ->
  merge_field r e h = <[e := set (merged_list same (get (deref h r)) (get x)) x]> h.
Proof.
  intros Hne Hx. rewrite merge_field_def. unfold merged_list.
  destruct (get (deref h r)) as [[|c cs]|] eqn:Ha;
    try (rewrite set_get; symmetry; apply list_insert_id, Hx).
  rewrite (lookup_deref _ _ _ Hx). cbv zeta.
  destruct (get x) as [xs|] eqn:Hg.
  - rewrite Ha. apply (merge_items_insert _ _ _ _ _ Hx Hg).
  - rewrite (alter_insert _ _ _ _ Hx), deref_insert_ne, Ha by congruence.
    rewrite (merge_items_insert _ _ _ _ [] (lookup_insert_same _ _ _ _ Hx)
               (get_set _ _)).
    rewrite list_insert_insert_eq, set_set. reflexivity.
Qed.

  Hypothesis same_refl : forall v, same v v = true.

Lemma merge_field_self e h : merge_field e e h = h.
Proof.
  rewrite merge_field_def. destruct (get (deref h e)) as [[|c cs]|] eqn:Ha;
    try reflexivity.
  cbv zeta. rewrite Ha. apply fold_left_fixed. intros v Hin.
  rewrite merge_item_def, Ha.
  replace (existsb (same v) (c :: cs)) with true; [reflexivity|].
  symmetry. apply List.existsb_exists. exists v. split; [exact Hin | apply same_refl].
Qed.
End ListField.

Lemma set_bio_id x : set_bio (bio x) x = x.
Proof. destruct x. reflexivity. Qed.

Lemma set_taxonomies_id x : set_taxonomies (taxonomies x) x = x.
Proof. destruct x. reflexivity. Qed.

Lemma merge_bio_insert r e h x :
  h !! e = Some x ->
  merge_bio r e h = <[e := set_bio (merged_bio (bio (deref h r)) (bio x)) x]> h.
Proof.
  intros Hx. unfold merge_bio, merged_bio. rewrite (lookup_deref _ _ _ Hx).
  destruct (opt_truthy (bio (deref h r)) && negb (opt_string_eqb (bio (deref h r)) (bio x))).
  - apply alter_insert, Hx.
  - rewrite set_bio_id. symmetry. apply list_insert_id, Hx.
Qed.

Lemma merge_bio_self e h : merge_bio e e h = h.
Proof.
  unfold merge_bio. rewrite opt_string_eqb_refl, andb_false_r. reflexivity.
Qed.

Lemma taxonomies_of_some x o : taxonomies x = Some o -> taxonomies_of x = o.
Proof. intros Ho. unfold taxonomies_of. rewrite Ho. reflexivity. Qed.

Lemma merge_value_insert category e h value x o :
  h !! e = Some x -> taxonomies x = Some o ->
  merge_value e category h value
  = <[e := set_taxonomies (Some (add_value category o value)) x]> h.
Proof.
  intros Hx Ho. unfold merge_value, add_value, taxonomies_of.
  rewrite (lookup_deref _ _ _ Hx), Ho.
  destruct (JS.obj_get category o) as [values|] eqn:Hg.
  - destruct (array_includes value values).
    + rewrite <- Ho, set_taxonomies_id. symmetry. apply list_insert_id, Hx.
    + rewrite (alter_insert _ _ _ _ Hx). unfold push_value, set_category, taxonomies_of.
      rewrite Ho, Hg. reflexivity.
  - rewrite <- Ho, set_taxonomies_id. symmetry. apply list_insert_id, Hx.
Qed.

Lemma merge_values_insert category e values : forall h x o,
  h !! e = Some x -> taxonomies x = Some o ->
  fold_left (merge_value e category) values h
  = <[e := set_taxonomies (Some (fold_left (add_value category) values o)) x]> h.
Proof.
  induction values as [|v values IH]; intros h x o Hx Ho; simpl.
  - rewrite <- Ho, set_taxonomies_id. symmetry. apply list_insert_id, Hx.
  - rewrite (merge_value_insert _ _ _ _ _ _ Hx Ho).
    rewrite (IH _ (set_taxonomies (Some (add_value category o v)) x)
               (add_value category o v) (lookup_insert_same _ _ _ _ Hx) eq_refl).
    rewrite list_insert_insert_eq. reflexivity.
Qed.

Lemma merge_category_ne r e h category x o :
  r <> e -> h !! e = Some x -> taxonomies x = Some o ->
  merge_category r e h category
  = <[e := set_taxonomies
             (Some (add_category (taxonomies_of (deref h r)) o category)) x]> h.
Proof.
  intros Hne Hx Ho. unfold merge_category, add_category.
  rewrite (lookup_deref _ _ _ Hx), (taxonomies_of_some _ _ Ho). cbv zeta.
  destruct (JS.obj_get category o) as [vs|] eqn:Hg.
  - destruct (JS.obj_get category (taxonomies_of (deref h r))) as [values|].
    + apply (merge_values_insert _ _ _ _ _ _ Hx Ho).
    + rewrite <- Ho, set_taxonomies_id. symmetry. apply list_insert_id, Hx.
  - rewrite (alter_insert _ _ _ _ Hx), deref_insert_ne by congruence.
    unfold set_category. rewrite (taxonomies_of_some _ _ Ho).
    destruct (JS.obj_get category (taxonomies_of (deref h r))) as [values|];
      [|reflexivity].
    rewrite (merge_values_insert _ _ _ _
               (set_taxonomies (Some (JS.obj_set category [] o)) x)
               (JS.obj_set category [] o) (lookup_insert_same _ _ _ _ Hx) eq_refl).
    rewrite list_insert_insert_eq. reflexivity.
Qed.

Lemma merge_categories_ne r e categories : forall h x o,
  r <> e -> h !! e = Some x -> taxonomies x = Some o ->
  fold_left (merge_category r e) categories h
  = <[e := set_taxonomies
             (Some (fold_left (add_category (taxonomies_of (deref h r))) categories o))
             x]> h.
Proof.
  induction categories as [|c cs IH]; intros h x o Hne Hx Ho; simpl.
  - rewrite <- Ho, set_taxonomies_id. symmetry. apply list_insert_id, Hx.
  - rewrite (merge_category_ne _ _ _ _ _ _ Hne Hx Ho).
    rewrite (IH _ (set_taxonomies
                     (Some (add_category (taxonomies_of (deref h r)) o c)) x)
               (add_category (taxonomies_of (deref h r)) o c) Hne
               (lookup_insert_same _ _ _ _ Hx) eq_refl).
    rewrite list_insert_insert_eq, deref_insert_ne by congruence. reflexivity.
Qed.

Lemma merge_taxonomies_ne r e h x :
  r <> e -> h !! e = Some x ->
  merge_taxonomies r e h
  = <[e := set_taxonomies
             (merged_taxonomies (taxonomies (deref h r)) (taxonomies x)) x]> h.
Proof.
  intros Hne Hx. unfold merge_taxonomies, merged_taxonomies.
  destruct (taxonomies (deref h r)) as [t|] eqn:Ht;
    [|rewrite set_taxonomies_id; symmetry; apply list_insert_id, Hx].
  rewrite (lookup_deref _ _ _ Hx).
  destruct (taxonomies x) as [o|] eqn:Ho.
  - rewrite (merge_categories_ne _ _ _ _ _ _ Hne Hx Ho).
    unfold taxonomies_of. rewrite Ht. reflexivity.
  - rewrite (alter_insert _ _ _ _ Hx).
    rewrite (merge_categories_ne _ _ _ _ (set_taxonomies (Some []) x) [] Hne
               (lookup_insert_same _ _ _ _ Hx) eq_refl).
    rewrite list_insert_insert_eq, deref_insert_ne by congruence.
    unfold taxonomies_of. rewrite Ht. reflexivity.
Qed.

Lemma merge_taxonomies_self e h : merge_taxonomies e e h = h.
Proof.
  unfold merge_taxonomies. destruct (taxonomies (deref h e)) as [t|] eqn:Ht;
    [|reflexivity].
  apply fold_left_fixed. intros c Hin. unfold merge_category. cbv zeta.
  destruct (obj_get_keys _ _ Hin) as [values Hg].
  rewrite (taxonomies_of_some _ _ Ht), Hg. cbv iota beta.
  rewrite (taxonomies_of_some _ _ Ht), Hg.
  apply fold_left_fixed. intros v Hv. unfold merge_value.
  rewrite (taxonomies_of_some _ _ Ht), Hg.
  replace (array_includes v values) with true; [reflexivity|].
  symmetry. apply List.existsb_exists. exists v. split; [exact Hv | apply String.eqb_refl].
Qed.

Lemma merge_papers_ne r e h x :
  r <> e -> h !! e = Some x ->
  merge_papers r e h
  = <[e := set_papers (merged_list same_paper (papers (deref h r)) (papers x)) x]> h.
Proof.
  apply (merge_field_ne papers set_papers same_paper merge_paper merge_papers);
    try reflexivity; intros; destruct x0; reflexivity.
Qed.

Lemma merge_events_ne r e h x :
  r <> e -> h !! e = Some x ->
  merge_events r e h
  = <[e := set_events (merged_list same_event (events (deref h r)) (events x)) x]> h.
Proof.
  apply (merge_field_ne events set_events same_event merge_event merge_events);
    try reflexivity; intros; destruct x0; reflexivity.
Qed.

Lemma merge_connections_ne r e h x :
  r <> e -> h !! e = Some x ->
  merge_connections r e h
  = <[e := set_connections
             (merged_list String.eqb (connections (deref h r)) (connections x)) x]> h.
Proof.
  apply (merge_field_ne connections set_connections String.eqb merge_connection
           merge_connections);
    try reflexivity; intros; destruct x0; reflexivity.
Qed.

(** The merge of a candidate into another object replaces that object by
    the merged value. *)
Lemma merge_into_ne r e h x :
  r <> e -> h !! e = Some x -> merge_into r e h = <[e := merged (deref h r) x]> h.
Proof.
  intros Hne Hx. unfold merge_into.
  rewrite (merge_bio_insert _ _ _ _ Hx).
  rewrite (merge_taxonomies_ne _ _ _ _ Hne (lookup_insert_same _ _ _ _ Hx)).
  rewrite list_insert_insert_eq, deref_insert_ne by congruence.
  rewrite (merge_papers_ne _ _ _ _ Hne (lookup_insert_same _ _ _ _ Hx)).
  rewrite list_insert_insert_eq, deref_insert_ne by congruence.
  rewrite (merge_events_ne _ _ _ _ Hne (lookup_insert_same _ _ _ _ Hx)).
  rewrite list_insert_insert_eq, deref_insert_ne by congruence.
  rewrite (merge_connections_ne _ _ _ _ Hne (lookup_insert_same _ _ _ _ Hx)).
  rewrite list_insert_insert_eq, deref_insert_ne by congruence.
  destruct x. reflexivity.
Qed.

(** The merge of a stored record into itself writes nothing. *)
Lemma merge_into_self e h : merge_into e e h = h.
Proof.
  unfold merge_into.
  rewrite merge_bio_self, merge_taxonomies_self.
  rewrite (merge_field_self papers set_papers same_paper merge_paper merge_papers)
    by (reflexivity || apply same_paper_refl).
  rewrite (merge_field_self events set_events same_event merge_event merge_events)
    by (reflexivity || apply same_event_refl).
  rewrite (merge_field_self connections set_connections String.eqb merge_connection
             merge_connections)
    by (reflexivity || apply String.eqb_refl).
  reflexivity.
Qed.

(* ===================================================================== *)
(** ** addOrUpdateAcademic *)
(* ===================================================================== *)

Section HeapFacts.
  Context {S : Type} `{WebStorage S}.
  Variable clock : nat -> string.
  Variable Date_parse : string -> option Z.
  Implicit Type st : state S.

Lemma restoreFromBackup_heap st :
  exists extra, heap (snd (_restoreFromBackup st)) = heap st ++ extra.
Proof.
  unfold _restoreFromBackup.
  destruct (negb (localStorageSupported st));
    [exists []; rewrite app_nil_r; reflexivity|].
  destruct (getItem ACADEMICS_BACKUP (localStorage st)) as [t|];
    [|exists []; rewrite app_nil_r; reflexivity].
  destruct (negb (text_truthy t)); [exists []; rewrite app_nil_r; reflexivity|].
  destruct t as [v|s]; [|exists []; rewrite app_nil_r; reflexivity].
  destruct v; try (exists []; rewrite app_nil_r; reflexivity).
  exists (map snd c).
  destruct (write ACADEMICS _ _) as [st2 [x|]] eqn:E; simpl;
    apply write_only_storage in E; destruct E as (->&_); reflexivity.
Qed.

  (** A save writes to no object of the store; when it restores the
      backup it adds the objects parsed from it. *)
Lemma saveToLocalStorage_heap st :
  exists extra, heap (snd (saveToLocalStorage Date_parse st)) = heap st ++ extra.
Proof.
  unfold saveToLocalStorage.
  destruct (negb (localStorageSupported st));
    [exists []; rewrite app_nil_r; reflexivity|].
  destruct (save_writes Date_parse (_createBackup st)) as [st1 thrown] eqn:Ew.
  assert (Hh : heap st1 = heap st).
  { apply save_writes_only_storage in Ew. destruct Ew as (Ew&_).
    destruct (createBackup_only_storage st) as (Eb&_). congruence. }
  destruct thrown as [[|]|].
  - exists []. rewrite app_nil_r, <- Hh. unfold free_space.
    destruct (20 <? length (noveltyTiles st1)).
    + destruct (write NOVELTY_TILES _ _) as [st2 [x|]] eqn:E2;
        apply write_only_storage in E2; destruct E2 as (E2&_); [exact E2|].
      destruct (write ACADEMICS _ st2) as [st3 [x|]] eqn:E3;
        apply write_only_storage in E3; destruct E3 as (E3&_);
        simpl in *; congruence.
    + destruct (write ACADEMICS _ st1) as [st3 [x|]] eqn:E3;
        apply write_only_storage in E3; destruct E3 as (E3&_); exact E3.
  - exists []. rewrite app_nil_r. exact Hh.
  - destruct (verified st1); simpl.
    + exists []. rewrite app_nil_r. exact Hh.
    + destruct (restoreFromBackup_heap st1) as [extra ->]. exists extra. congruence.
Qed.

  (** C6: merging a candidate whose papers are [{title: "Of Grammatology",
      year: 1967}] into a stored record that has a paper
      [{title: "of grammatology", year: 1967}] succeeds and leaves the
      papers of that record, and so their number, as they were. *)
Theorem addOrUpdateAcademic_dedups_paper st r e coauthors :
  let academic := deref (heap st) r in
  JS.truthy (name academic) = true ->
  papers academic = Some [Paper.mk "Of Grammatology" (Some 1967%Z) coauthors] ->
  JS.obj_get (_normalizeNameKey (name academic)) (academics st) = Some e ->
  (exists stored, In stored (papers_of (deref (heap st) e))
                  /\ Paper.title stored = "of grammatology"
                  /\ Paper.year stored = Some 1967%Z) ->
  let st' := snd (addOrUpdateAcademic clock Date_parse r st) in
  fst (addOrUpdateAcademic clock Date_parse r st) = true
  /\ papers (deref (heap st') e) = papers (deref (heap st) e)
  /\ length (papers_of (deref (heap st') e)) = length (papers_of (deref (heap st) e)).
Proof.
  intros academic Hname Hpapers Hkey (stored & Hin & Htitle & Hyear) st'.
  assert (Hsame : same_paper (Paper.mk "Of Grammatology" (Some 1967%Z) coauthors) stored
                  = true).
  { unfold same_paper. rewrite Htitle, Hyear. reflexivity. }
  assert (Hne : r <> e).
  { intros ->. fold academic in Hin. unfold papers_of in Hin. rewrite Hpapers in Hin.
    destruct Hin as [<-|[]]. discriminate Htitle. }
  destruct (heap st !! e) as [x|] eqn:Hx;
    [|unfold deref in Hin; rewrite Hx in Hin; destruct Hin].
  rewrite (lookup_deref _ _ _ Hx) in *.
  assert (Hst' : fst (addOrUpdateAcademic clock Date_parse r st) = true
                 /\ exists extra, heap st' = <[e := merged academic x]> (heap st) ++ extra).
  { unfold st', addOrUpdateAcademic. fold academic. rewrite Hname, Hkey. simpl.
    split; [reflexivity|].
    rewrite (merge_into_ne _ _ _ _ Hne Hx).
    apply (saveToLocalStorage_heap (set_heap _ st)). }
  destruct Hst' as [Hok [extra Hheap]].
  assert (Hpap : papers (deref (heap st') e) = papers x).
  { rewrite Hheap, deref_app_l
      by (rewrite length_insert; eapply lookup_lt_Some, Hx).
    rewrite (deref_insert_eq _ _ _ _ Hx). simpl. rewrite Hpapers.
    unfold merged_list, add_all, papers_of in *. simpl. unfold add_if_absent.
    destruct (papers x) as [ps|]; [|destruct Hin].
    replace (existsb _ ps) with true; [reflexivity|].
    symmetry. apply List.existsb_exists. exists stored. split; assumption. }
  split; [exact Hok|]. split; [exact Hpap|].
  unfold papers_of. rewrite Hpap. reflexivity.
Qed.
End HeapFacts.

Lemma addOrUpdateAcademic_dedups_paper_witness :
  JS.truthy (name (deref (heap Example.dedup) 1)) = true
  /\ papers (deref (heap Example.dedup) 1)
     = Some [Paper.mk "Of Grammatology" (Some 1967%Z) []]
  /\ JS.obj_get (_normalizeNameKey (name (deref (heap Example.dedup) 1)))
       (academics Example.dedup) = Some 0
  /\ In (Paper.mk "of grammatology" (Some 1967%Z) [])
       (papers_of (deref (heap Example.dedup) 0))
  /\ fst (addOrUpdateAcademic frozen_clock IsoDate.parse 1 Example.dedup) = true
  /\ length (papers_of
               (deref (heap (snd (addOrUpdateAcademic frozen_clock IsoDate.parse 1
                                    Example.dedup))) 0))
     = length (papers_of (deref (heap Example.dedup) 0)).
Proof.
  split; [reflexivity|]. split; [reflexivity|]. split; [reflexivity|].
  split; [left; reflexivity|].
  destruct (addOrUpdateAcademic_dedups_paper frozen_clock IsoDate.parse Example.dedup
              1 0 []) as (Hok & _ & Hlen).
  - reflexivity.
  - reflexivity.
  - reflexivity.
  - exists (Paper.mk "of grammatology" (Some 1967%Z) []).
    split; [left; reflexivity | split; reflexivity].
  - split; [exact Hok | exact Hlen].
Defined.

Section MergeEngine.
  Context {S : Type} `{LawfulStorage S}.
  Variable clock : nat -> string.
  Variable Date_parse : string -> option Z.
  Implicit Type st : state S.

  (** Over a storage that honours its contract, what a call leaves in
      memory: the merge into the record found under the key, or the
      candidate itself under a new key. *)
Lemma addOrUpdateAcademic_effect st r :
  JS.truthy (name (deref (heap st) r)) = true ->
  let st' := snd (addOrUpdateAcademic clock Date_parse r st) in
  let key := _normalizeNameKey (name (deref (heap st) r)) in
  fst (addOrUpdateAcademic clock Date_parse r st) = true
  /\ localStorageSupported st' = localStorageSupported st
  /\ match JS.obj_get key (academics st) with
     | Some e => heap st' = merge_into r e (heap st) /\ academics st' = academics st
     | None => heap st' = heap st /\ academics st' = JS.obj_set key r (academics st)
     end.
Proof.
  intros Hname st' key. unfold st', addOrUpdateAcademic. rewrite Hname. simpl.
  split; [reflexivity|]. fold key.
  destruct (JS.obj_get key (academics st)) as [e|].
  - destruct (saveToLocalStorage_catalog Date_parse (set_heap (merge_into r e (heap st)) st))
      as (Sh & Sa & Ss).
    rewrite Sh, Sa, Ss. auto.
  - unfold now. simpl.
    match goal with
    | |- context [saveToLocalStorage Date_parse (snd (addNoveltyTile clock Date_parse ?t ?s))] =>
        destruct (addNoveltyTile_catalog clock Date_parse t s) as (Th & Ta & Ts);
        destruct (saveToLocalStorage_catalog Date_parse
                    (snd (addNoveltyTile clock Date_parse t s))) as (Sh & Sa & Ss)
    end.
    rewrite Sh, Sa, Ss, Th, Ta, Ts. auto.
Qed.

Lemma wf_lookup st key e :
  wf st -> JS.obj_get key (academics st) = Some e -> e < length (heap st).
Proof.
  intros Hwf Hg. apply obj_get_In in Hg. unfold wf in Hwf.
  rewrite List.Forall_forall in Hwf. apply (Hwf _ Hg).
Qed.

  (** C5, as the code has it: over a storage that honours its contract,
      and for a candidate of which neither the key nor a taxonomy category
      is the name of a property that every object inherits, a second call
      with the same candidate succeeds and changes neither a record nor
      the catalog, so the record stored under the candidate's key is the
      one that the first call left: no paper, event, connection or
      taxonomy value is added twice, and the bio stays. *)
Theorem addOrUpdateAcademic_idempotent st r :
  wf st ->
  JS.truthy (name (deref (heap st) r)) = true ->
  inherited_key (_normalizeNameKey (name (deref (heap st) r))) = false ->
  plain_categories (deref (heap st) r) ->
  let key := _normalizeNameKey (name (deref (heap st) r)) in
  let once := snd (addOrUpdateAcademic clock Date_parse r st) in
  let twice := snd (addOrUpdateAcademic clock Date_parse r once) in
  fst (addOrUpdateAcademic clock Date_parse r once) = true
  /\ heap twice = heap once
  /\ academics twice = academics once
  /\ (exists stored, JS.obj_get key (snapshot once) = Some stored)
  /\ JS.obj_get key (snapshot twice) = JS.obj_get key (snapshot once).
Proof.
  intros Hwf Hname _ _ key once twice.
  destruct (addOrUpdateAcademic_effect st r Hname) as (_ & _ & Hfirst).
  fold key once in Hfirst.
  assert (Hkeep : deref (heap once) r = deref (heap st) r
                  /\ exists e, JS.obj_get key (academics once) = Some e
                               /\ merge_into r e (heap once) = heap once).
  { destruct (JS.obj_get key (academics st)) as [e|] eqn:Hkey.
    - destruct Hfirst as [Hh Ha]. rewrite Hh, Ha.
      destruct (Nat.eq_dec r e) as [->|Hne].
      + rewrite merge_into_self. split; [reflexivity|]. exists e.
        split; [exact Hkey | apply merge_into_self].
      + pose proof (deref_lookup _ _ (wf_lookup _ _ _ Hwf Hkey)) as Hx.
        rewrite (merge_into_ne _ _ _ _ Hne Hx).
        split; [apply deref_insert_ne; congruence|]. exists e. split; [exact Hkey|].
        rewrite (merge_into_ne _ _ _ _ Hne (lookup_insert_same _ _ _ _ Hx)).
        rewrite list_insert_insert_eq, deref_insert_ne by congruence.
        rewrite merged_idempotent. reflexivity.
    - destruct Hfirst as [Hh Ha]. rewrite Hh, Ha. split; [reflexivity|].
      exists r. split; [apply obj_get_set_eq | apply merge_into_self]. }
  destruct Hkeep as (Hsame & e & Hkey1 & Hmerge).
  assert (Hname1 : JS.truthy (name (deref (heap once) r)) = true)
    by (rewrite Hsame; exact Hname).
  destruct (addOrUpdateAcademic_effect once r Hname1) as (Hok & _ & Hsecond).
  fold twice in Hsecond. rewrite Hsame in Hsecond. fold key in Hsecond.
  rewrite Hkey1, Hmerge in Hsecond. destruct Hsecond as [Hh Ha].
  split; [exact Hok|]. split; [exact Hh|]. split; [exact Ha|].
  assert (Hsnap : forall st0 : state S,
             JS.obj_get key (snapshot st0)
             = option_map (deref (heap st0)) (JS.obj_get key (academics st0))).
  { intros st0. unfold snapshot. induction (academics st0) as [|[k v] l IH]; simpl;
      [reflexivity|]. destruct (String.eqb key k); [reflexivity | exact IH]. }
  split.
  - rewrite Hsnap, Hkey1. simpl. eauto.
  - rewrite !Hsnap, Hh, Ha. reflexivity.
Qed.
End MergeEngine.

(** C5 as stated fails: on a storage that cuts long values, the first
    call merges the candidate into a record that is then too long to be
    saved, and the save restores the shorter record persisted before; the
    second call merges the candidate into that one, and the save keeps
    it.  Both calls succeed, and the record stored after the second call
    has a paper that the record stored after the first call lacks. *)
Lemma addOrUpdateAcademic_twice_on_lossy_storage :
  wf Example.lossy_derrida
  /\ name (deref (heap Example.lossy_derrida) 1) = "Jacques Derrida"
  /\ fst (addOrUpdateAcademic frozen_clock IsoDate.parse 1 Example.lossy_derrida) = true
  /\ fst (addOrUpdateAcademic frozen_clock IsoDate.parse 1
            (snd (addOrUpdateAcademic frozen_clock IsoDate.parse 1
                    Example.lossy_derrida))) = true
  /\ option_map papers
       (JS.obj_get "jacques-derrida"
          (snapshot (snd (addOrUpdateAcademic frozen_clock IsoDate.parse 1
                            Example.lossy_derrida))))
     = Some (Some [Paper.mk "of grammatology" (Some 1967%Z) []])
  /\ option_map papers
       (JS.obj_get "jacques-derrida"
          (snapshot (snd (addOrUpdateAcademic frozen_clock IsoDate.parse 1
                            (snd (addOrUpdateAcademic frozen_clock IsoDate.parse 1
                                    Example.lossy_derrida))))))
     = Some (Some [Paper.mk "of grammatology" (Some 1967%Z) [];
                   Paper.mk "Writing and Difference" (Some 1967%Z) []])
  /\ JS.obj_get (_normalizeNameKey "Jacques Derrida")
       (snapshot (snd (addOrUpdateAcademic frozen_clock IsoDate.parse 1
                         (snd (addOrUpdateAcademic frozen_clock IsoDate.parse 1
                                 Example.lossy_derrida)))))
     <> JS.obj_get (_normalizeNameKey "Jacques Derrida")
          (snapshot (snd (addOrUpdateAcademic frozen_clock IsoDate.parse 1
                            Example.lossy_derrida))).
Proof.
  split; [repeat constructor|]. split; [reflexivity|].
  split; [vm_compute; reflexivity|]. split; [vm_compute; reflexivity|].
  split; [vm_compute; reflexivity|]. split; [vm_compute; reflexivity|].
  vm_compute. intros Heq. discriminate Heq.
Qed.

Lemma addOrUpdateAcademic_idempotent_witness :
  wf Example.revisit
  /\ JS.truthy (name (deref (heap Example.revisit) 1)) = true
  /\ inherited_key (_normalizeNameKey (name (deref (heap Example.revisit) 1))) = false
  /\ plain_categories (deref (heap Example.revisit) 1)
  /\ fst (addOrUpdateAcademic frozen_clock IsoDate.parse 1
            (snd (addOrUpdateAcademic frozen_clock IsoDate.parse 1 Example.revisit)))
     = true
  /\ snapshot (snd (addOrUpdateAcademic frozen_clock IsoDate.parse 1
                      (snd (addOrUpdateAcademic frozen_clock IsoDate.parse 1
                              Example.revisit))))
     = snapshot (snd (addOrUpdateAcademic frozen_clock IsoDate.parse 1 Example.revisit))
  /\ option_map (fun a => length (papers_of a))
       (JS.obj_get "michel-foucault"
          (snapshot (snd (addOrUpdateAcademic frozen_clock IsoDate.parse 1
                            Example.revisit))))
     = Some 2.
Proof.
  assert (Hwf : wf Example.revisit) by (repeat constructor).
  assert (Hown : inherited_key (_normalizeNameKey (name (deref (heap Example.revisit) 1)))
                 = false) by (vm_compute; reflexivity).
  assert (Hplain : plain_categories (deref (heap Example.revisit) 1))
    by (repeat constructor).
  split; [exact Hwf|]. split; [reflexivity|]. split; [exact Hown|].
  split; [exact Hplain|].
  destruct (addOrUpdateAcademic_idempotent frozen_clock IsoDate.parse
              Example.revisit 1 Hwf eq_refl Hown Hplain) as (Hok & Hh & Ha & _).
  split; [exact Hok|]. split; [unfold snapshot; rewrite Hh, Ha; reflexivity|].
  vm_compute. reflexivity.
Defined.

(* ===================================================================== *)
(** ** Reciprocal connections *)
(* ===================================================================== *)

Lemma grows_refl h : grows h h.
Proof. split; [reflexivity|]. intros x. split; [reflexivity | auto]. Qed.

Lemma grows_trans h1 h2 h3 : grows h1 h2 -> grows h2 h3 -> grows h1 h3.
Proof.
  intros [L12 G12] [L23 G23]. split; [congruence|]. intros x.
  destruct (G12 x) as [N12 C12], (G23 x) as [N23 C23]. split; [congruence | auto].
Qed.

Lemma grows_insert h e x y :
  h !! e = Some x -> name y = name x ->
  (forall n, array_includes n (connections_of x) = true ->
             array_includes n (connections_of y) = true) ->
  grows h (<[e := y]> h).
Proof.
  intros Hx Hn Hc. split; [apply length_insert|]. intros r.
  destruct (Nat.eq_dec e r) as [<-|Hne].
  - unfold has_connection. rewrite (deref_insert_eq _ _ _ _ Hx), (lookup_deref _ _ _ Hx).
    auto.
  - unfold has_connection. rewrite (deref_insert_ne _ _ _ _ Hne). auto.
Qed.

Lemma merged_connections_grow a x n :
  array_includes n (connections_of x) = true ->
  array_includes n (connections_of (merged a x)) = true.
Proof.
  unfold connections_of, merged, merged_list. simpl.
  destruct (connections a) as [[|c cs]|]; auto.
  intros Hn. apply existsb_add_all.
  destruct (connections x); [exact Hn | discriminate].
Qed.

Lemma merge_into_grows r e h : e < length h -> grows h (merge_into r e h).
Proof.
  intros He. destruct (Nat.eq_dec r e) as [->|Hne].
  - rewrite merge_into_self. apply grows_refl.
  - pose proof (deref_lookup _ _ He) as Hx.
    rewrite (merge_into_ne _ _ _ _ Hne Hx).
    apply (grows_insert _ _ _ _ Hx); [reflexivity|].
    intros n. apply merged_connections_grow.
Qed.

Lemma push_connection_grows n c h :
  c < length h -> grows h (alter (push_connection n) c h)
                  /\ has_connection n (alter (push_connection n) c h) c.
Proof.
  intros Hc. pose proof (deref_lookup _ _ Hc) as Hx.
  rewrite (alter_insert _ _ _ _ Hx). split.
  - apply (grows_insert _ _ _ _ Hx); [reflexivity|].
    intros m Hm. unfold push_connection, connections_of at 1. simpl.
    unfold array_includes in *. rewrite existsb_app, Hm. reflexivity.
  - unfold has_connection. rewrite (deref_insert_eq _ _ _ _ Hx).
    unfold push_connection, connections_of at 1, array_includes. simpl.
    rewrite existsb_app. simpl. rewrite String.eqb_refl, orb_true_r. reflexivity.
Qed.

Lemma empty_connections_grows c h :
  connections (deref h c) = None -> grows h (alter (set_connections (Some [])) c h).
Proof.
  intros Hnone. destruct (h !! c) as [x|] eqn:Hx.
  - rewrite (alter_insert _ _ _ _ Hx). apply (grows_insert _ _ _ _ Hx); [reflexivity|].
    rewrite (lookup_deref _ _ _ Hx) in Hnone. unfold connections_of. rewrite Hnone.
    discriminate.
  - apply lookup_ge_None in Hx. rewrite alter_ge by exact Hx. apply grows_refl.
Qed.

Lemma find_ext {A : Type} (f g : A -> bool) l :
  (forall x, f x = g x) -> find f l = find g l.
Proof.
  intros Hfg. induction l as [|a l IH]; simpl; [reflexivity|].
  rewrite Hfg, IH. reflexivity.
Qed.

Lemma find_insert {A : Type} (f : A -> bool) v1 c v2 :
  find f (v1 ++ c :: v2) = find f (v1 ++ v2) \/ find f (v1 ++ c :: v2) = Some c.
Proof.
  induction v1 as [|a v1 IH]; simpl.
  - destruct (f c); auto.
  - destruct (f a); auto.
Qed.

Lemma obj_add_split {V : Type} k (c : V) l :
  exists l1 l2, l = l1 ++ l2 /\ JS.obj_add k c l = l1 ++ (k, c) :: l2.
Proof.
  induction l as [|[k0 v0] l (l1 & l2 & Hl & Hadd)]; simpl.
  - exists [], []. auto.
  - assert (Hhere : exists l1 l2, (k0, v0) :: l = l1 ++ l2
                                /\ (k, c) :: (k0, v0) :: l = l1 ++ (k, c) :: l2)
      by (exists [], ((k0, v0) :: l); auto).
    assert (Hthere : exists l1' l2', (k0, v0) :: l = l1' ++ l2'
                                /\ (k0, v0) :: JS.obj_add k c l = l1' ++ (k, c) :: l2').
    { exists ((k0, v0) :: l1), l2. simpl. rewrite <- Hl, Hadd. auto. }
    destruct (JS.array_index k) as [i|], (JS.array_index k0) as [j|];
      try destruct (i <? j)%Z; assumption.
Qed.

Section Resolution.
  Context {S : Type}.
  Implicit Type st : state S.

  (** [getAcademic] reads the catalog and the names. *)
Lemma getAcademic_same st st' B :
  academics st' = academics st ->
  (forall x, name (deref (heap st') x) = name (deref (heap st) x)) ->
  getAcademic B st' = getAcademic B st.
Proof.
  intros Ha Hn. unfold getAcademic. rewrite Ha.
  destruct (negb (JS.truthy B)); [reflexivity|].
  destruct (JS.obj_get _ (academics st)); [reflexivity|].
  rewrite (find_ext _ (fun r => String.eqb (JS.toLowerCase (name (deref (heap st) r)))
                                  (JS.toLowerCase B)))
    by (intros r; rewrite Hn; reflexivity).
  destruct (find _ _); [reflexivity|].
  apply find_ext. intros r. rewrite Hn. reflexivity.
Qed.

  (** A record put under a new key is the only new answer that
      [getAcademic] can give. *)
Lemma getAcademic_added st st' k c B :
  JS.obj_get k (academics st) = None ->
  academics st' = JS.obj_add k c (academics st) ->
  (forall x, name (deref (heap st') x) = name (deref (heap st) x)) ->
  getAcademic B st' = getAcademic B st \/ getAcademic B st' = Some c.
Proof.
  intros Hk Ha Hn. unfold getAcademic. rewrite Ha.
  destruct (negb (JS.truthy B)); [left; reflexivity|].
  rewrite (obj_get_add _ _ _ _ Hk).
  destruct (String.eqb (_normalizeNameKey B) k); [right; reflexivity|].
  destruct (JS.obj_get (_normalizeNameKey B) (academics st)); [left; reflexivity|].
  destruct (obj_add_split k c (academics st)) as (l1 & l2 & Hl & Hadd).
  unfold JS.obj_values. rewrite Hadd, Hl, !map_app. simpl.
  rewrite (find_ext _ (fun r => String.eqb (JS.toLowerCase (name (deref (heap st) r)))
                                  (JS.toLowerCase B)))
    by (intros r; rewrite Hn; reflexivity).
  match goal with
  | |- context [find ?f (map snd l1 ++ c :: map snd l2)] =>
      destruct (find_insert f (map snd l1) c (map snd l2)) as [E|E]; rewrite E;
      [|right; reflexivity]
  end.
  destruct (find _ (map snd l1 ++ map snd l2)); [left; reflexivity|].
  rewrite (find_ext _ (fun r => JS.includes (JS.toLowerCase (name (deref (heap st) r)))
                                  (JS.toLowerCase B)
                                || JS.includes (JS.toLowerCase B)
                                     (JS.toLowerCase (name (deref (heap st) r)))))
    by (intros r; rewrite Hn; reflexivity).
  match goal with
  | |- context [find ?f (map snd l1 ++ c :: map snd l2)] =>
      destruct (find_insert f (map snd l1) c (map snd l2)) as [E2|E2]; rewrite E2;
      [left; reflexivity | right; reflexivity]
  end.
Qed.

  (** What [getAcademic] answers is a record of the catalog. *)
Lemma getAcademic_In st B c :
  getAcademic B st = Some c -> In c (JS.obj_values (academics st)).
Proof.
  unfold getAcademic. destruct (negb (JS.truthy B)); [discriminate|].
  destruct (JS.obj_get _ (academics st)) as [r|] eqn:Hg.
  - intros [= <-]. apply obj_get_In in Hg.
    apply (in_map snd) in Hg. exact Hg.
  - destruct (find _ _) as [r|] eqn:Hf.
    + intros [= <-]. apply find_some in Hf. apply Hf.
    + intros Hf2. apply find_some in Hf2. apply Hf2.
Qed.

Lemma getAcademic_wf st B c : wf st -> getAcademic B st = Some c -> c < length (heap st).
Proof.
  intros Hwf Hg. apply getAcademic_In in Hg. apply in_map_iff in Hg.
  destruct Hg as ([k r] & <- & Hin). unfold wf in Hwf.
  rewrite List.Forall_forall in Hwf. apply (Hwf _ Hin).
Qed.
End Resolution.

Section Enrichment.
  Context {S : Type} `{LawfulStorage S}.
  Variable clock : nat -> string.
  Variable Date_parse : string -> option Z.
  Implicit Type st : state S.

Lemma wf_grows st st' :
  wf st -> length (heap st') = length (heap st) -> academics st' = academics st -> wf st'.
Proof. unfold wf. intros Hwf -> ->. exact Hwf. Qed.

Lemma wf_added st st' k c :
  wf st -> length (heap st') = length (heap st) -> c < length (heap st) ->
  academics st' = JS.obj_add k c (academics st) -> wf st'.
Proof.
  unfold wf. intros Hwf -> Hc ->.
  destruct (obj_add_split k c (academics st)) as (l1 & l2 & Hl & ->).
  rewrite Hl in Hwf. apply List.Forall_app in Hwf. destruct Hwf as [H1 H2].
  apply List.Forall_app. split; [exact H1|]. constructor; [exact Hc | exact H2].
Qed.

Lemma links_refl n st : wf st -> links n st st.
Proof. intros Hwf. split; [apply grows_refl|]. split; [exact Hwf | left; reflexivity]. Qed.

  (** An answer of [getAcademic] after a step was its answer before, or is
      a record that lists the name. *)
Lemma links_resolve n st st' B c :
  links n st st' -> getAcademic B st' = Some c ->
  getAcademic B st = Some c \/ has_connection n (heap st') c.
Proof.
  intros ([_ Hg] & _ & [Ha|(k & c' & Hk & Ha & Hc)]) Hget.
  - left. rewrite <- Hget. symmetry. apply getAcademic_same; [exact Ha|].
    intros x. apply Hg.
  - destruct (getAcademic_added st st' k c' B Hk Ha (fun x => proj1 (Hg x))) as [E|E].
    + left. congruence.
    + right. rewrite Hget in E. injection E as ->. exact Hc.
Qed.

  (** The call that [enrichDatabase] makes for a connected record that
      lists the name. *)
Lemma addOrUpdateAcademic_links n st c :
  wf st -> c < length (heap st) -> has_connection n (heap st) c ->
  links n st (snd (addOrUpdateAcademic clock Date_parse c st)).
Proof.
  intros Hwf Hc Hn.
  destruct (JS.truthy (name (deref (heap st) c))) eqn:Hname.
  - destruct (addOrUpdateAcademic_effect clock Date_parse st c Hname) as (_ & _ & Heff).
    destruct (JS.obj_get _ (academics st)) as [e|] eqn:Hkey.
    + destruct Heff as [Hh Ha].
      assert (Hg : grows (heap st) (merge_into c e (heap st)))
        by (apply merge_into_grows; eapply wf_lookup; eassumption).
      rewrite <- Hh in Hg. split; [exact Hg|]. split; [|left; exact Ha].
      apply (wf_grows st); [exact Hwf | apply Hg | exact Ha].
    + destruct Heff as [Hh Ha]. unfold JS.obj_set in Ha. rewrite Hkey in Ha.
      split; [rewrite Hh; apply grows_refl|]. split.
      * apply (wf_added st _ (_normalizeNameKey (name (deref (heap st) c))) c);
          [exact Hwf | congruence | exact Hc | exact Ha].
      * right. eexists _, c. split; [exact Hkey|]. split; [exact Ha|].
        rewrite Hh. exact Hn.
  - unfold addOrUpdateAcademic. rewrite Hname. simpl. apply links_refl, Hwf.
Qed.

Lemma links_tile n st st' tile :
  links n st st' -> links n st (snd (addNoveltyTile clock Date_parse tile st')).
Proof.
  destruct (addNoveltyTile_catalog clock Date_parse tile st') as (Th & Ta & _).
  intros (Hg & Hwf & Hcat). unfold links, wf. rewrite Th, Ta. auto.
Qed.

  (** One round of the loop over the connections. *)
Lemma enrich_connection_links r st B :
  wf st ->
  let n := name (deref (heap st) r) in
  let st' := enrich_connection clock Date_parse r st B in
  links n st st'
  /\ forall c, getAcademic B st = Some c -> has_connection n (heap st') c.
Proof.
  intros Hwf n st'. unfold st', enrich_connection.
  destruct (getAcademic B st) as [c|] eqn:Hget;
    [|split; [apply links_refl, Hwf | discriminate]].
  pose proof (getAcademic_wf _ _ _ Hwf Hget) as Hc.
  set (st1 := match connections (deref (heap st) c) with
              | Some _ => st
              | None => set_heap (alter (set_connections (Some [])) c (heap st)) st
              end).
  assert (H1 : grows (heap st) (heap st1) /\ academics st1 = academics st).
  { unfold st1. destruct (connections (deref (heap st) c)) eqn:Hconn.
    - split; [apply grows_refl | reflexivity].
    - split; [apply empty_connections_grows, Hconn | reflexivity]. }
  destruct H1 as [Hg1 Ha1].
  assert (Hwf1 : wf st1) by (apply (wf_grows st); [exact Hwf | apply Hg1 | exact Ha1]).
  assert (Hn1 : name (deref (heap st1) r) = n) by apply Hg1.
  assert (Hc1 : c < length (heap st1)) by (destruct Hg1 as [-> _]; exact Hc).
  rewrite Hn1.
  destruct (array_includes n (connections_of (deref (heap st1) c))) eqn:Hhas.
  - split; [|intros c' [= <-]; exact Hhas].
    split; [exact Hg1|]. split; [exact Hwf1 | left; exact Ha1].
  - destruct (push_connection_grows n c (heap st1) Hc1) as [Hg2 Hn2].
    set (st2 := set_heap (alter (push_connection n) c (heap st1)) st1) in *.
    assert (Hwf2 : wf st2) by (apply (wf_grows st1); [exact Hwf1 | apply Hg2 | reflexivity]).
    assert (Hc2 : c < length (heap st2))
      by (unfold st2; simpl; rewrite length_alter; exact Hc1).
    pose proof (addOrUpdateAcademic_links n st2 c Hwf2 Hc2 Hn2) as Hl3.
    set (st3 := snd (addOrUpdateAcademic clock Date_parse c st2)) in *.
    unfold now.
    match goal with
    | |- context [addNoveltyTile clock Date_parse ?t ?s] =>
        set (tile := t); set (st4 := s)
    end.
    assert (Hl4 : links n st2 st4).
    { destruct Hl3 as (G3 & W3 & C3). split; [exact G3|]. split; [exact W3 | exact C3]. }
    apply (links_tile _ _ _ tile) in Hl4.
    destruct Hl4 as (G5 & W5 & C5).
    assert (Hg : grows (heap st) (heap (snd (addNoveltyTile clock Date_parse tile st4)))).
    { eapply grows_trans; [exact Hg1|]. eapply grows_trans; [exact Hg2 | exact G5]. }
    split.
    + split; [exact Hg|]. split; [exact W5|].
      change (academics st2) with (academics st1) in C5. rewrite Ha1 in C5. exact C5.
    + intros c' [= <-]. apply G5. exact Hn2.
Qed.

  (** The loop over the connections. *)
Lemma enrich_connections_reciprocal r todo : forall st done,
  wf st ->
  let n := name (deref (heap st) r) in
  (forall B c, In B done -> getAcademic B st = Some c -> has_connection n (heap st) c) ->
  let st' := fold_left (enrich_connection clock Date_parse r) todo st in
  wf st' /\ grows (heap st) (heap st')
  /\ forall B c, In B (done ++ todo) -> getAcademic B st' = Some c ->
                 has_connection n (heap st') c.
Proof.
  induction todo as [|B0 todo IH]; intros st done Hwf n Hdone st'.
  - split; [exact Hwf|]. split; [apply grows_refl|].
    intros B c. rewrite app_nil_r. apply Hdone.
  - destruct (enrich_connection_links r st B0 Hwf) as [Hl Hnew]. fold n in Hl, Hnew.
    set (st1 := enrich_connection clock Date_parse r st B0) in *.
    destruct Hl as (Hg & Hwf1 & Hcat).
    assert (Hn1 : name (deref (heap st1) r) = n) by apply Hg.
    destruct (IH st1 (done ++ [B0]) Hwf1) as (Hwf' & Hg' & Hall).
    + rewrite Hn1. intros B c Hin Hget.
      destruct (links_resolve n st st1 B c (conj Hg (conj Hwf1 Hcat)) Hget) as [Hold|Hhas];
        [|exact Hhas].
      apply in_app_or in Hin. destruct Hin as [Hin|[<-|[]]].
      * apply Hg. eapply Hdone; eassumption.
      * apply Hnew, Hold.
    + rewrite Hn1 in Hall. split; [exact Hwf'|].
      split; [eapply grows_trans; eassumption|].
      intros B c Hin. apply Hall. rewrite <- app_assoc. exact Hin.
Qed.

  (** C2, as the code has it: the reciprocal connections are written by
      [enrichDatabase], not by [addOrUpdateAcademic], which writes to no
      record but the one stored under the candidate's key.  Over a storage
      that honours its contract, after a successful [enrichDatabase] of a
      candidate with a non-empty name, every name among the candidate's
      connections that [getAcademic] resolves to a stored record resolves
      to a record that lists the candidate's name among its
      connections. *)
Theorem enrichDatabase_reciprocal st r :
  wf st ->
  JS.truthy (name (deref (heap st) r)) = true ->
  let n := name (deref (heap st) r) in
  let st' := snd (enrichDatabase clock Date_parse r st) in
  (forall x, JS.obj_get (_normalizeNameKey n) (academics st) <> Some x ->
             deref (heap (snd (addOrUpdateAcademic clock Date_parse r st))) x
             = deref (heap st) x)
  /\ fst (enrichDatabase clock Date_parse r st) = true
  /\ forall B c, In B (connections_of (deref (heap st) r)) ->
                 getAcademic B st' = Some c -> has_connection n (heap st') c.
Proof.
  intros Hwf Hname n st'.
  destruct (addOrUpdateAcademic_effect clock Date_parse st r Hname) as (Hok & _ & Heff).
  split.
  { intros x Hx. fold n in Heff.
    destruct (JS.obj_get (_normalizeNameKey n) (academics st)) as [e|] eqn:Hkey;
      destruct Heff as [-> _]; [|reflexivity].
    destruct (Nat.eq_dec r e) as [->|Hne]; [rewrite merge_into_self; reflexivity|].
    rewrite (merge_into_ne _ _ _ _ Hne (deref_lookup _ _ (wf_lookup _ _ _ Hwf Hkey))).
    apply deref_insert_ne. congruence. }
  unfold st', enrichDatabase. rewrite Hname. simpl.
  assert (Hr : r < length (heap st)).
  { destruct (heap st !! r) as [a|] eqn:Hx; [eapply lookup_lt_Some, Hx|].
    unfold deref in Hname. rewrite Hx in Hname. discriminate. }
  destruct (addOrUpdateAcademic clock Date_parse r st) as [success st1].
  simpl in Hok, Heff. subst success.
  assert (H1 : wf st1 /\ grows (heap st) (heap st1)).
  { destruct (JS.obj_get _ (academics st)) as [e|] eqn:Hkey; destruct Heff as [Hh Ha].
    - assert (Hg : grows (heap st) (heap st1))
        by (rewrite Hh; apply merge_into_grows; eapply wf_lookup; eassumption).
      split; [|exact Hg]. apply (wf_grows st); [exact Hwf | apply Hg | exact Ha].
    - unfold JS.obj_set in Ha. rewrite Hkey in Ha.
      split; [|rewrite Hh; apply grows_refl].
      apply (wf_added st _ (_normalizeNameKey (name (deref (heap st) r))) r);
        [exact Hwf | congruence | exact Hr | exact Ha]. }
  destruct H1 as [Hwf1 Hg1]. unfold now.
  match goal with
  | |- context [addNoveltyTile clock Date_parse ?t ?s] =>
      destruct (addNoveltyTile_catalog clock Date_parse t s) as (Th & Ta & _);
      set (st3 := snd (addNoveltyTile clock Date_parse t s)) in *
  end.
  simpl in Th, Ta.
  assert (Hwf3 : wf st3) by (unfold wf; rewrite Th, Ta; exact Hwf1).
  assert (Hg3 : grows (heap st) (heap st3)) by (rewrite Th; exact Hg1).
  assert (Hn3 : name (deref (heap st3) r) = n) by apply Hg3.
  assert (Hconn : forall B, In B (connections_of (deref (heap st) r)) ->
                            In B (connections_of (deref (heap st3) r))).
  { intros B Hin.
    assert (Hb : has_connection B (heap st) r).
    { apply List.existsb_exists. exists B. split; [exact Hin | apply String.eqb_refl]. }
    apply Hg3 in Hb. apply List.existsb_exists in Hb. destruct Hb as (B' & Hin' & E).
    apply String.eqb_eq in E. subst B'. exact Hin'. }
  split.
  - destruct (connections (deref (heap st3) r)) as [[|]|]; reflexivity.
  - intros B c Hin Hget. apply Hconn in Hin. unfold connections_of in Hin.
    destruct (connections (deref (heap st3) r)) as [[|c0 cs]|] eqn:Econn;
      [destruct Hin| |destruct Hin].
    destruct (enrich_connections_reciprocal r (c0 :: cs) st3 [] Hwf3) as (_ & _ & Hall).
    + intros B' c' [].
    + rewrite Hn3 in Hall. apply (Hall B c); [exact Hin | exact Hget].
Qed.
End Enrichment.

(** C2 as stated fails: [addOrUpdateAcademic] of a candidate that names
    "Michel Foucault", a stored record, succeeds and leaves the record of
    Michel Foucault without the candidate's name. *)
Lemma addOrUpdateAcademic_writes_no_reciprocal :
  JS.truthy (name (deref (heap Example.with_candidate) 1)) = true
  /\ In "Michel Foucault" (connections_of (deref (heap Example.with_candidate) 1))
  /\ getAcademic "Michel Foucault" Example.with_candidate = Some 0
  /\ fst (addOrUpdateAcademic frozen_clock IsoDate.parse 1 Example.with_candidate) = true
  /\ getAcademic "Michel Foucault"
       (snd (addOrUpdateAcademic frozen_clock IsoDate.parse 1 Example.with_candidate))
     = Some 0
  /\ ~ has_connection (name (deref (heap Example.with_candidate) 1))
        (heap (snd (addOrUpdateAcademic frozen_clock IsoDate.parse 1
                      Example.with_candidate))) 0.
Proof.
  repeat split; try reflexivity.
  - left. reflexivity.
  - unfold has_connection. vm_compute. discriminate.
Qed.

Lemma enrichDatabase_reciprocal_witness :
  wf Example.with_candidate
  /\ JS.truthy (name (deref (heap Example.with_candidate) 1)) = true
  /\ In "Michel Foucault" (connections_of (deref (heap Example.with_candidate) 1))
  /\ getAcademic "Michel Foucault"
       (snd (enrichDatabase frozen_clock IsoDate.parse 1 Example.with_candidate))
     = Some 0
  /\ has_connection "Gilles Deleuze"
       (heap (snd (enrichDatabase frozen_clock IsoDate.parse 1 Example.with_candidate)))
       0.
Proof.
  assert (Hwf : wf Example.with_candidate) by (repeat constructor).
  split; [exact Hwf|]. split; [reflexivity|]. split; [left; reflexivity|].
  split; [reflexivity|].
  destruct (enrichDatabase_reciprocal frozen_clock IsoDate.parse
              Example.with_candidate 1 Hwf eq_refl) as (_ & _ & Hall).
  apply (Hall "Michel Foucault" 0); [left; reflexivity | reflexivity].
Defined.

(* ===================================================================== *)
(** ** Extraction *)
(* ===================================================================== *)

(** The key of a name: lower case, hyphens for runs of white space,
    nothing but word characters and hyphens. *)
Example normalizeNameKey_foucault :
  _normalizeNameKey "Michel Foucault" = "michel-foucault".
Proof. vm_compute. reflexivity. Qed.

Example normalizeNameKey_punctuation :
  _normalizeNameKey "  Simone  de Beauvoir (1908)" = "-simone-de-beauvoir-1908".
Proof. vm_compute. reflexivity. Qed.

(** A paper item with coauthors and a year in parentheses. *)
Example paper_of_item_coauthors :
  Extractor.paper_of_item "Anti-Oedipus with Felix Guattari and Someone, Other (1972)"
  = Paper.mk "Anti-Oedipus" (Some 1972%Z) ["Felix Guattari"; "Someone"; "Other"].
Proof. vm_compute. reflexivity. Qed.

(** An event item with a year and a trailing location. *)
Example event_of_item_location :
  Extractor.event_of_item "Lecture at Yale (1975), New Haven"
  = Event.mk "Lecture at Yale" (Some 1975%Z) "New Haven".
Proof. vm_compute. reflexivity. Qed.

Section Extraction.
  Variable JSON_parse : string -> option Academic.

Lemma extract_json_named text a :
  Extractor.extract_json JSON_parse text = Some a -> JS.truthy (name a) = true.
Proof.
  unfold Extractor.extract_json.
  destruct (Regex.search _ _ text) as [f|]; [|discriminate].
  destruct (JS.truthy (Regex.group 1 f)); [|discriminate].
  destruct (JSON_parse _) as [jsonData|]; [|discriminate].
  destruct (JS.truthy (name jsonData)) eqn:E; [|discriminate].
  intros [= <-]. exact E.
Qed.

Lemma truthy_empty s : JS.truthy s = false <-> s = EmptyString.
Proof. destruct s; simpl; split; congruence. Qed.

  (** C3, as the code has it: for a text that passes the pre-check (not
      empty, with the substrings "name" and "bio"), [extractAcademicData]
      returns null exactly when neither the fenced JSON block nor the
      headings give a name, and a record that it returns has a name.  A
      named JSON object is returned as it is;
      otherwise the record has the name found under the headings and
      every other field, which is the empty container when its section is
      not found. *)
Theorem extractAcademicData_not_found text :
  JS.truthy text = true ->
  JS.includes text "name" = true ->
  JS.includes text "bio" = true ->
  (Extractor.extractAcademicData JSON_parse text = None <->
   Extractor.extract_json JSON_parse text = None
   /\ Extractor.extract_name text = EmptyString)
  /\ (forall a, Extractor.extractAcademicData JSON_parse text = Some a ->
                JS.truthy (name a) = true)
  /\ (forall a, Extractor.extract_json JSON_parse text = Some a ->
                Extractor.extractAcademicData JSON_parse text = Some a)
  /\ (Extractor.extract_json JSON_parse text = None ->
      Extractor.extract_name text <> EmptyString ->
      exists a, Extractor.extractAcademicData JSON_parse text = Some a
        /\ name a = Extractor.extract_name text
        /\ bio a = Some (Extractor.extract_bio text)
        /\ taxonomies a = Some (Extractor.extract_taxonomies text)
        /\ papers a = Some (Extractor.extract_papers text)
        /\ events a = Some (Extractor.extract_events text)
        /\ connections a = Some (Extractor.extract_connections text)
        /\ (Extractor.first_capture Extractor.bioPatterns text = None ->
            bio a = Some EmptyString)
        /\ (Extractor.first_capture Extractor.taxonomyPatterns text = None ->
            taxonomies a = Some [])
        /\ (Extractor.first_capture Extractor.papersPatterns text = None ->
            papers a = Some [])
        /\ (Extractor.first_capture Extractor.eventsPatterns text = None ->
            events a = Some [])
        /\ (Extractor.first_capture Extractor.connectionsPatterns text = None ->
            connections a = Some [])).
Proof.
  intros Htext Hname Hbio. unfold Extractor.extractAcademicData.
  rewrite Htext, Hname, Hbio. cbn [negb orb].
  split; [|split; [|split]].
  - destruct (Extractor.extract_json JSON_parse text) as [a|].
    + split; [discriminate | intros [? _]; discriminate].
    + unfold Extractor.extract_sections.
      destruct (JS.truthy (Extractor.extract_name text)) eqn:E; cbn [negb].
      * split; [discriminate|]. intros [_ Hn]. rewrite Hn in E. discriminate.
      * apply truthy_empty in E. split; auto.
  - intros a. destruct (Extractor.extract_json JSON_parse text) as [j|] eqn:Ej.
    + intros [= <-]. apply (extract_json_named _ _ Ej).
    + unfold Extractor.extract_sections.
      destruct (JS.truthy (Extractor.extract_name text)) eqn:E; cbn [negb];
        [|discriminate].
      intros [= <-]. exact E.
  - intros a ->. reflexivity.
  - intros -> Hn. unfold Extractor.extract_sections.
    destruct (JS.truthy (Extractor.extract_name text)) eqn:E;
      [|apply truthy_empty in E; contradiction].
    cbn [negb]. eexists. split; [reflexivity|].
    cbn [name bio taxonomies papers events connections].
    repeat (split; [reflexivity|]).
    repeat split; intros Hnone;
      unfold Extractor.extract_bio, Extractor.extract_taxonomies,
        Extractor.extract_papers, Extractor.extract_events,
        Extractor.extract_connections;
      rewrite Hnone; reflexivity.
Qed.

  (** C4 fails on the code: on the text of the scenario the pre-check,
      which looks for "name" and "bio" in lower case, rejects the text and
      [extractAcademicData] returns null.  The section parsing that the
      pre-check guards would itself keep the dash of the first bullet of
      each list, in the title "- Of Grammatology" and in the connection
      "- Michel Foucault". *)
Theorem extractAcademicData_scenario_rejected :
  JS.includes Example.scenario "name" = false
  /\ JS.includes Example.scenario "bio" = false
  /\ Extractor.extractAcademicData JSON_parse Example.scenario = None
  /\ Extractor.extract_sections Example.scenario
     = Some {| name := "Jacques Derrida";
               bio := Some "French philosopher known for deconstruction.";
               taxonomies := Some [];
               papers := Some [Paper.mk "- Of Grammatology" (Some 1967%Z) [];
                               Paper.mk "Writing and Difference" (Some 1967%Z) []];
               events := Some [];
               connections := Some ["- Michel Foucault"; "Emmanuel Levinas"] |}.
Proof.
  split; [vm_compute; reflexivity|]. split; [vm_compute; reflexivity|].
  split; [|vm_compute; reflexivity].
  unfold Extractor.extractAcademicData.
  replace (JS.includes Example.scenario "name") with false by (vm_compute; reflexivity).
  rewrite orb_true_r. reflexivity.
Qed.
End Extraction.

(** C3 as stated fails: the headings of the scenario text give the name
    "Jacques Derrida", and [extractAcademicData] returns null; and the
    record returned for a fenced JSON block that has a name and no papers
    has no papers property, not an empty list. *)
Lemma extractAcademicData_null_despite_name :
  (Extractor.extract_json (fun _ => None) Example.scenario = None
   /\ Extractor.extract_name Example.scenario = "Jacques Derrida"
   /\ Extractor.extractAcademicData (fun _ => None) Example.scenario = None)
  /\ (exists a, Extractor.extractAcademicData Example.parse_block Example.json_block
                = Some a
                /\ name a = "Jacques Derrida" /\ papers a = None
                /\ connections a = None).
Proof.
  split; [vm_compute; repeat split|].
  eexists. split; [vm_compute; reflexivity|]. repeat split.
Qed.

Lemma extractAcademicData_not_found_witness :
  JS.truthy Example.prose = true
  /\ JS.includes Example.prose "name" = true
  /\ JS.includes Example.prose "bio" = true
  /\ exists a, Extractor.extractAcademicData (fun _ => None) Example.prose = Some a
               /\ name a = "Jacques Derrida"
               /\ papers a = Some []
               /\ connections a = Some [].
Proof.
  assert (Ht : JS.truthy Example.prose = true) by reflexivity.
  assert (Hn : JS.includes Example.prose "name" = true) by (vm_compute; reflexivity).
  assert (Hb : JS.includes Example.prose "bio" = true) by (vm_compute; reflexivity).
  split; [exact Ht|]. split; [exact Hn|]. split; [exact Hb|].
  destruct (extractAcademicData_not_found (fun _ => None) Example.prose Ht Hn Hb)
    as (_ & _ & _ & Hsome).
  destruct Hsome as (a & Ha & Hname & _ & _ & _ & _ & _ & _ & _ & Hp & _ & Hc).
  - vm_compute. reflexivity.
  - vm_compute. discriminate.
  - exists a. split; [exact Ha|]. split; [rewrite Hname; vm_compute; reflexivity|].
    split; [apply Hp | apply Hc]; vm_compute; reflexivity.
Defined.

(* ===================================================================== *)
(** ** What a save leaves of the lists in memory *)
(* ===================================================================== *)

Section SaveFrame.
  Context {S : Type} `{WebStorage S}.
  Variable Date_parse : string -> option Z.
  Implicit Type st : state S.

Lemma only_storage_lists st st' :
  only_storage st st' ->
  favorites st' = favorites st /\ pendingSubmissions st' = pendingSubmissions st
  /\ taxonomyCategories st' = taxonomyCategories st.
Proof. intros (_&_&_&Hf&Hp&Ht&_). auto. Qed.

Lemma restoreFromBackup_lists st :
  favorites (snd (_restoreFromBackup st)) = favorites st
  /\ pendingSubmissions (snd (_restoreFromBackup st)) = pendingSubmissions st
  /\ taxonomyCategories (snd (_restoreFromBackup st)) = taxonomyCategories st.
Proof.
  unfold _restoreFromBackup.
  destruct (negb (localStorageSupported st)); [auto|].
  destruct (getItem ACADEMICS_BACKUP (localStorage st)) as [t|]; [|auto].
  destruct (negb (text_truthy t)); [auto|].
  destruct t as [v|s]; [|auto].
  destruct v; auto.
  destruct (write ACADEMICS _ _) as [st2 [x|]] eqn:E; simpl;
    apply write_only_storage, only_storage_lists in E; exact E.
Qed.

Lemma free_space_lists st :
  favorites (snd (free_space Date_parse st)) = favorites st
  /\ pendingSubmissions (snd (free_space Date_parse st)) = pendingSubmissions st
  /\ taxonomyCategories (snd (free_space Date_parse st)) = taxonomyCategories st.
Proof.
  unfold free_space.
  destruct (20 <? length (noveltyTiles st)).
  - destruct (write NOVELTY_TILES _ _) as [st2 [x|]] eqn:E2;
      apply write_only_storage, only_storage_lists in E2; [exact E2|].
    destruct (write ACADEMICS _ st2) as [st3 [x|]] eqn:E3;
      apply write_only_storage, only_storage_lists in E3;
      simpl in *; destruct E2 as (?&?&?), E3 as (?&?&?); repeat split; congruence.
  - destruct (write ACADEMICS _ st) as [st3 [x|]] eqn:E3;
      apply write_only_storage, only_storage_lists in E3; exact E3.
Qed.

  (** A save changes neither the favorites, nor the submissions, nor the
      taxonomy vocabulary in memory, whatever the storage does. *)
Lemma saveToLocalStorage_lists st :
  favorites (snd (saveToLocalStorage Date_parse st)) = favorites st
  /\ pendingSubmissions (snd (saveToLocalStorage Date_parse st)) = pendingSubmissions st
  /\ taxonomyCategories (snd (saveToLocalStorage Date_parse st)) = taxonomyCategories st.
Proof.
  unfold saveToLocalStorage.
  destruct (negb (localStorageSupported st)); [auto|].
  destruct (save_writes Date_parse (_createBackup st)) as [st1 thrown] eqn:Ew.
  assert (Hl : favorites st1 = favorites st
               /\ pendingSubmissions st1 = pendingSubmissions st
               /\ taxonomyCategories st1 = taxonomyCategories st).
  { apply only_storage_lists. eapply only_storage_trans;
      [apply createBackup_only_storage | eapply save_writes_only_storage, Ew]. }
  destruct Hl as (Hf & Hp & Ht).
  destruct thrown as [[|]|].
  - destruct (free_space_lists st1) as (Ff & Fp & Ft). repeat split; congruence.
  - auto.
  - destruct (verified st1); simpl; [auto|].
    destruct (restoreFromBackup_lists st1) as (Rf & Rp & Rt). repeat split; congruence.
Qed.
End SaveFrame.

(* ===================================================================== *)
(** ** Favorites *)
(* ===================================================================== *)

Lemma array_includes_In v xs : array_includes v xs = true <-> In v xs.
Proof.
  unfold array_includes. rewrite List.existsb_exists. split.
  - intros (x & Hin & Heq). apply String.eqb_eq in Heq. subst. exact Hin.
  - intros Hin. exists v. split; [exact Hin | apply String.eqb_refl].
Qed.

Lemma array_find_split v xs i :
  array_find v xs = Some i ->
  exists pre post, xs = pre ++ v :: post /\ ~ In v pre /\ length pre = i
                   /\ splice1 i xs = pre ++ post.
Proof.
  revert i. induction xs as [|x xs IH]; intros i; simpl; [discriminate|].
  destruct (String.eqb v x) eqn:E.
  - intros [= <-]. apply String.eqb_eq in E. subst x.
    exists [], xs. repeat split; auto.
  - destruct (array_find v xs) as [j|]; [|discriminate]. intros [= <-].
    destruct (IH j eq_refl) as (pre & post & -> & Hnot & Hlen & Hsp).
    exists (x :: pre), post. repeat split.
    + intros [->|Hin]; [rewrite String.eqb_refl in E; discriminate | tauto].
    + simpl. congruence.
    + unfold splice1 in *. simpl. f_equal. exact Hsp.
Qed.

Lemma array_find_None v xs : array_find v xs = None <-> ~ In v xs.
Proof.
  induction xs as [|x xs IH]; simpl; [tauto|].
  destruct (String.eqb v x) eqn:E.
  - apply String.eqb_eq in E. subst. split; [discriminate | tauto].
  - apply String.eqb_neq in E. destruct (array_find v xs); simpl.
    + split; [discriminate|]. intros Hn. exfalso.
      destruct (in_dec string_dec v xs) as [Hin|Hout]; [tauto|].
      apply (proj2 IH) in Hout. discriminate Hout.
    + split; [|reflexivity]. intros _ [Hx|Hin]; [congruence|].
      apply (proj1 IH); [reflexivity | exact Hin].
Qed.

Lemma NoDup_push {A : Type} (l : list A) x : List.NoDup l -> ~ In x l -> List.NoDup (l ++ [x]).
Proof.
  induction 1 as [|y l Hy Hl IH]; simpl; intros Hx.
  - constructor; [|constructor]. intros [].
  - constructor.
    + intros Hin. apply in_app_or in Hin.
      destruct Hin as [Hin|[->|[]]]; tauto.
    + apply IH. tauto.
Qed.

Section Favorites.
  Context {S : Type} `{WebStorage S}.
  Variable Date_parse : string -> option Z.
  Implicit Type st : state S.

  (** X1. [addToFavorites] with a non-empty name succeeds and leaves the
      name among the favorites, after the ones that were there; it adds
      no second copy, so a list without duplicates stays so; and a second
      call with the same name changes nothing at all, neither in memory
      nor in the storage. *)
Theorem addToFavorites_no_duplicate academicName st :
  JS.truthy academicName = true ->
  let st' := snd (addToFavorites Date_parse academicName st) in
  fst (addToFavorites Date_parse academicName st) = true
  /\ In academicName (getFavorites st')
  /\ (getFavorites st' = getFavorites st
      \/ getFavorites st' = getFavorites st ++ [academicName])
  /\ (List.NoDup (getFavorites st) -> List.NoDup (getFavorites st'))
  /\ addToFavorites Date_parse academicName st' = (true, st').
Proof.
  intros Hname st'. unfold st', addToFavorites, getFavorites. rewrite Hname. simpl.
  destruct (array_includes academicName (favorites st)) eqn:E; simpl.
  - rewrite E. simpl. repeat split; auto. apply array_includes_In, E.
  - destruct (saveToLocalStorage_lists Date_parse
                (set_favorites (favorites st ++ [academicName]) st)) as (-> & _).
    simpl.
    assert (Hin : In academicName (favorites st ++ [academicName])).
    { apply in_or_app. right. left. reflexivity. }
    pose proof (proj2 (array_includes_In _ _) Hin) as Hinc. rewrite Hinc. simpl.
    repeat split; auto.
    intros Hnd. apply NoDup_push; [exact Hnd|].
    intros Hx. apply array_includes_In in Hx. congruence.
Qed.

  (** X2. [removeFromFavorites] with a non-empty name succeeds and takes
      away one occurrence of the name, the first, and nothing else: a name
      that was there twice is still a favorite afterwards, and a name that
      was there once is not. *)
Theorem removeFromFavorites_first_occurrence academicName st :
  JS.truthy academicName = true ->
  let st' := snd (removeFromFavorites Date_parse academicName st) in
  fst (removeFromFavorites Date_parse academicName st) = true
  /\ (~ In academicName (getFavorites st) -> getFavorites st' = getFavorites st)
  /\ (In academicName (getFavorites st) ->
        exists pre post, getFavorites st = pre ++ academicName :: post
                         /\ ~ In academicName pre
                         /\ getFavorites st' = pre ++ post)
  /\ (List.NoDup (getFavorites st) -> ~ In academicName (getFavorites st')).
Proof.
  intros Hname st'. unfold st', removeFromFavorites, getFavorites, array_indexOf.
  rewrite Hname. simpl.
  destruct (array_find academicName (favorites st)) as [i|] eqn:E.
  - assert (Hi : (Z.of_nat i =? -1)%Z = false) by (apply Z.eqb_neq; lia).
    rewrite Hi. simpl. rewrite Nat2Z.id.
    destruct (saveToLocalStorage_lists Date_parse
                (set_favorites (splice1 i (favorites st)) st)) as (-> & _).
    simpl. destruct (array_find_split _ _ _ E) as (pre & post & Hxs & Hnot & Hlen & Hsp).
    rewrite Hsp. split; [reflexivity|]. split; [|split].
    + intros Hn. exfalso. apply Hn. rewrite Hxs. apply in_or_app. right. left. reflexivity.
    + intros _. exists pre, post. auto.
    + rewrite Hxs. intros Hnd Hin. apply List.NoDup_remove_2 in Hnd. apply Hnd, Hin.
  - simpl. split; [reflexivity|]. apply array_find_None in E. split; [auto|]. split; [tauto|].
    intros _. exact E.
Qed.

  (** X3. Removing a name just added to favorites that did not hold it
      gives back the favorites of before. *)
Theorem removeFromFavorites_addToFavorites academicName st :
  JS.truthy academicName = true ->
  ~ In academicName (getFavorites st) ->
  getFavorites (snd (removeFromFavorites Date_parse academicName
                       (snd (addToFavorites Date_parse academicName st))))
  = getFavorites st.
Proof.
  intros Hname Hnot. unfold addToFavorites, getFavorites in *. rewrite Hname. simpl.
  assert (E : array_includes academicName (favorites st) = false).
  { destruct (array_includes academicName (favorites st)) eqn:E; [|reflexivity].
    apply array_includes_In in E. tauto. }
  rewrite E. simpl.
  set (st1 := snd (saveToLocalStorage Date_parse
                     (set_favorites (favorites st ++ [academicName]) st))).
  assert (Hf : favorites st1 = favorites st ++ [academicName]).
  { unfold st1.
    destruct (saveToLocalStorage_lists Date_parse
                (set_favorites (favorites st ++ [academicName]) st)) as (-> & _).
    reflexivity. }
  unfold removeFromFavorites, array_indexOf. rewrite Hname. simpl.
  destruct (array_find academicName (favorites st1)) as [i|] eqn:Ef.
  - assert (Hi : (Z.of_nat i =? -1)%Z = false) by (apply Z.eqb_neq; lia).
    rewrite Hi. simpl. rewrite Nat2Z.id.
    destruct (saveToLocalStorage_lists Date_parse
                (set_favorites (splice1 i (favorites st1)) st1)) as (-> & _).
    simpl. destruct (array_find_split _ _ _ Ef) as (pre & post & Hxs & Hn & Hlen & ->).
    rewrite Hf in Hxs.
    assert (Hpre : pre = favorites st /\ post = []).
    { clear - Hxs Hn Hnot. revert pre Hxs Hn.
      induction (favorites st) as [|x xs IH]; intros pre Hxs Hn.
      - destruct pre as [|p pre]; simpl in Hxs.
        + injection Hxs as <-. auto.
        + injection Hxs as <- Hxs. destruct pre; discriminate.
      - destruct pre as [|p pre]; simpl in Hxs.
        + injection Hxs as -> _. exfalso. apply Hnot. left. reflexivity.
        + injection Hxs as <- Hxs.
          destruct (IH (fun Hin => Hnot (or_intror Hin)) pre Hxs
                      (fun Hin => Hn (or_intror Hin))) as [-> ->]. auto. }
    destruct Hpre as [-> ->]. apply app_nil_r.
  - apply array_find_None in Ef. exfalso. apply Ef. rewrite Hf.
    apply in_or_app. right. left. reflexivity.
Qed.
End Favorites.

Lemma addToFavorites_no_duplicate_witness :
  JS.truthy "Michel Henry" = true
  /\ getFavorites (snd (addToFavorites IsoDate.parse "Michel Henry" Session.busy))
     = ["Michel Foucault"; "Jacques Derrida"; "Michel Henry"]
  /\ List.NoDup (getFavorites (snd (addToFavorites IsoDate.parse "Michel Henry" Session.busy))).
Proof.
  split; [reflexivity|]. split; [reflexivity|].
  destruct (addToFavorites_no_duplicate IsoDate.parse "Michel Henry" Session.busy eq_refl)
    as (_ & _ & _ & Hnd & _).
  apply Hnd. repeat constructor; simpl; intuition discriminate.
Defined.

Lemma removeFromFavorites_first_occurrence_witness :
  JS.truthy "Michel Foucault" = true
  /\ List.NoDup (getFavorites Session.busy)
  /\ ~ In "Michel Foucault"
         (getFavorites (snd (removeFromFavorites IsoDate.parse "Michel Foucault"
                               Session.busy))).
Proof.
  assert (Hnd : List.NoDup (getFavorites Session.busy))
    by (repeat constructor; simpl; intuition discriminate).
  split; [reflexivity|]. split; [exact Hnd|].
  destruct (removeFromFavorites_first_occurrence IsoDate.parse "Michel Foucault"
              Session.busy eq_refl) as (_ & _ & _ & Hgone).
  exact (Hgone Hnd).
Defined.

Lemma removeFromFavorites_addToFavorites_witness :
  JS.truthy "Michel Henry" = true
  /\ ~ In "Michel Henry" (getFavorites Session.busy)
  /\ getFavorites (snd (removeFromFavorites IsoDate.parse "Michel Henry"
                          (snd (addToFavorites IsoDate.parse "Michel Henry" Session.busy))))
     = ["Michel Foucault"; "Jacques Derrida"].
Proof.
  assert (Hnot : ~ In "Michel Henry" (getFavorites Session.busy))
    by (simpl; intuition discriminate).
  split; [reflexivity|]. split; [exact Hnot|].
  exact (removeFromFavorites_addToFavorites IsoDate.parse "Michel Henry" Session.busy
           eq_refl Hnot).
Defined.

(* ===================================================================== *)
(** ** Pending submissions *)
(* ===================================================================== *)

Lemma splice1_lookup {A : Type} (i : nat) (xs : list A) (j : nat) :
  splice1 i xs !! j = if j <? i then xs !! j else xs !! Datatypes.S j.
Proof.
  unfold splice1. destruct (j <? i) eqn:E.
  - apply Nat.ltb_lt in E. destruct (le_lt_dec (length xs) j) as [Hge|Hlt].
    + rewrite firstn_all2, skipn_all2, app_nil_r by lia. reflexivity.
    + rewrite lookup_app_l by (rewrite length_firstn; lia).
      apply lookup_take_lt. lia.
  - apply Nat.ltb_ge in E. destruct (le_lt_dec (length xs) i) as [Hge|Hlt].
    + rewrite firstn_all2, skipn_all2, app_nil_r by lia.
      rewrite !lookup_ge_None_2 by lia. reflexivity.
    + rewrite lookup_app_r by (rewrite length_firstn; lia).
      rewrite length_firstn, lookup_drop. f_equal. lia.
Qed.

Lemma splice1_length {A : Type} (i : nat) (xs : list A) :
  i < length xs -> length (splice1 i xs) = length xs - 1.
Proof.
  intros Hi. unfold splice1. rewrite length_app, length_firstn, length_skipn. lia.
Qed.

Lemma splice1_last {A : Type} (xs : list A) x : splice1 (length xs) (xs ++ [x]) = xs.
Proof.
  unfold splice1. rewrite firstn_app, Nat.sub_diag, firstn_all. simpl.
  rewrite skipn_all2 by (rewrite length_app; simpl; lia).
  rewrite !app_nil_r. reflexivity.
Qed.

Section Submissions.
  Context {S : Type} `{WebStorage S}.
  Variable Date_parse : string -> option Z.
  Implicit Type st : state S.

  (** X4. [removePendingSubmission] succeeds exactly for an index within
      the list; out of range it changes nothing; within range the list is
      one shorter, the submissions before the index stay where they were
      and those after it move down by one. *)
Theorem removePendingSubmission_in_range index st :
  let result := removePendingSubmission Date_parse index st in
  let before := getPendingSubmissions st in
  let after := getPendingSubmissions (snd result) in
  (fst result = true <-> (0 <= index < Z.of_nat (length before))%Z)
  /\ (fst result = false -> snd result = st)
  /\ (fst result = true ->
        length after = length before - 1
        /\ forall j, after !! j
                     = if j <? Z.to_nat index then before !! j
                       else before !! Datatypes.S j).
Proof.
  unfold removePendingSubmission, getPendingSubmissions.
  destruct (index <? 0)%Z eqn:E0; simpl.
  { apply Z.ltb_lt in E0. repeat split; try discriminate; lia. }
  apply Z.ltb_ge in E0.
  destruct (Z.of_nat (length (pendingSubmissions st)) <=? index)%Z eqn:E1; simpl.
  { apply Z.leb_le in E1. repeat split; try discriminate; lia. }
  apply Z.leb_gt in E1.
  destruct (saveToLocalStorage_lists Date_parse
              (set_pendingSubmissions
                 (splice1 (Z.to_nat index) (pendingSubmissions st)) st)) as (_ & -> & _).
  simpl. split; [split; [lia | reflexivity]|]. split; [discriminate|]. intros _.
  split; [apply splice1_length; lia | apply splice1_lookup].
Qed.

  (** X5. [addPendingSubmission] refuses a submission without an academic
      name or without a type and then changes nothing; otherwise it
      succeeds and puts the submission at the end of the list, from where
      [removePendingSubmission] at the former length takes it away
      again. *)
Theorem addPendingSubmission_last submission st :
  let result := addPendingSubmission Date_parse submission st in
  let before := getPendingSubmissions st in
  (fst result = true <->
     JS.truthy (academicName submission) = true
     /\ JS.truthy (submissionType submission) = true)
  /\ (fst result = false -> snd result = st)
  /\ (fst result = true ->
        getPendingSubmissions (snd result) = before ++ [submission]
        /\ removePendingSubmission Date_parse (Z.of_nat (length before)) (snd result)
           = (true, snd (removePendingSubmission Date_parse (Z.of_nat (length before))
                           (snd result)))
        /\ getPendingSubmissions
             (snd (removePendingSubmission Date_parse (Z.of_nat (length before))
                     (snd result)))
           = before).
Proof.
  unfold addPendingSubmission, getPendingSubmissions.
  destruct (JS.truthy (academicName submission)); simpl;
    [|repeat split; try discriminate; intros [? ?]; discriminate].
  destruct (JS.truthy (submissionType submission)); simpl;
    [|repeat split; try discriminate; intros [? ?]; discriminate].
  split; [tauto|]. split; [discriminate|]. intros _.
  set (st1 := snd (saveToLocalStorage Date_parse
                     (set_pendingSubmissions (pendingSubmissions st ++ [submission]) st))).
  assert (Hp : pendingSubmissions st1 = pendingSubmissions st ++ [submission]).
  { unfold st1.
    destruct (saveToLocalStorage_lists Date_parse
                (set_pendingSubmissions (pendingSubmissions st ++ [submission]) st))
      as (_ & -> & _).
    reflexivity. }
  split; [exact Hp|]. unfold removePendingSubmission. rewrite Hp, length_app. simpl.
  assert (E0 : (Z.of_nat (length (pendingSubmissions st)) <? 0)%Z = false)
    by (apply Z.ltb_ge; lia).
  assert (E1 : (Z.of_nat (length (pendingSubmissions st) + 1)
                <=? Z.of_nat (length (pendingSubmissions st)))%Z = false)
    by (apply Z.leb_gt; lia).
  rewrite E0, E1. simpl. split; [reflexivity|]. rewrite Nat2Z.id.
  match goal with
  | |- context [saveToLocalStorage Date_parse ?s] =>
      destruct (saveToLocalStorage_lists Date_parse s) as (_ & -> & _)
  end.
  simpl. apply splice1_last.
Qed.
End Submissions.

(* ===================================================================== *)
(** ** The recent tiles *)
(* ===================================================================== *)

Lemma StronglySorted_app_inv {A : Type} (R : A -> A -> Prop) (l1 l2 : list A) :
  StronglySorted R (l1 ++ l2) ->
  StronglySorted R l1 /\ StronglySorted R l2
  /\ forall a b, In a l1 -> In b l2 -> R a b.
Proof.
  induction l1 as [|x l1 IH]; simpl; intros Hs.
  - split; [constructor|]. split; [exact Hs|]. intros a b [].
  - inversion Hs as [|? ? Hs' Hx]; subst. destruct (IH Hs') as (H1 & H2 & H12).
    rewrite List.Forall_forall in Hx.
    split; [constructor; [exact H1|]|split; [exact H2|]].
    + apply List.Forall_forall. intros y Hy. apply Hx, in_or_app. left. exact Hy.
    + intros a b [->|Ha] Hb; [apply Hx, in_or_app; right; exact Hb | apply H12; assumption].
Qed.

Section RecentTiles.
  Context {S : Type}.
  Variable Date_parse : string -> option Z.
  Implicit Type st : state S.

Lemma by_date_desc_time a b :
  has_valid_date Date_parse a -> has_valid_date Date_parse b ->
  by_date_desc Date_parse a b = (tile_time Date_parse b - tile_time Date_parse a)%Z.
Proof.
  intros (da & za & Ha & Hza) (db & zb & Hb & Hzb).
  unfold by_date_desc, date_value, tile_time. rewrite Ha, Hb, Hza, Hzb. reflexivity.
Qed.

  (** The tiles whose dates [Date] reads come out of the sort newest
      first. *)
Lemma sort_by_date_desc tiles :
  List.Forall (has_valid_date Date_parse) tiles ->
  StronglySorted (fun a b => (tile_time Date_parse b <= tile_time Date_parse a)%Z)
    (JS.sort (by_date_desc Date_parse) tiles).
Proof.
  intros Hv.
  apply (sort_sorted _ (has_valid_date Date_parse)); [| | |exact Hv].
  - intros x y Px Py. rewrite (by_date_desc_time _ _ Px Py). lia.
  - intros x y Px Py. rewrite (by_date_desc_time _ _ Px Py). lia.
  - intros x y z. lia.
Qed.

  (** X6. With a limit that is not negative (10 when the argument is left
      out) and tiles whose dates [Date] reads, [getRecentNoveltyTiles]
      returns as many tiles as the limit allows, newest first, and no tile
      that it leaves out is newer than one that it returns. *)
Theorem getRecentNoveltyTiles_newest_first limit st :
  let n := match limit with Some n => n | None => 10%Z end in
  (0 <= n)%Z ->
  List.Forall (has_valid_date Date_parse) (noveltyTiles st) ->
  let recent := getRecentNoveltyTiles Date_parse limit st in
  length recent = Nat.min (Z.to_nat n) (length (noveltyTiles st))
  /\ StronglySorted (fun a b => (tile_time Date_parse b <= tile_time Date_parse a)%Z)
       recent
  /\ exists older, Permutation (noveltyTiles st) (recent ++ older)
       /\ forall a b, In a recent -> In b older ->
                      (tile_time Date_parse b <= tile_time Date_parse a)%Z.
Proof.
  intros n Hn Hv recent. unfold recent, getRecentNoveltyTiles, slice_to. fold n.
  assert (E : (n <? 0)%Z = false) by (apply Z.ltb_ge; lia). rewrite E.
  set (sorted := JS.sort (by_date_desc Date_parse) (noveltyTiles st)).
  pose proof (sort_by_date_desc _ Hv) as Hs. fold sorted in Hs.
  rewrite <- (firstn_skipn (Z.to_nat n) sorted) in Hs.
  apply StronglySorted_app_inv in Hs. destruct Hs as (H1 & _ & H12).
  split; [|split; [exact H1|]].
  - rewrite length_firstn. unfold sorted.
    rewrite (Permutation_length (sort_perm (by_date_desc Date_parse) (noveltyTiles st))).
    reflexivity.
  - exists (skipn (Z.to_nat n) sorted). split; [|exact H12].
    rewrite firstn_skipn. symmetry. apply sort_perm.
Qed.
End RecentTiles.

Lemma getRecentNoveltyTiles_newest_first_witness :
  List.Forall (has_valid_date IsoDate.parse) (noveltyTiles Session.busy)
  /\ map Tile.title (getRecentNoveltyTiles IsoDate.parse (Some 2%Z) Session.busy)
     = ["Third"; "Second"]
  /\ StronglySorted
       (fun a b => (tile_time IsoDate.parse b <= tile_time IsoDate.parse a)%Z)
       (getRecentNoveltyTiles IsoDate.parse (Some 2%Z) Session.busy).
Proof.
  assert (Hv : List.Forall (has_valid_date IsoDate.parse) (noveltyTiles Session.busy)).
  { repeat constructor; eexists; eexists; (split; [reflexivity|]); vm_compute; reflexivity. }
  split; [exact Hv|]. split; [reflexivity|].
  assert (Hn : (0 <= 2)%Z) by lia.
  exact (proj1 (proj2 (getRecentNoveltyTiles_newest_first IsoDate.parse (Some 2%Z)
                         Session.busy Hn Hv))).
Defined.

(* ===================================================================== *)
(** ** The network view *)
(* ===================================================================== *)

Section Network.
  Context {S : Type}.
  Implicit Type st : state S.

Lemma network_nodes_In st n :
  In n (network_nodes st) <->
  exists r, In r (getAllAcademics st)
            /\ JS.truthy (name (deref (heap st) r)) = true
            /\ n = Node.mk (name (deref (heap st) r)) (discipline_of (deref (heap st) r)).
Proof.
  unfold network_nodes, getAllAcademics. rewrite in_flat_map. split.
  - intros (r & Hr & Hn). exists r. split; [exact Hr|].
    destruct (JS.truthy (name (deref (heap st) r))); [|destruct Hn].
    destruct Hn as [<-|[]]. auto.
  - intros (r & Hr & Ht & ->). exists r. split; [exact Hr|]. rewrite Ht. left. reflexivity.
Qed.

Lemma academicMap_has_spec nodes connection :
  academicMap_has nodes connection = true <->
  exists n, In n nodes /\ Node.id n = connection.
Proof.
  unfold academicMap_has. rewrite List.existsb_exists. split.
  - intros (n & Hn & E). apply String.eqb_eq in E. eauto.
  - intros (n & Hn & E). exists n. split; [exact Hn | apply String.eqb_eq, E].
Qed.

Lemma network_links_In st l :
  In l (network_links st) <->
  exists r, In r (getAllAcademics st)
            /\ In (Link.target l) (connections_of (deref (heap st) r))
            /\ academicMap_has (network_nodes st) (Link.target l) = true
            /\ l = Link.mk (name (deref (heap st) r)) (Link.target l) 1%Z.
Proof.
  unfold network_links, getAllAcademics, connections_of. rewrite in_flat_map. split.
  - intros (r & Hr & Hl). exists r. split; [exact Hr|].
    destruct (connections (deref (heap st) r)) as [cs|]; [|destruct Hl].
    apply in_flat_map in Hl. destruct Hl as (c & Hc & Hl).
    destruct (academicMap_has (network_nodes st) c) eqn:E; [|destruct Hl].
    destruct Hl as [<-|[]]. simpl. auto.
  - intros (r & Hr & Hc & Hhas & Hl). exists r. split; [exact Hr|].
    destruct (connections (deref (heap st) r)) as [cs|]; [|destruct Hc].
    apply in_flat_map. exists (Link.target l). split; [exact Hc|].
    rewrite Hhas. left. symmetry. exact Hl.
Qed.

  (** X7. The links of [getNetworkData] are exactly the pairs of the name
      of a stored record and one of its connections that is the name of a
      stored record with a name, each of value 1.  So the target of a link
      is always a node; its source is a node when the record it comes from
      has a name. *)
Theorem getNetworkData_links st l :
  let nodes := fst (getNetworkData st) in
  let links := snd (getNetworkData st) in
  (In l links <->
     Link.value l = 1%Z
     /\ exists r t, In r (getAllAcademics st) /\ In t (getAllAcademics st)
          /\ Link.source l = name (deref (heap st) r)
          /\ In (Link.target l) (connections_of (deref (heap st) r))
          /\ Link.target l = name (deref (heap st) t)
          /\ JS.truthy (name (deref (heap st) t)) = true)
  /\ (In l links -> exists n, In n nodes /\ Node.id n = Link.target l)
  /\ (In l links -> JS.truthy (Link.source l) = true ->
        exists n, In n nodes /\ Node.id n = Link.source l).
Proof.
  simpl. split; [|split].
  - rewrite network_links_In. split.
    + intros (r & Hr & Hc & Hhas & Hl).
      assert (Hs : Link.source l = name (deref (heap st) r)) by (rewrite Hl; reflexivity).
      split; [rewrite Hl; reflexivity|].
      apply academicMap_has_spec in Hhas. destruct Hhas as (n & Hn & Hid).
      apply network_nodes_In in Hn. destruct Hn as (t & Ht & Htruthy & ->).
      simpl in Hid. exists r, t. repeat split; auto.
    + intros (Hv & r & t & Hr & Ht & Hs & Hc & Htn & Htruthy).
      exists r. split; [exact Hr|]. split; [exact Hc|]. split.
      * apply academicMap_has_spec.
        exists (Node.mk (name (deref (heap st) t)) (discipline_of (deref (heap st) t))).
        split; [|simpl; congruence]. apply network_nodes_In. exists t. auto.
      * destruct l as [s tg v]. simpl in *. congruence.
  - intros Hl. apply network_links_In in Hl. destruct Hl as (_ & _ & _ & Hhas & _).
    apply academicMap_has_spec, Hhas.
  - intros Hl Hsrc. apply network_links_In in Hl. destruct Hl as (r & Hr & _ & _ & Hl).
    assert (Hs : Link.source l = name (deref (heap st) r)) by (rewrite Hl; reflexivity).
    rewrite Hs in *.
    exists (Node.mk (name (deref (heap st) r)) (discipline_of (deref (heap st) r))).
    split; [|reflexivity]. apply network_nodes_In. exists r. auto.
Qed.

Lemma lists_connection_In n a : lists_connection n a = true <-> In n (connections_of a).
Proof.
  unfold lists_connection, connections_of. destruct (connections a) as [cs|].
  - apply array_includes_In.
  - split; [discriminate | intros []].
Qed.

  (** X8. For a name that is a node of the network, the records that
      [getAcademicsByConnection] returns are the ones from which a link
      leads to that node: the sources of the links into the node are the
      names of these records. *)
Theorem getAcademicsByConnection_links academicName st s :
  (exists n, In n (fst (getNetworkData st)) /\ Node.id n = academicName) ->
  (exists l, In l (snd (getNetworkData st))
             /\ Link.target l = academicName /\ Link.source l = s)
  <-> (exists r, In r (getAcademicsByConnection academicName st)
                 /\ name (deref (heap st) r) = s).
Proof.
  simpl. intros Hnode.
  assert (Htruthy : JS.truthy academicName = true).
  { destruct Hnode as (n & Hn & <-). apply network_nodes_In in Hn.
    destruct Hn as (r & _ & Ht & ->). exact Ht. }
  unfold getAcademicsByConnection. rewrite Htruthy. simpl. split.
  - intros (l & Hl & Ht & Hs). apply network_links_In in Hl.
    destruct Hl as (r & Hr & Hc & _ & Hl). rewrite Ht in Hc.
    exists r. split; [|rewrite <- Hs, Hl; reflexivity].
    apply List.filter_In. split; [exact Hr|].
    apply lists_connection_In, Hc.
  - intros (r & Hr & Hs). apply List.filter_In in Hr. destruct Hr as [Hr Hc].
    apply lists_connection_In in Hc.
    exists (Link.mk (name (deref (heap st) r)) academicName 1%Z). simpl.
    split; [|auto]. apply network_links_In. exists r. simpl.
    split; [exact Hr|]. split; [exact Hc|]. split; [|reflexivity].
    apply academicMap_has_spec, Hnode.
Qed.
End Network.

Lemma getAcademicsByConnection_links_witness :
  (exists n, In n (fst (getNetworkData Session.busy)) /\ Node.id n = "Michel Foucault")
  /\ getAcademicsByConnection "Michel Foucault" Session.busy = [2]
  /\ exists l, In l (snd (getNetworkData Session.busy))
               /\ Link.target l = "Michel Foucault"
               /\ Link.source l = "Jacques Derrida".
Proof.
  assert (Hnode : exists n, In n (fst (getNetworkData Session.busy))
                            /\ Node.id n = "Michel Foucault").
  { exists (Node.mk "Michel Foucault" "Philosophy"). split; [|reflexivity].
    right. left. reflexivity. }
  split; [exact Hnode|]. split; [reflexivity|].
  apply (proj2 (getAcademicsByConnection_links "Michel Foucault" Session.busy
                  "Jacques Derrida" Hnode)).
  exists 2. split; [left; reflexivity | reflexivity].
Defined.

(* ===================================================================== *)
(** ** Saving, loading and the start of a session *)
(* ===================================================================== *)

Section Persistence.
  Context {S : Type} `{LawfulStorage S}.
  Variable Date_parse : string -> option Z.
  Implicit Type st : state S.

  (** What the four slots hold after the four writes of a save. *)
Lemma save_writes_slots st st1 :
  save_writes Date_parse st = (st1, None) ->
  getItem ACADEMICS (localStorage st1) = Some (Json (JCatalog (snapshot st)))
  /\ getItem NOVELTY_TILES (localStorage st1)
     = Some (Json (JTiles (most_recent Date_parse 50 (noveltyTiles st))))
  /\ getItem FAVORITES (localStorage st1) = Some (Json (JStrings (favorites st)))
  /\ getItem PENDING_SUBMISSIONS (localStorage st1)
     = Some (Json (JSubmissions (pendingSubmissions st))).
Proof.
  unfold save_writes.
  destruct (write ACADEMICS _ st) as [s1 [x|]] eqn:E1; [discriminate|].
  destruct (write NOVELTY_TILES _ s1) as [s2 [x|]] eqn:E2; [discriminate|].
  destruct (write FAVORITES _ s2) as [s3 [x|]] eqn:E3; [discriminate|].
  intros E4.
  pose proof (write_only_storage _ _ _ _ _ E1) as (_&_&T1&F1&P1&_).
  pose proof (write_only_storage _ _ _ _ _ E2) as (_&_&T2&F2&P2&_).
  pose proof (write_only_storage _ _ _ _ _ E3) as (_&_&T3&F3&P3&_).
  repeat split.
  - rewrite (write_read _ _ _ _ ACADEMICS E4), (write_read _ _ _ _ ACADEMICS E3),
      (write_read _ _ _ _ ACADEMICS E2), (write_read _ _ _ _ ACADEMICS E1).
    reflexivity.
  - rewrite (write_read _ _ _ _ NOVELTY_TILES E4), (write_read _ _ _ _ NOVELTY_TILES E3),
      (write_read _ _ _ _ NOVELTY_TILES E2). simpl. rewrite T1. reflexivity.
  - rewrite (write_read _ _ _ _ FAVORITES E4), (write_read _ _ _ _ FAVORITES E3).
    simpl. rewrite F2, F1. reflexivity.
  - rewrite (write_read _ _ _ _ PENDING_SUBMISSIONS E4). simpl.
    rewrite P3, P2, P1. reflexivity.
Qed.

Lemma free_space_persists st :
  fst (free_space Date_parse st) = true ->
  getItem ACADEMICS (localStorage (snd (free_space Date_parse st)))
  = Some (Json (JCatalog (snapshot (snd (free_space Date_parse st))))).
Proof.
  unfold free_space.
  destruct (20 <? length (noveltyTiles st)).
  - destruct (write NOVELTY_TILES _ _) as [st2 [x|]] eqn:E2; [discriminate|].
    destruct (write ACADEMICS _ st2) as [st3 [x|]] eqn:E3; [discriminate|].
    intros _. simpl. rewrite (write_read _ _ _ _ ACADEMICS E3). simpl.
    rewrite (snapshot_only_storage _ _ (write_only_storage _ _ _ _ _ E3)). reflexivity.
  - destruct (write ACADEMICS _ st) as [st3 [x|]] eqn:E3; [discriminate|].
    intros _. simpl. rewrite (write_read _ _ _ _ ACADEMICS E3). simpl.
    rewrite (snapshot_only_storage _ _ (write_only_storage _ _ _ _ _ E3)). reflexivity.
Qed.

  (** X9. Over a storage that honours its contract, a save that reports
      success has left the catalog in memory as it was and has persisted
      it: the academics slot holds that catalog. *)
Theorem saveToLocalStorage_persists_catalog st :
  fst (saveToLocalStorage Date_parse st) = true ->
  let st' := snd (saveToLocalStorage Date_parse st) in
  snapshot st' = snapshot st
  /\ getItem ACADEMICS (localStorage st') = Some (Json (JCatalog (snapshot st))).
Proof.
  intros Hok st'.
  assert (Hsame : snapshot st' = snapshot st).
  { unfold st', snapshot.
    destruct (saveToLocalStorage_catalog Date_parse st) as (-> & -> & _). reflexivity. }
  split; [exact Hsame|]. rewrite <- Hsame. unfold st' in *. clear Hsame st'.
  revert Hok. unfold saveToLocalStorage.
  destruct (negb (localStorageSupported st)); [discriminate|].
  destruct (save_writes Date_parse (_createBackup st)) as [st1 [[|]|]] eqn:Ew.
  - apply free_space_persists.
  - discriminate.
  - rewrite (save_writes_verified _ _ _ Ew). intros _. simpl.
    rewrite (save_writes_read _ _ _ Ew). do 3 f_equal.
    symmetry. apply snapshot_only_storage. eapply save_writes_only_storage, Ew.
Qed.

  (** What a load makes of four slots that hold a catalog and the three
      arrays. *)
Lemma loadFromLocalStorage_slots st c tiles favs subs :
  localStorageSupported st = true ->
  getItem ACADEMICS (localStorage st) = Some (Json (JCatalog c)) ->
  getItem NOVELTY_TILES (localStorage st) = Some (Json (JTiles tiles)) ->
  getItem FAVORITES (localStorage st) = Some (Json (JStrings favs)) ->
  getItem PENDING_SUBMISSIONS (localStorage st) = Some (Json (JSubmissions subs)) ->
  _loadFromLocalStorage st
  = (match c with [] => false | _ :: _ => true end,
     set_pendingSubmissions subs
       (set_favorites favs
          (set_noveltyTiles tiles
             (match c with [] => st | _ :: _ => assign_academics c st end)))).
Proof.
  intros Hs Ha Ht Hf Hp. unfold _loadFromLocalStorage. rewrite Hs, Ha, Ht, Hf, Hp. simpl.
  destruct c; reflexivity.
Qed.

  (** X10. Over a storage that honours its contract, when the four writes
      of a save all return, a load from that storage into any manager
      brings back the catalog (and reports success) when the catalog has a
      key, leaves the manager's own catalog (and reports failure) when it
      has none, and brings back the favorites and the submissions; of the
      tiles it brings back the 50 most recent by date. *)
Theorem loadFromLocalStorage_after_save st st1 st0 :
  localStorageSupported st = true ->
  save_writes Date_parse (_createBackup st) = (st1, None) ->
  localStorageSupported st0 = true ->
  localStorage st0 = localStorage st1 ->
  let loaded := _loadFromLocalStorage st0 in
  saveToLocalStorage Date_parse st = (true, st1)
  /\ (academics st <> [] -> fst loaded = true /\ snapshot (snd loaded) = snapshot st)
  /\ (academics st = [] -> fst loaded = false /\ academics (snd loaded) = academics st0)
  /\ noveltyTiles (snd loaded) = most_recent Date_parse 50 (noveltyTiles st)
  /\ favorites (snd loaded) = favorites st
  /\ pendingSubmissions (snd loaded) = pendingSubmissions st.
Proof.
  intros Hs Hw Hs0 Hls loaded.
  split.
  { unfold saveToLocalStorage. rewrite Hs, Hw. simpl.
    rewrite (save_writes_verified _ _ _ Hw). reflexivity. }
  destruct (save_writes_slots _ _ Hw) as (Ea & Et & Ef & Ep).
  destruct (createBackup_only_storage st) as (Bh & Ba & Bt & Bf & Bp & _).
  rewrite (snapshot_only_storage _ _ (createBackup_only_storage st)) in Ea.
  rewrite Bt in Et. rewrite Bf in Ef. rewrite Bp in Ep. rewrite <- Hls in Ea, Et, Ef, Ep.
  unfold loaded. rewrite (loadFromLocalStorage_slots _ _ _ _ _ Hs0 Ea Et Ef Ep).
  assert (Hnil : snapshot st = [] <-> academics st = []).
  { unfold snapshot. destruct (academics st); simpl; split; congruence. }
  destruct (snapshot st) as [|kv c] eqn:Esnap; simpl.
  - split; [|auto]. intros Hne. exfalso. apply Hne, Hnil. reflexivity.
  - split; [|split; [|auto]].
    + intros _. split; [reflexivity|].
      change (snapshot (assign_academics (kv :: c) st0) = kv :: c).
      apply snapshot_assign.
    + intros Hnone. apply Hnil in Hnone. discriminate Hnone.
Qed.
End Persistence.

Section Sessions.
  Context {S : Type} {WS : WebStorage S} {LS : LawfulStorage S}
          {SR : StorageRemoval S} {LR : LawfulRemoval S}.
  Variable Date_parse : string -> option Z.
  Implicit Type st : state S.

Lemma wf_assign c st : wf (assign_academics c st).
Proof.
  unfold wf, assign_academics. simpl. apply List.Forall_forall. intros [k r] Hin.
  apply in_combine_r in Hin. apply in_seq in Hin. simpl.
  rewrite length_app, length_map. lia.
Qed.

Lemma snapshot_nil st : snapshot st = [] <-> academics st = [].
Proof. unfold snapshot. destruct (academics st); simpl; split; congruence. Qed.

  (** What a load leaves of the catalog. *)
Lemma loadFromLocalStorage_catalog st :
  localStorageSupported st = true ->
  wf st ->
  let loaded := snd (_loadFromLocalStorage st) in
  wf loaded
  /\ localStorage loaded = localStorage st
  /\ localStorageSupported loaded = true
  /\ taxonomyCategories loaded = taxonomyCategories st
  /\ match as_catalog (getItem ACADEMICS (localStorage st)) with
     | Some c => fst (_loadFromLocalStorage st) = true /\ snapshot loaded = c
                 /\ academics loaded <> []
     | None => fst (_loadFromLocalStorage st) = false /\ snapshot loaded = snapshot st
     end.
Proof.
  intros Hs Hwf. unfold _loadFromLocalStorage. rewrite Hs. simpl.
  destruct (as_tiles _), (as_strings _), (as_submissions _);
    destruct (as_catalog (getItem ACADEMICS (localStorage st))) as [c|] eqn:Ec; simpl;
    repeat split; try assumption; try apply (wf_assign c st);
    try apply (snapshot_assign c st);
    intros Hnil; apply (snapshot_nil (assign_academics c st)) in Hnil;
    rewrite snapshot_assign in Hnil; subst c;
    unfold as_catalog in Ec;
    destruct (getItem ACADEMICS (localStorage st)) as [[[]|]|]; try discriminate Ec;
    destruct c; discriminate Ec.
Qed.

  (** The catalog of a new manager. *)
Lemma constructor_snapshot ls :
  let st := constructor Date_parse ls in
  wf st
  /\ taxonomyCategories st = default_taxonomyCategories
  /\ snapshot st
     = match (if fst (_checkLocalStorageSupport ls)
              then as_catalog (getItem ACADEMICS (snd (_checkLocalStorageSupport ls)))
              else None) with
       | Some c => c
       | None => default_academics
       end.
Proof.
  unfold constructor. destruct (_checkLocalStorageSupport ls) as [supported ls1]. simpl.
  set (st0 := mkState [] [] [] [] [] default_taxonomyCategories supported ls1 0).
  unfold _initializeData. change (localStorageSupported st0) with supported.
  destruct supported.
  - assert (Hwf0 : wf st0) by constructor.
    destruct (loadFromLocalStorage_catalog st0 eq_refl Hwf0) as (Hwf & Hls & Hsup & Ht & Hc).
    change (localStorage st0) with ls1 in Hc.
    destruct (_loadFromLocalStorage st0) as [loadSuccessful st1]. simpl in *.
    destruct (as_catalog (getItem ACADEMICS ls1)) as [c|].
    + destruct Hc as (-> & Hsnap & Hne). simpl.
      destruct (length (academics st1) =? 0) eqn:El.
      * apply Nat.eqb_eq in El. destruct (academics st1); [tauto | discriminate El].
      * auto.
    + destruct Hc as (-> & _). simpl.
      destruct (saveToLocalStorage_catalog Date_parse (_initializeDefaultData st1))
        as (Sh & Sa & _).
      destruct (saveToLocalStorage_lists Date_parse (_initializeDefaultData st1))
        as (_ & _ & St).
      split; [|split].
      * unfold wf. rewrite Sh, Sa. apply (wf_assign default_academics st1).
      * rewrite St. exact Ht.
      * unfold snapshot. rewrite Sh, Sa. apply (snapshot_assign default_academics st1).
  - split; [apply (wf_assign default_academics st0)|]. split; [reflexivity|].
    apply (snapshot_assign default_academics st0).
Qed.

  (** X11. Over a storage that honours its contract, and when the
      academics slot holds a catalog or no object at all, a new manager
      holds the catalog persisted in the academics slot when the storage
      passes the support test and that catalog has at least one key, and
      the catalog of the sample record otherwise; so its catalog is never
      empty.  Its taxonomy vocabulary is always the built-in one. *)
Theorem constructor_catalog ls :
  let st := constructor Date_parse ls in
  let supported := fst (_checkLocalStorageSupport ls) in
  let slot := getItem ACADEMICS (snd (_checkLocalStorageSupport ls)) in
  catalog_slot slot = true ->
  wf st
  /\ academics st <> []
  /\ (supported = false -> snapshot st = default_academics)
  /\ (supported = true ->
        forall c, slot = Some (Json (JCatalog c)) -> c <> [] -> snapshot st = c)
  /\ (supported = true ->
        (forall c, slot = Some (Json (JCatalog c)) -> c = []) ->
        snapshot st = default_academics)
  /\ getAllTaxonomyCategories st = default_taxonomyCategories.
Proof.
  intros st supported slot Hslot.
  destruct (constructor_snapshot ls) as (Hwf & Ht & Hsnap).
  fold st supported slot in Hwf, Ht, Hsnap. clearbody st supported slot.
  split; [exact Hwf|]. split; [|split; [|split; [|split; [|exact Ht]]]].
  - intros Hnil. apply snapshot_nil in Hnil. rewrite Hnil in Hsnap.
    destruct supported; [|discriminate Hsnap].
    destruct (as_catalog slot) as [c|] eqn:Es; [|discriminate Hsnap]. subst c.
    unfold as_catalog in Es.
    destruct slot as [[[]|]|]; try discriminate Es.
    destruct c; discriminate Es.
  - intros E. rewrite E in Hsnap. exact Hsnap.
  - intros E c Ec Hc. rewrite E, Ec in Hsnap. destruct c; [contradiction|]. exact Hsnap.
  - intros E Hempty. rewrite E in Hsnap.
    destruct (as_catalog slot) as [c|] eqn:Es; [|exact Hsnap].
    unfold as_catalog in Es.
    destruct slot as [[[c0| | | | | | | |]|]|]; try discriminate Es.
    rewrite (Hempty c0 eq_refl) in Es. discriminate Es.
Qed.

  (** The support test leaves the other keys as they were. *)
Lemma checkLocalStorageSupport_keys ls k :
  fst (_checkLocalStorageSupport ls) = true ->
  String.eqb k TEST_KEY = false ->
  getItem k (snd (_checkLocalStorageSupport ls)) = getItem k ls.
Proof.
  unfold _checkLocalStorageSupport.
  destruct (setItem TEST_KEY (Raw TEST_KEY) ls) as [ls1 [x|]] eqn:E1; [discriminate|].
  destruct (removeItem TEST_KEY ls1) as [ls2 [x|]] eqn:E2; [discriminate|].
  intros _ Hk. simpl.
  rewrite (getItem_removeItem _ _ _ _ E2 _ Hk), (getItem_setItem _ _ _ _ E1), Hk.
  reflexivity.
Qed.

  (** X12. Over a storage that honours its contract, when the four writes
      of a save all return and the catalog saved has at least one key, a
      manager constructed afterwards over that storage, if the storage
      passes the support test, starts with the catalog, the favorites and
      the submissions of the save, and with the 50 most recent of its
      tiles.  The taxonomy vocabulary is not persisted: the new manager
      has the built-in one. *)
Theorem constructor_restores_session st st1 :
  localStorageSupported st = true ->
  save_writes Date_parse (_createBackup st) = (st1, None) ->
  academics st <> [] ->
  fst (_checkLocalStorageSupport (localStorage st1)) = true ->
  let next := constructor Date_parse (localStorage st1) in
  saveToLocalStorage Date_parse st = (true, st1)
  /\ snapshot next = snapshot st
  /\ noveltyTiles next = most_recent Date_parse 50 (noveltyTiles st)
  /\ getFavorites next = getFavorites st
  /\ getPendingSubmissions next = getPendingSubmissions st
  /\ getAllTaxonomyCategories next = default_taxonomyCategories.
Proof.
  intros Hs Hw Hne Hcheck next.
  split.
  { unfold saveToLocalStorage. rewrite Hs, Hw. simpl.
    rewrite (save_writes_verified _ _ _ Hw). reflexivity. }
  destruct (save_writes_slots _ _ _ Hw) as (Ea & Et & Ef & Ep).
  destruct (createBackup_only_storage st) as (Bh & Ba & Bt & Bf & Bp & _).
  rewrite (snapshot_only_storage _ _ (createBackup_only_storage st)) in Ea.
  rewrite Bt in Et. rewrite Bf in Ef. rewrite Bp in Ep.
  rewrite <- (checkLocalStorageSupport_keys _ ACADEMICS Hcheck eq_refl) in Ea.
  rewrite <- (checkLocalStorageSupport_keys _ NOVELTY_TILES Hcheck eq_refl) in Et.
  rewrite <- (checkLocalStorageSupport_keys _ FAVORITES Hcheck eq_refl) in Ef.
  rewrite <- (checkLocalStorageSupport_keys _ PENDING_SUBMISSIONS Hcheck eq_refl) in Ep.
  unfold next, constructor, getFavorites, getPendingSubmissions, getAllTaxonomyCategories.
  destruct (_checkLocalStorageSupport (localStorage st1)) as [supported ls1].
  simpl in Hcheck, Ea, Et, Ef, Ep. subst supported.
  set (st0 := mkState [] [] [] [] [] default_taxonomyCategories true ls1 0).
  unfold _initializeData. change (localStorageSupported st0) with true. cbv iota.
  rewrite (loadFromLocalStorage_slots st0 _ _ _ _ eq_refl Ea Et Ef Ep).
  destruct (snapshot st) as [|kv c] eqn:Esnap.
  { apply snapshot_nil in Esnap. contradiction. }
  simpl. repeat split. apply (snapshot_fresh (kv :: c) []).
Qed.
End Sessions.

Lemma obj_get_delete {V : Type} k k' (o : list (string * V)) :
  String.eqb k' k = false -> JS.obj_get k' (obj_delete k o) = JS.obj_get k' o.
Proof.
  intros Hk. induction o as [|[k0 v0] o IH]; simpl; [reflexivity|].
  destruct (String.eqb k k0) eqn:E0.
  - apply String.eqb_eq in E0. subst k0. rewrite Hk. reflexivity.
  - simpl. rewrite IH. reflexivity.
Qed.

#[global] Instance PlainStorage_lawful_removal : LawfulRemoval PlainStorage.t.
Proof.
  constructor. intros k s s' thrown. simpl. intros [= <- _] k' Hk.
  apply obj_get_delete, Hk.
Qed.

#[global] Instance QuotaStorage_lawful_removal : LawfulRemoval QuotaStorage.t.
Proof.
  constructor. intros k s s' thrown. simpl. intros [= <- _] k' Hk.
  unfold QuotaStorage.get. simpl. apply obj_get_delete, Hk.
Qed.

Lemma saveToLocalStorage_persists_catalog_witness :
  fst (saveToLocalStorage IsoDate.parse Session.busy) = true
  /\ getItem ACADEMICS (localStorage (snd (saveToLocalStorage IsoDate.parse Session.busy)))
     = Some (Json (JCatalog [("michel-henry", Example.henry);
                             ("michel-foucault", Example.foucault);
                             ("jacques-derrida", Example.derrida)])).
Proof.
  assert (Hok : fst (saveToLocalStorage IsoDate.parse Session.busy) = true)
    by reflexivity.
  split; [exact Hok|].
  exact (proj2 (saveToLocalStorage_persists_catalog IsoDate.parse Session.busy Hok)).
Defined.

Lemma loadFromLocalStorage_after_save_witness :
  let st1 := fst (save_writes IsoDate.parse (_createBackup Session.busy)) in
  let st0 := Example.manager [] [] true (localStorage st1) in
  save_writes IsoDate.parse (_createBackup Session.busy) = (st1, None)
  /\ snapshot (snd (_loadFromLocalStorage st0)) = snapshot Session.busy
  /\ favorites (snd (_loadFromLocalStorage st0)) = ["Michel Foucault"; "Jacques Derrida"]
  /\ map Tile.title (noveltyTiles (snd (_loadFromLocalStorage st0)))
     = ["Third"; "Second"; "First"].
Proof.
  intros st1 st0.
  assert (Hw : save_writes IsoDate.parse (_createBackup Session.busy) = (st1, None))
    by reflexivity.
  split; [exact Hw|].
  destruct (loadFromLocalStorage_after_save IsoDate.parse Session.busy st1 st0
              eq_refl Hw eq_refl eq_refl) as (_ & Hcat & _ & Htiles & Hfav & _).
  split; [apply Hcat; discriminate|]. split; [exact Hfav|].
  rewrite Htiles. reflexivity.
Defined.

Lemma constructor_catalog_witness :
  (catalog_slot (getItem ACADEMICS (snd (_checkLocalStorageSupport ([] : PlainStorage.t))))
   = true
   /\ snapshot (constructor IsoDate.parse ([] : PlainStorage.t)) = default_academics
   /\ wf (constructor IsoDate.parse ([] : PlainStorage.t)))
  /\ (catalog_slot
        (getItem ACADEMICS
           (snd (_checkLocalStorageSupport
                   (localStorage (snd (saveToLocalStorage IsoDate.parse Session.busy))))))
      = true
      /\ snapshot (constructor IsoDate.parse
                     (localStorage (snd (saveToLocalStorage IsoDate.parse Session.busy))))
         = snapshot Session.busy).
Proof.
  split.
  - assert (Hslot : catalog_slot
                      (getItem ACADEMICS
                         (snd (_checkLocalStorageSupport ([] : PlainStorage.t)))) = true)
      by reflexivity.
    split; [exact Hslot|].
    destruct (constructor_catalog IsoDate.parse ([] : PlainStorage.t) Hslot)
      as (Hwf & _ & _ & _ & Hdefault & _).
    split; [|exact Hwf].
    apply Hdefault; [reflexivity|]. intros c Hc. discriminate Hc.
  - assert (Hslot : catalog_slot
                      (getItem ACADEMICS
                         (snd (_checkLocalStorageSupport
                                 (localStorage
                                    (snd (saveToLocalStorage IsoDate.parse Session.busy))))))
                    = true) by (vm_compute; reflexivity).
    split; [exact Hslot|].
    destruct (constructor_catalog IsoDate.parse
                (localStorage (snd (saveToLocalStorage IsoDate.parse Session.busy))) Hslot)
      as (_ & _ & _ & Hsaved & _).
    apply (Hsaved ltac:(vm_compute; reflexivity) (snapshot Session.busy));
      [vm_compute; reflexivity | discriminate].
Defined.

Lemma constructor_restores_session_witness :
  let st1 := fst (save_writes IsoDate.parse (_createBackup Session.busy)) in
  save_writes IsoDate.parse (_createBackup Session.busy) = (st1, None)
  /\ snapshot (constructor IsoDate.parse (localStorage st1)) = snapshot Session.busy
  /\ getFavorites (constructor IsoDate.parse (localStorage st1))
     = ["Michel Foucault"; "Jacques Derrida"].
Proof.
  intros st1.
  assert (Hw : save_writes IsoDate.parse (_createBackup Session.busy) = (st1, None))
    by reflexivity.
  split; [exact Hw|].
  assert (Hne : academics Session.busy <> []) by discriminate.
  assert (Hcheck : fst (_checkLocalStorageSupport (localStorage st1)) = true)
    by (vm_compute; reflexivity).
  destruct (constructor_restores_session IsoDate.parse Session.busy st1
              eq_refl Hw Hne Hcheck) as (_ & Hcat & _ & Hfav & _).
  split; [exact Hcat | exact Hfav].
Defined.

(* ===================================================================== *)
(** ** Clearing the database *)
(* ===================================================================== *)

Section Clearing.
  Context {S : Type} {WS : WebStorage S} {LS : LawfulStorage S}
          {SR : StorageRemoval S} {LR : LawfulRemoval S}.
  Variable Date_parse : string -> option Z.
  Implicit Type st : state S.

  (** X13. Over a storage that honours its contract, [clearDatabase]
      reports failure only when the write of its backup throws, and then
      nothing in memory has changed; when it reports success the catalog,
      the tiles, the favorites and the submissions in memory are empty.
      Without storage support it always reports success. *)
Theorem clearDatabase_all_or_nothing st :
  let result := clearDatabase Date_parse st in
  (fst result = false -> only_storage st (snd result))
  /\ (fst result = true ->
        academics (snd result) = [] /\ noveltyTiles (snd result) = []
        /\ getFavorites (snd result) = [] /\ getPendingSubmissions (snd result) = [])
  /\ (localStorageSupported st = false -> fst result = true).
Proof.
  unfold clearDatabase, getFavorites, getPendingSubmissions.
  set (w := if localStorageSupported st
            then write BACKUP_BEFORE_CLEAR (Json (JCatalog (snapshot st))) st
            else (st, None)).
  assert (Hw : only_storage st (fst w)
               /\ (localStorageSupported st = false -> snd w = None)).
  { unfold w. destruct (localStorageSupported st).
    - split; [|discriminate].
      destruct (write BACKUP_BEFORE_CLEAR _ st) as [st1 x] eqn:E.
      apply (write_only_storage _ _ _ _ _ E).
    - split; [apply only_storage_refl | reflexivity]. }
  destruct w as [st1 [x|]]; simpl in *; destruct Hw as [Hos Hun].
  - split; [intros _; exact Hos|]. split; [discriminate|].
    intros Hs. specialize (Hun Hs). discriminate Hun.
  - split; [discriminate|]. split; [|reflexivity]. intros _.
    set (cleared := set_pendingSubmissions []
                      (set_favorites [] (set_noveltyTiles [] (set_academics [] st1)))).
    destruct (saveToLocalStorage_catalog Date_parse cleared) as (_ & -> & _).
    destruct (saveToLocalStorage_lists Date_parse cleared) as (-> & -> & _).
    destruct (saveToLocalStorage_tiles Date_parse cleared) as [->|[Hlen _]];
      [auto | simpl in Hlen; lia].
Qed.

  (** The keys that a save writes. *)
Lemma createBackup_keys st k :
  never_throws S -> String.eqb k ACADEMICS_BACKUP = false ->
  getItem k (localStorage (_createBackup st)) = getItem k (localStorage st).
Proof.
  intros Hn Hk. unfold _createBackup.
  destruct (negb (localStorageSupported st)); [reflexivity|].
  destruct (getItem ACADEMICS (localStorage st)) as [t|]; [|reflexivity].
  destruct (text_truthy t); [|reflexivity].
  pose proof (write_no_throw ACADEMICS_BACKUP t st Hn) as E.
  destruct (write ACADEMICS_BACKUP t st) as [st1 x] eqn:Ew. simpl in *. subst x.
  rewrite (write_read _ _ _ _ k Ew), Hk. reflexivity.
Qed.

Lemma saveToLocalStorage_keys st k :
  never_throws S -> localStorageSupported st = true ->
  let st' := snd (saveToLocalStorage Date_parse st) in
  getItem ACADEMICS (localStorage st') = Some (Json (JCatalog (snapshot st)))
  /\ (String.eqb k ACADEMICS_BACKUP = false -> String.eqb k ACADEMICS = false ->
      String.eqb k NOVELTY_TILES = false -> String.eqb k FAVORITES = false ->
      String.eqb k PENDING_SUBMISSIONS = false ->
      getItem k (localStorage st') = getItem k (localStorage st)).
Proof.
  intros Hn Hs st'. unfold st', saveToLocalStorage. rewrite Hs. simpl.
  pose proof (save_writes_no_throw Date_parse (_createBackup st) Hn) as E.
  destruct (save_writes Date_parse (_createBackup st)) as [st1 x] eqn:Ew.
  simpl in E. subst x. rewrite (save_writes_verified _ _ _ Ew). simpl.
  split.
  - rewrite (save_writes_read _ _ _ Ew).
    rewrite (snapshot_only_storage _ _ (createBackup_only_storage st)). reflexivity.
  - intros K0 K1 K2 K3 K4. rewrite <- (createBackup_keys st k Hn K0).
    revert Ew. unfold save_writes.
    destruct (write ACADEMICS _ _) as [s1 [x|]] eqn:E1; [discriminate|].
    destruct (write NOVELTY_TILES _ s1) as [s2 [x|]] eqn:E2; [discriminate|].
    destruct (write FAVORITES _ s2) as [s3 [x|]] eqn:E3; [discriminate|].
    intros E4.
    rewrite (write_read _ _ _ _ k E4), K4, (write_read _ _ _ _ k E3), K3,
      (write_read _ _ _ _ k E2), K2, (write_read _ _ _ _ k E1), K1.
    reflexivity.
Qed.

  (** X14. Over a storage that honours its contract and never throws,
      after [clearDatabase] on a supported storage the catalog of before
      is kept under the key of the backup made before clearing, the
      academics slot holds the empty catalog, and a manager constructed
      afterwards over that storage does not start empty: it holds the
      sample record again. *)
Theorem clearDatabase_then_constructor st :
  never_throws S ->
  localStorageSupported st = true ->
  let cleared := snd (clearDatabase Date_parse st) in
  fst (clearDatabase Date_parse st) = true
  /\ getItem BACKUP_BEFORE_CLEAR (localStorage cleared)
     = Some (Json (JCatalog (snapshot st)))
  /\ getItem ACADEMICS (localStorage cleared) = Some (Json (JCatalog []))
  /\ snapshot (constructor Date_parse (localStorage cleared)) = default_academics.
Proof.
  intros Hn Hs cleared. unfold cleared, clearDatabase. rewrite Hs.
  pose proof (write_no_throw BACKUP_BEFORE_CLEAR (Json (JCatalog (snapshot st))) st Hn)
    as E.
  destruct (write BACKUP_BEFORE_CLEAR _ st) as [st1 x] eqn:Ew. simpl in E. subst x.
  simpl. split; [reflexivity|].
  set (emptied := set_pendingSubmissions []
                    (set_favorites [] (set_noveltyTiles [] (set_academics [] st1)))).
  assert (Hs1 : localStorageSupported emptied = true).
  { destruct (write_only_storage _ _ _ _ _ Ew) as (_&_&_&_&_&_&Hsup&_).
    simpl. congruence. }
  destruct (saveToLocalStorage_keys emptied BACKUP_BEFORE_CLEAR Hn Hs1) as (Ha & Hk).
  assert (Hempty : getItem ACADEMICS
                     (localStorage (snd (saveToLocalStorage Date_parse emptied)))
                   = Some (Json (JCatalog []))) by exact Ha.
  split; [|split; [exact Hempty|]].
  - rewrite Hk by reflexivity. simpl.
    rewrite (write_read _ _ _ _ BACKUP_BEFORE_CLEAR Ew). reflexivity.
  - destruct (constructor_snapshot Date_parse
                (localStorage (snd (saveToLocalStorage Date_parse emptied))))
      as (_ & _ & ->).
    destruct (fst (_checkLocalStorageSupport _)) eqn:Ec; [|reflexivity].
    rewrite (checkLocalStorageSupport_keys _ ACADEMICS Ec eq_refl), Hempty. reflexivity.
Qed.
End Clearing.

Lemma clearDatabase_all_or_nothing_witness :
  fst (clearDatabase IsoDate.parse Session.stuck) = false
  /\ only_storage Session.stuck (snd (clearDatabase IsoDate.parse Session.stuck))
  /\ fst (clearDatabase IsoDate.parse Session.busy) = true
  /\ academics (snd (clearDatabase IsoDate.parse Session.busy)) = [].
Proof.
  destruct (clearDatabase_all_or_nothing IsoDate.parse Session.stuck) as (Hfail & _).
  destruct (clearDatabase_all_or_nothing IsoDate.parse Session.busy) as (_ & Hok & _).
  split; [reflexivity|]. split; [apply Hfail; reflexivity|].
  split; [reflexivity|]. apply Hok. reflexivity.
Defined.

Lemma clearDatabase_then_constructor_witness :
  never_throws PlainStorage.t
  /\ localStorageSupported Session.busy = true
  /\ snapshot (constructor IsoDate.parse
                 (localStorage (snd (clearDatabase IsoDate.parse Session.busy))))
     = [("sample-academic", Example.sample)].
Proof.
  split; [exact PlainStorage_never_throws|]. split; [reflexivity|].
  exact (proj2 (proj2 (proj2 (clearDatabase_then_constructor IsoDate.parse Session.busy
                                PlainStorage_never_throws eq_refl)))).
Defined.

(* ===================================================================== *)
(** ** A failed import *)
(* ===================================================================== *)

Section FailedImport.
  Context {S : Type} `{WebStorage S}.
  Variable clock : nat -> string.
  Variable Date_parse : string -> option Z.
  Implicit Type st : state S.

  (** X15. When [importFromJSON] of an export document reports failure,
      whatever the storage did, the catalog in memory is the one of before
      the call, record by record; but a taxonomy vocabulary that the
      document carried has replaced the one in memory, and stays. *)
Theorem importFromJSON_failure_keeps_catalog imported categories exportDate st :
  wf st ->
  let result :=
    importFromJSON clock Date_parse
      (Json (JExport (Some imported) categories exportDate)) st in
  fst result = false ->
  academics (snd result) = academics st
  /\ snapshot (snd result) = snapshot st
  /\ getAllTaxonomyCategories (snd result)
     = match categories with
       | Some t => t
       | None => getAllTaxonomyCategories st
       end.
Proof.
  intros Hwf. unfold importFromJSON, getAllTaxonomyCategories.
  set (st2 := match categories with
              | Some t => set_taxonomyCategories t (assign_academics imported st)
              | None => assign_academics imported st
              end).
  assert (Hh2 : heap st2 = heap st ++ map snd imported)
    by (unfold st2; destruct categories; reflexivity).
  assert (Ht2 : taxonomyCategories st2
                = match categories with Some t => t | None => taxonomyCategories st end)
    by (unfold st2; destruct categories; reflexivity).
  destruct (saveToLocalStorage_heap Date_parse st2) as [extra Hh3].
  destruct (saveToLocalStorage_lists Date_parse st2) as (_ & _ & Ht3).
  destruct (saveToLocalStorage Date_parse st2) as [saveSuccess st3]. simpl in *.
  destruct saveSuccess; simpl.
  - unfold now. simpl. discriminate.
  - intros _. split; [reflexivity|]. split; [|congruence].
    unfold snapshot. simpl. rewrite Hh3, Hh2, <- app_assoc.
    apply snapshot_grown. exact Hwf.
Qed.
End FailedImport.

Lemma importFromJSON_failure_keeps_catalog_witness :
  wf Example.unsupported
  /\ fst (importFromJSON frozen_clock IsoDate.parse
            (Json (JExport (Some []) (Some [("school", ["Stoicism"])]) "2025"))
            Example.unsupported) = false
  /\ snapshot (snd (importFromJSON frozen_clock IsoDate.parse
                      (Json (JExport (Some []) (Some [("school", ["Stoicism"])]) "2025"))
                      Example.unsupported))
     = [("sample-academic", Example.sample)]
  /\ getAllTaxonomyCategories
       (snd (importFromJSON frozen_clock IsoDate.parse
               (Json (JExport (Some []) (Some [("school", ["Stoicism"])]) "2025"))
               Example.unsupported))
     = [("school", ["Stoicism"])].
Proof.
  assert (Hwf : wf Example.unsupported) by (repeat constructor).
  assert (Hfail : fst (importFromJSON frozen_clock IsoDate.parse
                         (Json (JExport (Some []) (Some [("school", ["Stoicism"])])
                                  "2025"))
                         Example.unsupported) = false) by reflexivity.
  split; [exact Hwf|]. split; [exact Hfail|].
  destruct (importFromJSON_failure_keeps_catalog frozen_clock IsoDate.parse []
              (Some [("school", ["Stoicism"])]) "2025" Example.unsupported Hwf Hfail)
    as (_ & Hsnap & Hcat).
  split; [exact Hsnap | exact Hcat].
Defined.

(* ===================================================================== *)
(** ** What a merge keeps and what it adds *)
(* ===================================================================== *)

Section Extends.
  Context {A : Type} (same : A -> A -> bool).



End Extends.


Section Merging.
  Context {S : Type} `{LawfulStorage S}.
  Variable clock : nat -> string.
  Variable Date_parse : string -> option Z.
  Implicit Type st : state S.


  (** X17. Over a storage that honours its contract, after
      [addOrUpdateAcademic] of a candidate with a name whose key is not the
      name of a property that every object inherits, [getAcademic] finds
      the record of that key under every non-empty name that normalizes to
      the key (the candidate's own name, or a variant of it in case,
      spacing or punctuation): the record that was stored under the key,
      or else the candidate itself. *)
Theorem getAcademic_addOrUpdateAcademic st r variant :
  JS.truthy (name (deref (heap st) r)) = true ->
  inherited_key (_normalizeNameKey (name (deref (heap st) r))) = false ->
  JS.truthy variant = true ->
  _normalizeNameKey variant = _normalizeNameKey (name (deref (heap st) r)) ->
  let st' := snd (addOrUpdateAcademic clock Date_parse r st) in
  getAcademic variant st'
  = Some (match JS.obj_get (_normalizeNameKey variant) (academics st) with
          | Some e => e
          | None => r
          end).
Proof.
  intros Hname _ Hvariant Hsame st'.
  destruct (addOrUpdateAcademic_effect clock Date_parse st r Hname) as (_ & _ & Heff).
  fold st' in Heff. rewrite <- Hsame in Heff.
  unfold getAcademic. rewrite Hvariant. simpl.
  destruct (JS.obj_get (_normalizeNameKey variant) (academics st)) as [e|] eqn:Hkey.
  - destruct Heff as [_ ->]. rewrite Hkey. reflexivity.
  - destruct Heff as [_ ->]. rewrite obj_get_set_eq. reflexivity.
Qed.
End Merging.


Lemma getAcademic_addOrUpdateAcademic_witness :
  JS.truthy (name (deref (heap Example.with_candidate) 1)) = true
  /\ inherited_key (_normalizeNameKey (name (deref (heap Example.with_candidate) 1)))
     = false
  /\ JS.truthy "gilles   DELEUZE!" = true
  /\ _normalizeNameKey "gilles   DELEUZE!"
     = _normalizeNameKey (name (deref (heap Example.with_candidate) 1))
  /\ getAcademic "gilles   DELEUZE!"
       (snd (addOrUpdateAcademic frozen_clock IsoDate.parse 1 Example.with_candidate))
     = Some 1.
Proof.
  assert (Hsame : _normalizeNameKey "gilles   DELEUZE!"
                  = _normalizeNameKey (name (deref (heap Example.with_candidate) 1)))
    by (vm_compute; reflexivity).
  assert (Hown : inherited_key
                   (_normalizeNameKey (name (deref (heap Example.with_candidate) 1)))
                 = false) by (vm_compute; reflexivity).
  split; [reflexivity|]. split; [exact Hown|]. split; [reflexivity|].
  split; [exact Hsame|].
  rewrite (getAcademic_addOrUpdateAcademic frozen_clock IsoDate.parse
             Example.with_candidate 1 "gilles   DELEUZE!" eq_refl Hown eq_refl Hsame).
  vm_compute. reflexivity.
Defined.

(* ===================================================================== *)
(** ** The key of a name *)
(* ===================================================================== *)

Section KeyFacts.
Import Regex.

Lemma rmatch_seq fl r1 r2 p s c k :
  rmatch fl (Seq r1 r2) p s c k
  = rmatch fl r1 p s c (fun p' s' c' => rmatch fl r2 p' s' c' k).
Proof. reflexivity. Qed.

Lemma rmatch_cls fl neg items p s c k :
  rmatch fl (Cls neg items) p s c k
  = match s with
    | a :: s' => if xorb neg (in_class fl items a) then k (Some a) s' c else None
    | [] => None
    end.
Proof. reflexivity. Qed.

Lemma in_class_space a : in_class no_flags [CSpace] a = JS.is_space a.
Proof. unfold in_class. simpl. apply orb_false_r. Qed.

Lemma in_class_key a : in_class no_flags [CWord; CChar "-"] a = kept_char a.
Proof. unfold in_class, kept_char. simpl. rewrite orb_false_r. reflexivity. Qed.

  (** A greedy run of white space at the end of a pattern takes all the
      white space there is. *)
Lemma star_ws p s c :
  rmatch no_flags (Star true ws) p s c (fun _ s' c' => Some (s', c'))
  = Some (JS.drop_space s, c).
Proof.
  cbn [rmatch].
  match goal with |- ?f (length s) p s c = _ => set (loop := f) end.
  assert (Hloop : forall n p s c,
             length s <= n -> loop n p s c = Some (JS.drop_space s, c)).
  { clear. induction n as [|n IH]; intros p s c Hn.
    - destruct s; [reflexivity | simpl in Hn; lia].
    - change (loop (S n) p s c)
        with (match rmatch no_flags ws p s c
                      (fun p' s' c' =>
                         if (length s' <? length s) then loop n p' s' c' else None)
              with Some x => Some x | None => Some (s, c) end).
      destruct s as [|a s']; [reflexivity|].
      unfold ws. cbn [rmatch xorb]. rewrite in_class_space.
      cbn [JS.drop_space]. destruct (JS.is_space a); [|reflexivity].
      assert (E : (length s' <? length (a :: s')) = true)
        by (apply Nat.ltb_lt; simpl; lia).
      rewrite E, IH by (simpl in Hn; lia). reflexivity. }
  apply Hloop. lia.
Qed.

Lemma match_here_spaces p s :
  match_here no_flags spacesRegex p s
  = match s with
    | a :: s' =>
        if JS.is_space a
        then Some (firstn (length s - length (JS.drop_space s')) s, JS.drop_space s', [])
        else None
    | [] => None
    end.
Proof.
  unfold match_here, spacesRegex, plus. rewrite rmatch_seq.
  unfold ws at 1. rewrite rmatch_cls.
  destruct s as [|a s']; [reflexivity|].
  cbn [xorb]. rewrite in_class_space.
  destruct (JS.is_space a); [|reflexivity].
  rewrite star_ws. reflexivity.
Qed.

Lemma match_here_nonKey p s :
  match_here no_flags nonKeyRegex p s
  = match s with
    | a :: s' => if kept_char a then None else Some ([a], s', [])
    | [] => None
    end.
Proof.
  unfold match_here, nonKeyRegex. cbn [rmatch].
  destruct s as [|a s']; [reflexivity|].
  rewrite in_class_key. destruct (kept_char a); cbn [xorb negb length]; [reflexivity|].
  replace (S (length s') - length s') with 1 by lia. reflexivity.
Qed.

Lemma while_after {A : Type} (P : A -> bool) l : l = while_ P l ++ after_ P l.
Proof.
  induction l as [|a l IH]; simpl; [reflexivity|].
  destruct (P a); simpl; [f_equal; exact IH | reflexivity].
Qed.

Lemma after_head {A : Type} (P : A -> bool) l a l' : after_ P l = a :: l' -> P a = false.
Proof.
  induction l as [|b l IH]; simpl; [discriminate|].
  destruct (P b) eqn:E; [exact IH|]. intros [= <- _]. exact E.
Qed.

Lemma after_length {A : Type} (P : A -> bool) l : length (after_ P l) <= length l.
Proof.
  induction l as [|b l IH]; simpl; [lia|]. destruct (P b); simpl; lia.
Qed.

Lemma filter_while {A : Type} (P : A -> bool) l :
  List.filter P l = while_ P l ++ List.filter P (after_ P l).
Proof.
  induction l as [|a l IH]; simpl; [reflexivity|].
  destruct (P a) eqn:E; simpl; [f_equal; exact IH|]. rewrite E. reflexivity.
Qed.

Lemma drop_space_after l : JS.drop_space l = after_ JS.is_space l.
Proof.
  induction l as [|a l IH]; simpl; [reflexivity|]. destruct (JS.is_space a); auto.
Qed.

Lemma search_from_nonKey s : forall skipped p,
  search_from no_flags nonKeyRegex skipped p s
  = match after_ kept_char s with
    | [] => None
    | a :: s' =>
        Some {| before := rev skipped ++ while_ kept_char s; matched := [a];
                after := s'; captures := [] |}
    end.
Proof.
  induction s as [|a s IH]; intros skipped p; cbn [search_from];
    rewrite match_here_nonKey; [reflexivity|].
  cbn [after_ while_]. destruct (kept_char a).
  - rewrite IH. destruct (after_ kept_char s); [reflexivity|].
    cbn [rev]. rewrite <- app_assoc. reflexivity.
  - rewrite app_nil_r. reflexivity.
Qed.

Lemma replace_all_nonKey n : forall p s,
  length s < n ->
  replace_all_from n no_flags nonKeyRegex [] p s = List.filter kept_char s.
Proof.
  induction n as [|n IH]; intros p s Hn; [lia|].
  cbn [replace_all_from]. rewrite search_from_nonKey, (filter_while kept_char s).
  pose proof (after_length kept_char s) as Hlen.
  destruct (after_ kept_char s) as [|a s'] eqn:E.
  - simpl. rewrite app_nil_r. rewrite (while_after kept_char s) at 1.
    rewrite E, app_nil_r. reflexivity.
  - cbn [matched before after rev app]. rewrite IH by (simpl in Hlen; lia).
    cbn [List.filter]. rewrite (after_head _ _ _ _ E). reflexivity.
Qed.

Lemma not_space_is_space a : not_space a = negb (JS.is_space a).
Proof. reflexivity. Qed.

Lemma search_from_spaces s : forall skipped p,
  search_from no_flags spacesRegex skipped p s
  = match after_ not_space s with
    | [] => None
    | a :: s' =>
        Some {| before := rev skipped ++ while_ not_space s;
                matched := a :: firstn (length s' - length (JS.drop_space s')) s';
                after := JS.drop_space s'; captures := [] |}
    end.
Proof.
  induction s as [|a s IH]; intros skipped p; cbn [search_from];
    rewrite match_here_spaces; [reflexivity|].
  cbn [after_ while_]. rewrite not_space_is_space. destruct (JS.is_space a); cbn [negb].
  - rewrite app_nil_r.
    pose proof (after_length JS.is_space s) as Hlen. rewrite <- drop_space_after in Hlen.
    cbn [length].
    replace (S (length s) - length (JS.drop_space s))
      with (S (length s - length (JS.drop_space s))) by lia.
    reflexivity.
  - rewrite IH. destruct (after_ not_space s); [reflexivity|].
    cbn [rev]. rewrite <- app_assoc. reflexivity.
Qed.

Lemma dashes_while b l : after_ not_space l = [] -> dashes b l = l.
Proof.
  revert b. induction l as [|a l IH]; intros b; simpl; [reflexivity|].
  rewrite not_space_is_space. destruct (JS.is_space a); simpl; [discriminate|].
  intros E. rewrite (IH false E). reflexivity.
Qed.

Lemma dashes_true l : dashes true l = dashes false (JS.drop_space l).
Proof.
  induction l as [|a l IH]; simpl; [reflexivity|].
  destruct (JS.is_space a) eqn:E; [exact IH|]. simpl. rewrite E. reflexivity.
Qed.

Lemma dashes_split l a l' :
  after_ not_space l = a :: l' ->
  dashes false l = while_ not_space l ++ "-"%char :: dashes false (JS.drop_space l').
Proof.
  induction l as [|b l IH]; simpl; [discriminate|].
  rewrite not_space_is_space. destruct (JS.is_space b) eqn:E; simpl.
  - intros [= <- <-]. rewrite dashes_true. reflexivity.
  - intros Ha. rewrite (IH Ha). reflexivity.
Qed.

Lemma replace_all_spaces n : forall p s,
  length s < n ->
  replace_all_from n no_flags spacesRegex ["-"%char] p s = dashes false s.
Proof.
  induction n as [|n IH]; intros p s Hn; [lia|].
  cbn [replace_all_from]. rewrite search_from_spaces.
  pose proof (after_length not_space s) as Hlen.
  destruct (after_ not_space s) as [|a s'] eqn:E.
  - symmetry. apply dashes_while, E.
  - cbn [matched before after rev app].
    pose proof (after_length JS.is_space s') as Hd. rewrite <- drop_space_after in Hd.
    rewrite IH by (simpl in Hlen; lia).
    symmetry. apply (dashes_split _ _ _ E).
Qed.

Lemma length_list_ascii s : length (list_ascii_of_string s) = String.length s.
Proof. induction s as [|c s IH]; simpl; [reflexivity | f_equal; exact IH]. Qed.

Lemma list_ascii_toLowerCase s :
  list_ascii_of_string (JS.toLowerCase s) = map JS.lower_char (list_ascii_of_string s).
Proof. induction s as [|c s IH]; simpl; [reflexivity | f_equal; exact IH]. Qed.

  (** The two replacements of [_normalizeNameKey], as functions on the
      characters. *)
Lemma normalizeNameKey_key_of name :
  _normalizeNameKey name = string_of_list_ascii (key_of (list_ascii_of_string name)).
Proof.
  unfold _normalizeNameKey. destruct name as [|c name]; [reflexivity|].
  cbn [JS.truthy negb]. unfold replace_all, key_of. f_equal.
  change (list_ascii_of_string "") with (@nil ascii).
  change (list_ascii_of_string "-") with ["-"%char].
  rewrite replace_all_nonKey by (rewrite length_list_ascii; lia).
  rewrite replace_all_spaces by (rewrite length_list_ascii; lia).
  rewrite list_ascii_of_string_of_list_ascii, list_ascii_toLowerCase. reflexivity.
Qed.

Lemma lower_char_not_upper c : JS.is_upper (JS.lower_char c) = false.
Proof. destruct c as [[] [] [] [] [] [] [] []]; reflexivity. Qed.

Lemma key_char_kept c : key_char c = kept_char c && negb (JS.is_upper c).
Proof. destruct c as [[] [] [] [] [] [] [] []]; reflexivity. Qed.

Lemma key_char_fixed c :
  key_char c = true -> JS.lower_char c = c /\ JS.is_space c = false.
Proof. destruct c as [[] [] [] [] [] [] [] []]; simpl; intros E; try discriminate E; auto. Qed.

Lemma dashes_In b l x : In x (dashes b l) -> x = "-"%char \/ In x l.
Proof.
  revert b. induction l as [|a l IH]; intros b; simpl; [tauto|].
  destruct (JS.is_space a).
  - destruct b; simpl.
    + intros Hx. destruct (IH _ Hx); auto.
    + intros [<-|Hx]; [auto|]. destruct (IH _ Hx); auto.
  - simpl. intros [<-|Hx]; [auto|]. destruct (IH _ Hx); auto.
Qed.

Lemma key_of_chars l : List.Forall (fun c => key_char c = true) (key_of l).
Proof.
  apply List.Forall_forall. intros x Hx. unfold key_of in Hx.
  apply List.filter_In in Hx. destruct Hx as [Hx Hk].
  rewrite key_char_kept, Hk. simpl.
  apply dashes_In in Hx. destruct Hx as [->|Hx]; [reflexivity|].
  apply in_map_iff in Hx. destruct Hx as (c & <- & _).
  rewrite lower_char_not_upper. reflexivity.
Qed.

Lemma key_of_fixed l : List.Forall (fun c => key_char c = true) l -> key_of l = l.
Proof.
  intros Hl. unfold key_of.
  assert (Hmap : map JS.lower_char l = l).
  { induction Hl as [|c l Hc Hl IH]; simpl; [reflexivity|].
    rewrite IH, (proj1 (key_char_fixed c Hc)). reflexivity. }
  rewrite Hmap.
  assert (Hd : dashes false l = l).
  { apply dashes_while. clear Hmap. induction Hl as [|c l Hc Hl IH]; simpl; [reflexivity|].
    rewrite not_space_is_space, (proj2 (key_char_fixed c Hc)). simpl. exact IH. }
  rewrite Hd. clear Hmap Hd. induction Hl as [|c l Hc Hl IH]; simpl; [reflexivity|].
  rewrite key_char_kept in Hc. apply andb_true_iff in Hc. destruct Hc as [-> _].
  f_equal. exact IH.
Qed.
End KeyFacts.

Lemma dashes_length b l : length (dashes b l) <= length l.
Proof.
  revert b. induction l as [|a l IH]; intros b; simpl; [lia|].
  destruct (JS.is_space a); [destruct b|]; simpl;
    try (specialize (IH true); lia); specialize (IH false); lia.
Qed.

Lemma filter_length {A : Type} (f : A -> bool) l : length (List.filter f l) <= length l.
Proof. induction l as [|a l IH]; simpl; [lia|]. destruct (f a); simpl; lia. Qed.

(** X18. [_normalizeNameKey] returns the name in lower case with every run
    of white space replaced by one dash, from which every character that
    is not a letter, a digit, an underscore or a dash has been removed:
    the two regular-expression replacements compute this function of the
    characters.  So a key is never longer than its name. *)
Theorem normalizeNameKey_characterization name :
  _normalizeNameKey name
  = string_of_list_ascii
      (List.filter kept_char
         (dashes false (map JS.lower_char (list_ascii_of_string name))))
  /\ String.length (_normalizeNameKey name) <= String.length name.
Proof.
  pose proof (normalizeNameKey_key_of name) as Hkey. unfold key_of in Hkey.
  split; [exact Hkey|]. rewrite Hkey.
  rewrite <- (length_list_ascii (string_of_list_ascii _)).
  rewrite list_ascii_of_string_of_list_ascii, <- (length_list_ascii name).
  etransitivity; [apply filter_length|].
  etransitivity; [apply dashes_length|].
  rewrite length_map. reflexivity.
Qed.

(** X19. A key consists of lower-case letters, digits, underscores and
    dashes; a key is its own key; and two names that differ only in the
    case of their letters have the same key. *)
Theorem normalizeNameKey_idempotent name :
  List.Forall (fun c => key_char c = true)
    (list_ascii_of_string (_normalizeNameKey name))
  /\ _normalizeNameKey (_normalizeNameKey name) = _normalizeNameKey name
  /\ (forall other, JS.toLowerCase other = JS.toLowerCase name ->
        _normalizeNameKey other = _normalizeNameKey name).
Proof.
  split; [|split].
  - rewrite normalizeNameKey_key_of, list_ascii_of_string_of_list_ascii.
    apply key_of_chars.
  - rewrite (normalizeNameKey_key_of (_normalizeNameKey name)).
    rewrite (normalizeNameKey_key_of name) at 1.
    rewrite list_ascii_of_string_of_list_ascii, key_of_fixed by apply key_of_chars.
    symmetry. apply normalizeNameKey_key_of.
  - intros other Hsame. rewrite !normalizeNameKey_key_of. unfold key_of.
    rewrite <- !list_ascii_toLowerCase, Hsame. reflexivity.
Qed.

(* ===================================================================== *)
(** ** The response stream *)
(* ===================================================================== *)

Section SplitFacts.
  Variable c : ascii.

Lemma split_char_nonempty s : JS.split_char c s <> [].
Proof.
  destruct s as [|a s]; simpl; [discriminate|].
  destruct (Ascii.eqb a c); [discriminate|].
  destruct (JS.split_char c s); discriminate.
Qed.

Lemma removelast_cons {A : Type} (x : A) l : l <> [] -> removelast (x :: l) = x :: removelast l.
Proof. destruct l; [congruence | reflexivity]. Qed.

Lemma last_cons {A : Type} (x d : A) l : l <> [] -> List.last (x :: l) d = List.last l d.
Proof. destruct l; [congruence | reflexivity]. Qed.

  (** Splitting a text that arrives in two parts: the lines that the
      first part completes, then the split of its unfinished line
      followed by the second part. *)
Lemma split_char_app s1 s2 :
  JS.split_char c (s1 ++ s2)%string
  = removelast (JS.split_char c s1)
    ++ JS.split_char c (List.last (JS.split_char c s1) EmptyString ++ s2)%string.
Proof.
  induction s1 as [|a s1 IH]; [reflexivity|].
  change (String a s1 ++ s2)%string with (String a (s1 ++ s2)%string).
  cbn [JS.split_char]. destruct (Ascii.eqb a c) eqn:E.
  - rewrite removelast_cons, last_cons by apply split_char_nonempty.
    rewrite IH. reflexivity.
  - rewrite IH. pose proof (split_char_nonempty s1) as Hne.
    destruct (JS.split_char c s1) as [|w [|x ws]]; [congruence| |].
    + cbn [removelast List.last app].
      change (String a w ++ s2)%string with (String a (w ++ s2)%string).
      cbn [JS.split_char]. rewrite E. reflexivity.
    + rewrite !removelast_cons, !last_cons by discriminate. reflexivity.
Qed.

  (** A line of a split has no separator in it. *)
Lemma split_char_line s w : In w (JS.split_char c s) -> JS.split_char c w = [w].
Proof.
  revert w. induction s as [|a s IH]; intros w; simpl.
  - intros [<-|[]]. reflexivity.
  - destruct (Ascii.eqb a c) eqn:E.
    + intros [<-|Hw]; [reflexivity | apply IH, Hw].
    + pose proof (split_char_nonempty s) as Hne.
      destruct (JS.split_char c s) as [|w0 ws]; [congruence|].
      intros [<-|Hw]; [|apply IH; right; exact Hw].
      simpl. rewrite E, (IH w0) by (left; reflexivity). reflexivity.
Qed.

Lemma last_In {A : Type} (l : list A) d : l <> [] -> In (List.last l d) l.
Proof.
  induction l as [|x l IH]; [congruence|]. intros _.
  destruct l as [|y l]; [left; reflexivity|]. right. apply IH. discriminate.
Qed.

Lemma list_last_app {A : Type} (l k : list A) d :
  k <> [] -> List.last (l ++ k) d = List.last k d.
Proof.
  intros Hk. induction l as [|x l IH]; [reflexivity|].
  cbn [app]. rewrite last_cons; [exact IH|].
  destruct l; simpl; [exact Hk | discriminate].
Qed.

Lemma removelast_last {A : Type} (l : list A) d :
  l <> [] -> removelast l ++ [List.last l d] = l.
Proof. intros Hne. symmetry. apply app_removelast_last, Hne. Qed.
End SplitFacts.

Section StreamFacts.
  Import Stream.
  Variable first_choice : string -> option choice.
  Variable cb : callbacks.

Lemma append_assoc (a b d : string) : ((a ++ b) ++ d)%string = (a ++ (b ++ d))%string.
Proof.
  induction a as [|x a IH]; [reflexivity|].
  change (String x ((a ++ b) ++ d)%string = String x (a ++ (b ++ d))%string).
  f_equal. exact IH.
Qed.

Lemma append_nil_r (a : string) : (a ++ "")%string = a.
Proof.
  induction a as [|x a IH]; [reflexivity|].
  change (String x (a ++ "")%string = String x a). f_equal. exact IH.
Qed.

Lemma concat_cons s l : String.concat "" (s :: l) = (s ++ String.concat "" l)%string.
Proof.
  destruct l as [|x l]; [|reflexivity].
  cbn [String.concat]. symmetry. apply append_nil_r.
Qed.

  (** The loop over the reads comes to the same as one pass over the
      lines of the whole text. *)
Lemma read_all_lines chunks : forall buffer acc,
  JS.split_char Regex.newline buffer = [buffer] ->
  let lines := JS.split_char Regex.newline (buffer ++ String.concat "" chunks)%string in
  read_all first_choice cb chunks buffer acc
  = (List.last lines EmptyString,
     fold_left (process_line first_choice cb) (removelast lines) acc).
Proof.
  induction chunks as [|chunk rest IH]; intros buffer acc Hfree; cbn [read_all].
  - cbn [String.concat]. rewrite append_nil_r, Hfree. reflexivity.
  - cbv zeta. rewrite concat_cons, <- append_assoc.
    rewrite (split_char_app _ (buffer ++ chunk)%string (String.concat "" rest)).
    set (lines := JS.split_char Regex.newline (buffer ++ chunk)%string).
    assert (Hfree' : JS.split_char Regex.newline (List.last lines EmptyString)
                     = [List.last lines EmptyString]).
    { apply (split_char_line _ (buffer ++ chunk)%string).
      apply last_In, split_char_nonempty. }
    rewrite (IH _ _ Hfree'). cbv zeta.
    set (more := JS.split_char Regex.newline
                   (List.last lines EmptyString ++ String.concat "" rest)%string).
    assert (Hmore : more <> []) by apply split_char_nonempty.
    f_equal.
    + rewrite list_last_app by exact Hmore. reflexivity.
    + rewrite removelast_app by exact Hmore. rewrite fold_left_app. reflexivity.
Qed.

  (** One pass over lines: the text grows by their contents, and
      [onChunk] is called with each. *)
Lemma process_lines lines : forall text calls,
  fold_left (process_line first_choice cb) lines (text, calls)
  = ((text ++ String.concat "" (omap (line_content first_choice) lines))%string,
     rev (chunk_calls cb (omap (line_content first_choice) lines)) ++ calls).
Proof.
  induction lines as [|line lines IH]; intros text calls; cbn [fold_left omap].
  - unfold chunk_calls. simpl. rewrite append_nil_r. destruct (onChunk cb); reflexivity.
  - unfold process_line at 2. cbn [list_omap].
    destruct (line_content first_choice line) as [content|]; cbn [fst snd].
    + rewrite IH. rewrite concat_cons, append_assoc. f_equal.
      unfold chunk_calls. destruct (onChunk cb); [|reflexivity].
      cbn [map rev]. rewrite <- app_assoc. reflexivity.
    + apply IH.
Qed.
End StreamFacts.

Section StreamResults.
  Import Stream.
  Variable first_choice : string -> option choice.
  Variable cb : callbacks.

  (** X20. What [handleStream] returns and the calls it makes depend on
      the text of the stream alone, not on how the reads cut it into
      chunks: a line that arrives in pieces is handled as if it had
      arrived whole. *)
Theorem handleStream_chunking chunks1 chunks2 e :
  String.concat "" chunks1 = String.concat "" chunks2 ->
  handleStream first_choice cb chunks1 e = handleStream first_choice cb chunks2 e.
Proof.
  intros Hsame. unfold handleStream.
  rewrite !(read_all_lines first_choice cb _ EmptyString _ eq_refl). cbv zeta.
  change (EmptyString ++ String.concat "" chunks1)%string with (String.concat "" chunks1).
  change (EmptyString ++ String.concat "" chunks2)%string with (String.concat "" chunks2).
  rewrite Hsame. reflexivity.
Qed.

  (** X21. On a stream that ends normally, the text that [handleStream]
      resolves to is the concatenation of the contents carried by the
      lines of the stream, in order; [onChunk] is called with each of
      these contents in turn, and [onComplete] last, with the whole text.
      When [onComplete] throws, the error handler is called and the
      promise is rejected. *)
Theorem handleStream_result chunks :
  let cs := contents first_choice (String.concat "" chunks) in
  let resultText := String.concat "" cs in
  handleStream first_choice cb chunks Done
  = match onComplete cb with
    | Some returns =>
        if returns resultText
        then (Resolved resultText, chunk_calls cb cs ++ [OnComplete resultText])
        else (Rejected,
              chunk_calls cb cs
                ++ [OnComplete resultText;
                    if onError cb then OnError else ShowErrorMessage])
    | None => (Resolved resultText, chunk_calls cb cs)
    end.
Proof.
  intros cs resultText. unfold handleStream.
  rewrite (read_all_lines first_choice cb _ EmptyString _ eq_refl). cbv zeta.
  change (EmptyString ++ String.concat "" chunks)%string with (String.concat "" chunks).
  set (lines := JS.split_char Regex.newline (String.concat "" chunks)).
  assert (Hall : process_line first_choice cb
                   (fold_left (process_line first_choice cb) (removelast lines)
                      (EmptyString, []))
                   (List.last lines EmptyString)
                 = (resultText, rev (chunk_calls cb cs))).
  { change (process_line first_choice cb
              (fold_left (process_line first_choice cb) (removelast lines)
                 (EmptyString, []))
              (List.last lines EmptyString))
      with (fold_left (process_line first_choice cb) [List.last lines EmptyString]
              (fold_left (process_line first_choice cb) (removelast lines)
                 (EmptyString, []))).
    rewrite <- fold_left_app, removelast_last by apply split_char_nonempty.
    rewrite process_lines, app_nil_r. reflexivity. }
  rewrite Hall. unfold failed.
  destruct (onComplete cb) as [returns|].
  - destruct (returns resultText); cbn [rev]; rewrite ?rev_involutive;
      [reflexivity|]. rewrite <- app_assoc. reflexivity.
  - rewrite rev_involutive. reflexivity.
Qed.
End StreamResults.

Lemma handleStream_chunking_witness :
  String.concat "" Session.chunks = String.concat "" [String.concat "" Session.chunks]
  /\ Stream.handleStream Session.parser Session.listening Session.chunks Stream.Done
     = Stream.handleStream Session.parser Session.listening
         [String.concat "" Session.chunks] Stream.Done
  /\ Stream.handleStream Session.parser Session.listening Session.chunks Stream.Done
     = (Stream.Resolved "Hello, world",
        [Stream.OnChunk "Hello"; Stream.OnChunk ", "; Stream.OnChunk "world";
         Stream.OnComplete "Hello, world"]).
Proof.
  assert (Hsame : String.concat "" Session.chunks
                  = String.concat "" [String.concat "" Session.chunks]) by reflexivity.
  split; [exact Hsame|].
  split; [|reflexivity].
  exact (handleStream_chunking Session.parser Session.listening Session.chunks
           [String.concat "" Session.chunks] Stream.Done Hsame).
Defined.

(* ===================================================================== *)
(** ** The API key *)
(* ===================================================================== *)

Section ApiKeyFacts.
  Context {S : Type} `{LawfulStorage S}.

  (** X22. [saveApiKey] with a non-empty key makes it the key in memory
      whether or not the storage accepts it; it reports failure exactly
      when the write throws; and over a storage that honours its contract,
      after a success [_loadApiKey] reads that key back, whatever the key
      in memory was. *)
Theorem saveApiKey_loadApiKey apiKey current ls :
  text_truthy apiKey = true ->
  let saved := saveApiKey apiKey current ls in
  snd (fst saved) = apiKey
  /\ (fst (fst saved) = false <-> snd (setItem API_KEY apiKey ls) <> None)
  /\ (fst (fst saved) = true -> forall other, _loadApiKey other (snd saved) = apiKey).
Proof.
  intros Hkey. unfold saveApiKey. rewrite Hkey. simpl.
  destruct (setItem API_KEY apiKey ls) as [ls1 [x|]] eqn:E; simpl.
  - split; [reflexivity|]. split; [|discriminate]. split; [discriminate | reflexivity].
  - split; [reflexivity|]. split; [split; [discriminate | congruence]|].
    intros _ other. unfold _loadApiKey.
    rewrite (getItem_setItem _ _ _ _ E API_KEY), String.eqb_refl, Hkey. reflexivity.
Qed.
End ApiKeyFacts.

Lemma saveApiKey_loadApiKey_witness :
  text_truthy (Raw "jina_key") = true
  /\ _loadApiKey (Raw "other")
       (snd (saveApiKey (Raw "jina_key") (Raw "default") ([] : PlainStorage.t)))
     = Raw "jina_key"
  /\ snd (fst (saveApiKey (Raw "jina_key") (Raw "default") Example.full))
     = Raw "jina_key".
Proof.
  destruct (saveApiKey_loadApiKey (Raw "jina_key") (Raw "default") ([] : PlainStorage.t)
              eq_refl) as (_ & _ & Hload).
  destruct (saveApiKey_loadApiKey (Raw "jina_key") (Raw "default") Example.full eq_refl)
    as (Hmem & _ & _).
  split; [reflexivity|]. split; [apply Hload; reflexivity | exact Hmem].
Defined.

(* ===================================================================== *)
(** ** The answer to the request for the source data *)
(* ===================================================================== *)

Section SourceData.
  Context {S : Type} {WS : WebStorage S} {LS : LawfulStorage S}
          {SR : StorageRemoval S}.
  Variable Date_parse : string -> option Z.
  Implicit Type st : state S.

  (** X23. Over a storage that honours its contract, when the answer to
      the request for [academics.json] is a catalog with at least one key,
      that catalog replaces the one in memory, whatever was loaded or
      added before; an answer that is [null] or an empty object changes
      nothing. *)
Theorem academics_json_loaded_replaces data st :
  snapshot (academics_json_loaded Date_parse data st)
  = match data with
    | Some ((_ :: _) as catalog) => catalog
    | _ => snapshot st
    end.
Proof.
  unfold academics_json_loaded. destruct data as [[|kv c]|]; try reflexivity.
  destruct (saveToLocalStorage_catalog Date_parse (assign_academics (kv :: c) st))
    as (Sh & Sa & _).
  unfold snapshot at 1. rewrite Sh, Sa. apply (snapshot_assign (kv :: c) st).
Qed.
End SourceData.

Lemma academics_json_loaded_replaces_witness :
  snapshot (academics_json_loaded IsoDate.parse
              (Some [("michel-henry", Example.henry)]) Session.busy)
  = [("michel-henry", Example.henry)].
Proof.
  exact (academics_json_loaded_replaces IsoDate.parse
           (Some [("michel-henry", Example.henry)]) Session.busy).
Defined.

(* ===================================================================== *)
(** ** Search and lookup *)
(* ===================================================================== *)

Lemma filter_subsequence {A : Type} (f : A -> bool) l : subsequence (List.filter f l) l.
Proof.
  induction l as [|x l IH]; simpl; [constructor|].
  destruct (f x); constructor; exact IH.
Qed.

Section Lookup.
  Context {S : Type}.
  Variable localeCompare : string -> string -> Z.
  Implicit Type st : state S.

  (** X24. Without a name criterion, [searchAcademics] returns the
      records that satisfy every supplied taxonomy criterion, each once,
      in the order in which [getAllAcademics] lists them: no sort is
      applied. *)
Theorem searchAcademics_without_name criteria st :
  criterion criteria "name" = None ->
  let results := searchAcademics localeCompare criteria st in
  subsequence results (getAllAcademics st)
  /\ (forall r, In r results <->
        In r (getAllAcademics st) /\ satisfies criteria (deref (heap st) r))
  /\ (forall r, count_occ Nat.eq_dec results r <= count_occ Nat.eq_dec (getAllAcademics st) r).
Proof.
  intros Hname results. unfold results, searchAcademics, getAllAcademics. rewrite Hname.
  split; [apply filter_subsequence|]. split.
  - intros r. rewrite List.filter_In, matches_satisfies. reflexivity.
  - intros r. induction (JS.obj_values (academics st)) as [|x l IH]; simpl; [lia|].
    destruct (matches criteria (deref (heap st) x)); simpl;
      destruct (Nat.eq_dec x r); lia.
Qed.

  (** X25. On a catalog whose records all have names, [getAcademic] with
      a non-empty name whose key is not the name of a property that every
      object inherits prefers the record under the key of the name, then
      a record of that name without regard to case, then a record whose
      name contains the name or is contained in it: when some record has
      the name without regard to case, the record returned is under the
      key or has that name, never a mere partial match; and the answer is
      [null] only when no record of the catalog matches even partially. *)
Theorem getAcademic_priority query st :
  named st ->
  JS.truthy query = true ->
  inherited_key (_normalizeNameKey query) = false ->
  let record r := deref (heap st) r in
  (forall r, getAcademic query st = Some r ->
     In r (getAllAcademics st)
     /\ (JS.obj_get (_normalizeNameKey query) (academics st) = Some r
         \/ same_name query (record r) = true
         \/ similar_name query (record r) = true))
  /\ (forall e, In e (getAllAcademics st) -> same_name query (record e) = true ->
        exists r, getAcademic query st = Some r
                  /\ (JS.obj_get (_normalizeNameKey query) (academics st) = Some r
                      \/ same_name query (record r) = true))
  /\ (getAcademic query st = None ->
        JS.obj_get (_normalizeNameKey query) (academics st) = None
        /\ forall e, In e (getAllAcademics st) -> similar_name query (record e) = false).
Proof.
  intros _ Hq _ record. unfold getAcademic, getAllAcademics. rewrite Hq. simpl.
  destruct (JS.obj_get (_normalizeNameKey query) (academics st)) as [k|] eqn:Hkey.
  - split; [|split].
    + intros r [= <-]. split; [|auto].
      apply obj_get_In in Hkey. apply in_map_iff. exists (_normalizeNameKey query, k).
      auto.
    + intros e _ _. exists k. auto.
    + discriminate.
  - destruct (find (fun r => String.eqb (JS.toLowerCase (name (deref (heap st) r)))
                               (JS.toLowerCase query))
                   (JS.obj_values (academics st))) as [x|] eqn:Hexact.
    + apply find_some in Hexact. destruct Hexact as [Hin Hx].
      split; [|split].
      * intros r [= <-]. auto.
      * intros e _ _. exists x. auto.
      * discriminate.
    + split; [|split].
      * intros r Hr. apply find_some in Hr. destruct Hr as [Hin Hr]. auto.
      * intros e He Hsame. exfalso.
        pose proof (find_none _ _ Hexact e He) as Hno. unfold same_name, record in Hsame.
        simpl in Hno. congruence.
      * intros Hnone. split; [reflexivity|]. intros e He.
        exact (find_none _ _ Hnone e He).
Qed.
End Lookup.

Lemma searchAcademics_without_name_witness :
  criterion [("tradition", "phenomenology")] "name" = None
  /\ searchAcademics ascii_compare [("tradition", "phenomenology")] Session.busy = [0]
  /\ subsequence (searchAcademics ascii_compare [("tradition", "phenomenology")]
                    Session.busy)
       (getAllAcademics Session.busy).
Proof.
  split; [reflexivity|]. split; [reflexivity|].
  exact (proj1 (searchAcademics_without_name ascii_compare
                  [("tradition", "phenomenology")] Session.busy eq_refl)).
Defined.

Lemma getAcademic_priority_witness :
  named Session.busy
  /\ JS.truthy "MICHEL HENRY" = true
  /\ inherited_key (_normalizeNameKey "MICHEL HENRY") = false
  /\ exists r, getAcademic "MICHEL HENRY" Session.busy = Some r
               /\ name (deref (heap Session.busy) r) = "Michel Henry".
Proof.
  assert (Hnamed : named Session.busy) by (repeat constructor).
  assert (Hown : inherited_key (_normalizeNameKey "MICHEL HENRY") = false)
    by (vm_compute; reflexivity).
  split; [exact Hnamed|]. split; [reflexivity|]. split; [exact Hown|].
  destruct (getAcademic_priority "MICHEL HENRY" Session.busy Hnamed eq_refl Hown)
    as (_ & Hexact & _).
  destruct (Hexact 0) as (r & Hr & _); [left; reflexivity | reflexivity|].
  exists r. split; [exact Hr|].
  assert (E : getAcademic "MICHEL HENRY" Session.busy = Some 0) by (vm_compute; reflexivity).
  rewrite E in Hr. injection Hr as <-. reflexivity.
Defined.

(* ===================================================================== *)
(** ** The taxonomy vocabulary across export and import *)
(* ===================================================================== *)

Section Categories.
  Context {S : Type} `{WebStorage S}.
  Variable clock : nat -> string.
  Variable Date_parse : string -> option Z.
  Implicit Type st : state S.

Lemma addNoveltyTile_lists tile st :
  favorites (snd (addNoveltyTile clock Date_parse tile st)) = favorites st
  /\ pendingSubmissions (snd (addNoveltyTile clock Date_parse tile st))
     = pendingSubmissions st
  /\ taxonomyCategories (snd (addNoveltyTile clock Date_parse tile st))
     = taxonomyCategories st.
Proof.
  unfold addNoveltyTile.
  destruct (negb (JS.truthy (Tile.title tile))); [auto|].
  destruct (opt_truthy (Tile.date tile)); simpl;
    match goal with
    | |- context [saveToLocalStorage Date_parse ?s] =>
        destruct (saveToLocalStorage_lists Date_parse s) as (Ef & Ep & Et)
    end; rewrite Ef, Ep, Et; auto.
Qed.

  (** X26. An import of the text just exported leaves the taxonomy
      vocabulary, the favorites and the submissions in memory as they
      were, whether it reports success or failure and whatever the storage
      does. *)
Theorem importFromJSON_exportToJSON_categories st :
  let exported := exportToJSON clock st in
  let imported := importFromJSON clock Date_parse (fst exported) (snd exported) in
  getAllTaxonomyCategories (snd imported) = getAllTaxonomyCategories st
  /\ getFavorites (snd imported) = getFavorites st
  /\ getPendingSubmissions (snd imported) = getPendingSubmissions st.
Proof.
  unfold exportToJSON, now, getAllTaxonomyCategories, getFavorites, getPendingSubmissions.
  simpl. unfold importFromJSON.
  set (st1 := set_ticks (Datatypes.S (ticks st)) st).
  set (st2 := set_taxonomyCategories _ (assign_academics (snapshot st1) st1)).
  destruct (saveToLocalStorage_lists Date_parse st2) as (Ef & Ep & Et).
  destruct (saveToLocalStorage Date_parse st2) as [saveSuccess st3].
  simpl in *. destruct saveSuccess; simpl.
  - unfold now. simpl.
    match goal with
    | |- context [addNoveltyTile clock Date_parse ?t ?s] =>
        destruct (addNoveltyTile_lists t s) as (Tf & Tp & Tt)
    end.
    rewrite Tf, Tp, Tt. simpl. auto.
  - auto.
Qed.
End Categories.

(* ===================================================================== *)
(** ** The shape of an extracted record *)
(* ===================================================================== *)

Section EngineFacts.
Import Regex.

  (** The result of a match is a result of the rest of the pattern. *)
Lemma rmatch_from_rest fl r : forall p s c k res,
  rmatch fl r p s c k = Some res -> exists p' s' c', k p' s' c' = Some res.
Proof.
  induction r as [| d | | neg items | r1 IH1 r2 IH2 | r1 IH1 r2 IH2 | greedy r IH
                  | n r IH | neg r IH | |]; intros p s c k res; cbn [rmatch].
  - eauto.
  - destruct s as [|a s']; [discriminate|]. destruct (char_eq fl a d); [eauto|discriminate].
  - destruct s as [|a s']; [discriminate|].
    destruct (JS.is_line_terminator a); [discriminate|eauto].
  - destruct s as [|a s']; [discriminate|].
    destruct (xorb neg (in_class fl items a)); [eauto|discriminate].
  - intros Hm. apply IH1 in Hm. destruct Hm as (p' & s' & c' & Hm).
    apply IH2 in Hm. exact Hm.
  - destruct (rmatch fl r1 p s c k) eqn:E1.
    + intros [= <-]. eapply IH1, E1.
    + apply IH2.
  - match goal with |- ?f (length s) p s c = _ -> _ => set (loop := f) end.
    generalize (length s) as n. intros n. revert p s c.
    induction n as [|n IHn]; intros p s c.
    + simpl. eauto.
    + change (loop (S n) p s c)
        with (let again (_ : unit) :=
                rmatch fl r p s c
                  (fun p' s' c' =>
                     if (length s' <? length s) then loop n p' s' c' else None) in
              if greedy
              then match again tt with Some x => Some x | None => k p s c end
              else match k p s c with Some x => Some x | None => again tt end).
      cbv zeta.
      assert (Hagain : rmatch fl r p s c
                         (fun p' s' c' =>
                            if (length s' <? length s) then loop n p' s' c' else None)
                       = Some res -> exists p' s' c', k p' s' c' = Some res).
      { intros Hm. apply IH in Hm. destruct Hm as (p' & s' & c' & Hm).
        destruct (length s' <? length s); [|discriminate]. apply IHn in Hm. exact Hm. }
      destruct greedy.
      * destruct (rmatch fl r p s c _) eqn:E.
        -- intros [= <-]. apply Hagain. reflexivity.
        -- eauto.
      * destruct (k p s c) eqn:E.
        -- intros [= <-]. eauto.
        -- exact Hagain.
  - intros Hm. apply IH in Hm. destruct Hm as (p' & s' & c' & Hm). eauto.
  - destruct (rmatch fl r p s c _) as [[rest c']|]; destruct neg; try discriminate; eauto.
  - destruct p as [a|]; [|eauto].
    destruct (multiline fl && JS.is_line_terminator a); [eauto|discriminate].
  - destruct s as [|a s']; [eauto|].
    destruct (multiline fl && JS.is_line_terminator a); [eauto|discriminate].
Qed.

Lemma in_class_digit a : in_class no_flags [CDigit] a = JS.is_digit a.
Proof. unfold in_class. simpl. apply orb_false_r. Qed.

  (** The first capture group of the year patterns takes four digits. *)
Lemma rmatch_group_digit4 p s c k res :
  rmatch no_flags (Group 1 digit4) p s c k = Some res ->
  exists d1 d2 d3 d4 s',
    s = d1 :: d2 :: d3 :: d4 :: s'
    /\ JS.is_digit d1 = true /\ JS.is_digit d2 = true
    /\ JS.is_digit d3 = true /\ JS.is_digit d4 = true
    /\ k (Some d4) s' (set_cap 1 [d1; d2; d3; d4] c) = Some res.
Proof.
  unfold digit4, digit. cbn [seqs rmatch xorb].
  destruct s as [|d1 [|d2 [|d3 [|d4 s']]]]; rewrite ?in_class_digit;
    try discriminate;
    try (destruct (JS.is_digit d1); discriminate);
    try (destruct (JS.is_digit d1), (JS.is_digit d2); discriminate);
    try (destruct (JS.is_digit d1), (JS.is_digit d2), (JS.is_digit d3); discriminate).
  destruct (JS.is_digit d1) eqn:E1; [|discriminate].
  destruct (JS.is_digit d2) eqn:E2; [|discriminate].
  destruct (JS.is_digit d3) eqn:E3; [|discriminate].
  destruct (JS.is_digit d4) eqn:E4; [|discriminate].
  replace (length (d1 :: d2 :: d3 :: d4 :: s') - length s') with 4 by (simpl; lia).
  intros Hk. exists d1, d2, d3, d4, s'. auto 10.
Qed.

Lemma search_from_here fl r s : forall skipped p f,
  search_from fl r skipped p s = Some f ->
  exists p' s', match_here fl r p' s' = Some (matched f, after f, captures f).
Proof.
  induction s as [|a s IH]; intros skipped p f; cbn [search_from].
  - destruct (match_here fl r p []) as [[[m rest] c]|] eqn:E; [|discriminate].
    intros [= <-]. exists p, []. exact E.
  - destruct (match_here fl r p (a :: s)) as [[[m rest] c]|] eqn:E.
    + intros [= <-]. exists p, (a :: s). exact E.
    + apply IH.
Qed.

Lemma match_here_rmatch fl r p s m rest c :
  match_here fl r p s = Some (m, rest, c) ->
  rmatch fl r p s [] (fun _ s' c' => Some (s', c')) = Some (rest, c).
Proof.
  unfold match_here. destruct (rmatch fl r p s [] _) as [[rest' c']|]; [|discriminate].
  intros [= _ <- <-]. reflexivity.
Qed.

Lemma yearParen_group item f :
  search no_flags Extractor.yearParenRegex item = Some f -> four_digits (group 1 f).
Proof.
  intros Hs. apply search_from_here in Hs. destruct Hs as (p & s & Hm).
  apply match_here_rmatch in Hm. unfold Extractor.yearParenRegex in Hm.
  cbn [seqs] in Hm. rewrite rmatch_seq in Hm.
  apply rmatch_from_rest in Hm. destruct Hm as (p1 & s1 & c1 & Hm).
  rewrite rmatch_seq in Hm. apply rmatch_group_digit4 in Hm.
  destruct Hm as (d1 & d2 & d3 & d4 & s' & _ & D1 & D2 & D3 & D4 & Hm).
  cbn [rmatch] in Hm. destruct s' as [|a s'']; [discriminate|].
  destruct (char_eq no_flags a ")"); [|discriminate].
  injection Hm as _ Hc. unfold group. rewrite <- Hc. simpl.
  exists d1, d2, d3, d4. auto.
Qed.

Lemma yearComma_group item f :
  search no_flags Extractor.yearCommaRegex item = Some f -> four_digits (group 1 f).
Proof.
  intros Hs. apply search_from_here in Hs. destruct Hs as (p & s & Hm).
  apply match_here_rmatch in Hm. unfold Extractor.yearCommaRegex in Hm.
  cbn [seqs] in Hm. rewrite rmatch_seq in Hm.
  apply rmatch_from_rest in Hm. destruct Hm as (p1 & s1 & c1 & Hm).
  rewrite rmatch_seq in Hm.
  apply rmatch_from_rest in Hm. destruct Hm as (p2 & s2 & c2 & Hm).
  apply rmatch_group_digit4 in Hm.
  destruct Hm as (d1 & d2 & d3 & d4 & s' & _ & D1 & D2 & D3 & D4 & Hm).
  injection Hm as _ Hc. unfold group. rewrite <- Hc. simpl.
  exists d1, d2, d3, d4. auto.
Qed.

Lemma digit_value d : JS.is_digit d = true -> (0 <= Z.of_nat (JS.code d - 48) <= 9)%Z.
Proof.
  unfold JS.is_digit. intros E. apply andb_true_iff in E. destruct E as [E1 E2].
  apply Nat.leb_le in E1, E2. lia.
Qed.

Lemma parseInt_four_digits s : four_digits s -> (0 <= JS.parseInt s <= 9999)%Z.
Proof.
  intros (d1 & d2 & d3 & d4 & -> & D1 & D2 & D3 & D4).
  apply digit_value in D1, D2, D3, D4. unfold JS.parseInt.
  rewrite list_ascii_of_string_of_list_ascii. cbn [fold_left]. lia.
Qed.

Lemma item_year_range item : (0 <= Extractor.item_year item <= 9999)%Z.
Proof.
  unfold Extractor.item_year.
  destruct (search no_flags Extractor.yearParenRegex item) as [f|] eqn:E1.
  - apply parseInt_four_digits, (yearParen_group item), E1.
  - destruct (search no_flags Extractor.yearCommaRegex item) as [f|] eqn:E2; [|lia].
    apply parseInt_four_digits, (yearComma_group item), E2.
Qed.
End EngineFacts.

Section TrimFacts.

Lemma drop_space_idem l : JS.drop_space (JS.drop_space l) = JS.drop_space l.
Proof.
  induction l as [|a l IH]; simpl; [reflexivity|].
  destruct (JS.is_space a) eqn:E; [exact IH|]. simpl. rewrite E. reflexivity.
Qed.

Lemma drop_space_push l h :
  JS.is_space h = false -> JS.drop_space (l ++ [h]) = JS.drop_space l ++ [h].
Proof.
  intros Hh. induction l as [|a l IH]; simpl; [rewrite Hh; reflexivity|].
  destruct (JS.is_space a); [exact IH | reflexivity].
Qed.

Lemma drop_space_head l h t : JS.drop_space l = h :: t -> JS.is_space h = false.
Proof. rewrite drop_space_after. apply after_head. Qed.

Lemma trim_fixed l :
  let t := rev (JS.drop_space (rev (JS.drop_space l))) in
  JS.drop_space t = t /\ JS.drop_space (rev t) = rev t.
Proof.
  cbv zeta. split; [|rewrite rev_involutive; apply drop_space_idem].
  destruct (JS.drop_space l) as [|h t] eqn:E; [reflexivity|].
  pose proof (drop_space_head _ _ _ E) as Hh.
  cbn [rev]. rewrite (drop_space_push _ _ Hh), rev_app_distr. simpl. rewrite Hh.
  reflexivity.
Qed.

Lemma trim_trimmed s : trimmed (JS.trim s).
Proof.
  unfold trimmed, JS.trim. rewrite list_ascii_of_string_of_list_ascii.
  destruct (trim_fixed (list_ascii_of_string s)) as [E1 E2]. cbv zeta in E1, E2.
  rewrite E1, E2, rev_involutive. reflexivity.
Qed.

Lemma trimmed_empty : trimmed EmptyString.
Proof. reflexivity. Qed.
End TrimFacts.

Section Shape.
  Import Extractor.

Lemma paper_of_item_shape item : extracted_paper (paper_of_item item).
Proof.
  unfold paper_of_item, extracted_paper, extracted_year.
  destruct (Regex.search Regex.flag_i coauthorsRegex (strip_year item)) as [f|]; simpl.
  - split; [apply trim_trimmed|]. split; [eexists; split; [reflexivity | apply item_year_range]|].
    apply List.Forall_forall. intros c Hc. apply List.filter_In in Hc.
    destruct Hc as [Hc Ht]. split; [exact Ht|].
    apply in_map_iff in Hc. destruct Hc as (x & <- & _). apply trim_trimmed.
  - split; [apply trim_trimmed|]. split; [eexists; split; [reflexivity | apply item_year_range]|].
    constructor.
Qed.

Lemma event_of_item_shape item : extracted_event (event_of_item item).
Proof.
  unfold event_of_item, extracted_event, extracted_year. simpl.
  split; [|split; [eexists; split; [reflexivity | apply item_year_range]|]].
  - destruct (JS.truthy _); apply trim_trimmed.
  - destruct (Regex.search Regex.no_flags locationRegex item);
      [apply trim_trimmed | apply trimmed_empty].
Qed.

  (** The shape of what the section-based parsing returns. *)
Lemma extract_sections_shape text a :
  extract_sections text = Some a ->
  JS.truthy (name a) = true
  /\ trimmed (name a)
  /\ (exists b t cs, bio a = Some b /\ taxonomies a = Some t /\ connections a = Some cs)
  /\ (exists ps, papers a = Some ps /\ List.Forall extracted_paper ps)
  /\ (exists es, events a = Some es /\ List.Forall extracted_event es).
Proof.
  unfold extract_sections.
  destruct (JS.truthy (extract_name text)) eqn:Hn; simpl; [|discriminate].
  intros [= <-]. simpl. split; [exact Hn|]. split.
  { unfold extract_name. destruct (first_capture namePatterns text);
      [apply trim_trimmed | apply trimmed_empty]. }
  split; [do 3 eexists; repeat split; reflexivity|]. split.
  - eexists. split; [reflexivity|]. unfold extract_papers.
    destruct (first_capture papersPatterns text); [|constructor].
    apply List.Forall_forall. intros p Hp. apply in_map_iff in Hp.
    destruct Hp as (item & <- & _). apply paper_of_item_shape.
  - eexists. split; [reflexivity|]. unfold extract_events.
    destruct (first_capture eventsPatterns text); [|constructor].
    apply List.Forall_forall. intros p Hp. apply in_map_iff in Hp.
    destruct Hp as (item & <- & _). apply event_of_item_shape.
Qed.

  (** [JSON.parse] on the content of a fenced block. *)
  Variable JSON_parse : string -> option Academic.

  (** X27. When [extractAcademicData] returns a record that does not come
      from a fenced JSON block, the record has all six properties; its
      name is not empty and has no white space at either end; every paper
      and every event has a title without white space at either end and a
      year that is a number from 0 to 9999; the location of an event has no
      white space at either end; and a coauthor is never an empty
      string. *)
Theorem extractAcademicData_shape text a :
  extract_json JSON_parse text = None ->
  extractAcademicData JSON_parse text = Some a ->
  JS.truthy (name a) = true
  /\ trimmed (name a)
  /\ (exists b t cs, bio a = Some b /\ taxonomies a = Some t /\ connections a = Some cs)
  /\ (exists ps, papers a = Some ps /\ List.Forall extracted_paper ps)
  /\ (exists es, events a = Some es /\ List.Forall extracted_event es).
Proof.
  intros Hjson. unfold extractAcademicData. rewrite Hjson.
  destruct (negb (JS.truthy text) || negb (JS.includes text "name")
            || negb (JS.includes text "bio")); [discriminate|].
  apply extract_sections_shape.
Qed.
End Shape.

Lemma extractAcademicData_shape_witness :
  Extractor.extract_json (fun _ => None) Example.prose = None
  /\ exists a, Extractor.extractAcademicData (fun _ => None) Example.prose = Some a
               /\ trimmed (name a)
               /\ exists ps, papers a = Some ps /\ List.Forall extracted_paper ps.
Proof.
  assert (Hjson : Extractor.extract_json (fun _ => None) Example.prose = None)
    by (vm_compute; reflexivity).
  split; [exact Hjson|].
  destruct (Extractor.extractAcademicData (fun _ => None) Example.prose) as [a|] eqn:E;
    [|vm_compute in E; discriminate E].
  exists a. split; [reflexivity|].
  destruct (extractAcademicData_shape (fun _ => None) Example.prose a Hjson E)
    as (_ & Htrim & _ & Hpapers & _).
  split; [exact Htrim | exact Hpapers].
Defined.

(* ===================================================================== *)
(** ** A new record, and a stream that fails *)
(* ===================================================================== *)

Lemma obj_add_last {V : Type} k (v : V) o :
  JS.array_index k = None -> JS.obj_add k v o = o ++ [(k, v)].
Proof.
  intros Hk. induction o as [|[k0 v0] o IH]; simpl; [reflexivity|].
  rewrite Hk, IH. reflexivity.
Qed.

Section Inserting.
  Context {S : Type} `{LawfulStorage S}.
  Variable clock : nat -> string.
  Variable Date_parse : string -> option Z.
  Implicit Type st : state S.

  (** X28. Over a storage that honours its contract, a call of
      [addOrUpdateAcademic] whose candidate has a key that is not stored,
      and that is not the name of a property that every object inherits,
      puts the candidate itself under that key and changes no record and
      no other key: [getAllAcademics] lists the records of before and the
      candidate, and lists the candidate last unless its key is the
      decimal form of an array index. *)
Theorem addOrUpdateAcademic_inserts st r :
  let candidate := deref (heap st) r in
  let key := _normalizeNameKey (name candidate) in
  JS.truthy (name candidate) = true ->
  inherited_key key = false ->
  JS.obj_get key (academics st) = None ->
  let st' := snd (addOrUpdateAcademic clock Date_parse r st) in
  heap st' = heap st
  /\ JS.obj_get key (academics st') = Some r
  /\ (forall k, String.eqb k key = false ->
        JS.obj_get k (academics st') = JS.obj_get k (academics st))
  /\ Permutation (getAllAcademics st') (r :: getAllAcademics st)
  /\ (JS.array_index key = None -> getAllAcademics st' = getAllAcademics st ++ [r]).
Proof.
  intros candidate key Hname _ Hkey st'.
  destruct (addOrUpdateAcademic_effect clock Date_parse st r Hname) as (_ & _ & Heff).
  fold candidate key st' in Heff. rewrite Hkey in Heff. destruct Heff as [Hh Ha].
  split; [exact Hh|]. unfold getAllAcademics. rewrite Ha.
  split; [apply obj_get_set_eq|]. split.
  { intros k Hk. rewrite obj_get_set, Hk. reflexivity. }
  unfold JS.obj_set. rewrite Hkey. split.
  - destruct (obj_add_split key r (academics st)) as (l1 & l2 & -> & ->).
    unfold JS.obj_values. rewrite !map_app. simpl.
    symmetry. apply Permutation_middle.
  - intros Hidx. rewrite (obj_add_last _ _ _ Hidx). unfold JS.obj_values.
    rewrite map_app. reflexivity.
Qed.
End Inserting.

Lemma addOrUpdateAcademic_inserts_witness :
  JS.truthy (name (deref (heap Example.with_candidate) 1)) = true
  /\ inherited_key (_normalizeNameKey (name (deref (heap Example.with_candidate) 1)))
     = false
  /\ JS.obj_get (_normalizeNameKey (name (deref (heap Example.with_candidate) 1)))
       (academics Example.with_candidate) = None
  /\ getAllAcademics (snd (addOrUpdateAcademic frozen_clock IsoDate.parse 1
                             Example.with_candidate))
     = [0; 1].
Proof.
  assert (Hkey : JS.obj_get (_normalizeNameKey
                               (name (deref (heap Example.with_candidate) 1)))
                   (academics Example.with_candidate) = None)
    by (vm_compute; reflexivity).
  assert (Hown : inherited_key
                   (_normalizeNameKey (name (deref (heap Example.with_candidate) 1)))
                 = false) by (vm_compute; reflexivity).
  split; [reflexivity|]. split; [exact Hown|]. split; [exact Hkey|].
  destruct (addOrUpdateAcademic_inserts frozen_clock IsoDate.parse Example.with_candidate 1
              eq_refl Hown Hkey) as (_ & _ & _ & _ & Hlast).
  rewrite Hlast; [reflexivity | vm_compute; reflexivity].
Defined.

Section StreamFailure.
  Import Stream.
  Variable first_choice : string -> option choice.
  Variable cb : callbacks.

  (** X29. On a stream whose read fails, [handleStream] rejects; before
      that it has called [onChunk] with the contents of the lines that
      were complete, but not with that of the unfinished last line; it
      never calls [onComplete]; and it ends by calling [onError], or by
      showing the error message when [onError] is not a function. *)
Theorem handleStream_failure chunks :
  let lines := JS.split_char Regex.newline (String.concat "" chunks) in
  handleStream first_choice cb chunks Failed
  = (Rejected,
     chunk_calls cb (omap (line_content first_choice) (removelast lines))
       ++ [if onError cb then OnError else ShowErrorMessage]).
Proof.
  intros lines. unfold handleStream.
  rewrite (read_all_lines first_choice cb _ EmptyString _ eq_refl). cbv zeta.
  change (EmptyString ++ String.concat "" chunks)%string with (String.concat "" chunks).
  fold lines. rewrite process_lines. unfold failed. cbn [snd rev].
  rewrite app_nil_r, rev_involutive. reflexivity.
Qed.
End StreamFailure.
